(** * Suchify starter theme: storefront rendering, cart and request helpers

    A shallow embedding of the theme's client script (main.js), of the
    store API client (api-client.js) and of the custom API request helper
    (custom-api.js), with the properties the design document states about
    them.

    Conventions of the embedding.
    - A JavaScript string is a Rocq [string].  Field values are read as
      ASCII text: [toUpperCase], [trim] and the whitespace class of the
      regular expression are modelled on the ASCII range.
    - A template literal is a list of pieces: the literal text of the
      template, and one piece for each interpolation, tagged with the
      position it lands in (element content or attribute value).  The
      string the JavaScript function returns is [html] of that list.
    - The ambient variables of main.js (storeData, products, cart, ...)
      are the fields of a [session] record that the handlers pass along;
      a rendering function takes the variables it reads as arguments.
      What a handler does to the outside world (console, alert, API calls)
      is appended to the session's [trace].
    - The reply of the remote server to a call is an argument of the
      handler that awaits it. *)

From Stdlib Require Import String Ascii List ZArith QArith Bool Lia DecimalString.
Import ListNotations.
Open Scope string_scope.
Open Scope Z_scope.

(** ** Strings *)

(** The double quote character; a back quote in a transcribed template
    stands for it (a template literal cannot hold a back quote itself). *)
Definition dquote : ascii := ascii_of_nat 34.
Definition bquote : ascii := ascii_of_nat 96.

Fixpoint q (s : string) : string :=
  match s with
  | EmptyString => EmptyString
  | String c r => String (if Ascii.eqb c bquote then dquote else c) (q r)
  end.

Definition str1 (c : ascii) : string := String c EmptyString.

(** [String(n)] for an integer [n]. *)
Definition Z_to_string (n : Z) : string := NilZero.string_of_int (Z.to_int n).

(** JavaScript truthiness of a string and of an optional (possibly absent,
    null or undefined) string. *)
Definition nonempty (s : string) : bool := negb (String.eqb s "").

Definition truthy (o : option string) : bool :=
  match o with
  | Some s => nonempty s
  | None => false
  end.

(** [o || d] *)
Definition or_default (o : option string) (d : string) : string :=
  match o with
  | Some s => if nonempty s then s else d
  | None => d
  end.

(** White space in the sense of [\s] and of [trim], on the ASCII range:
    tab, line feed, vertical tab, form feed, carriage return, space. *)
Definition is_ws (c : ascii) : bool :=
  let n := nat_of_ascii c in
  ((9 <=? n)%nat && (n <=? 13)%nat) || (n =? 32)%nat.

Fixpoint trimStart (s : string) : string :=
  match s with
  | EmptyString => EmptyString
  | String c r => if is_ws c then trimStart r else s
  end.

Fixpoint trimEnd (s : string) : string :=
  match s with
  | EmptyString => EmptyString
  | String c r =>
      let r' := trimEnd r in
      if is_ws c && negb (nonempty r') then EmptyString else String c r'
  end.

Definition trim (s : string) : string := trimEnd (trimStart s).

(** [s.split(/\s+/)]: [cur] is the word being read, [in_run] tells that the
    previous character belonged to a separator. *)
Fixpoint split_ws_from (cur : string) (in_run : bool) (s : string) : list string :=
  match s with
  | EmptyString => [cur]
  | String c r =>
      if is_ws c then
        if in_run then split_ws_from cur true r
        else cur :: split_ws_from EmptyString true r
      else split_ws_from (cur ++ str1 c) false r
  end.

Definition split_ws (s : string) : list string := split_ws_from EmptyString false s.

(** [toUpperCase] on ASCII text: the letters a to z become A to Z and
    every other character stays. *)
Definition upper_char (c : ascii) : ascii :=
  let n := nat_of_ascii c in
  if ((97 <=? n)%nat && (n <=? 122)%nat)%bool then ascii_of_nat (n - 32) else c.

Fixpoint toUpperCase (s : string) : string :=
  match s with
  | EmptyString => EmptyString
  | String c r => String (upper_char c) (toUpperCase r)
  end.

(** [s.charAt(0)] *)
Definition charAt0 (s : string) : string :=
  match s with
  | EmptyString => EmptyString
  | String c _ => str1 c
  end.

(** ** escapeHtml

    The function writes the text into a detached element and reads the
    element's serialisation back.  The serialisation of a text node replaces
    the ampersand and the two angle brackets, and nothing else on the ASCII
    range: the quote characters come back as they went in. *)
Definition escape_char (c : ascii) : string :=
  if Ascii.eqb c "&" then "&amp;"
  else if Ascii.eqb c "<" then "&lt;"
  else if Ascii.eqb c ">" then "&gt;"
  else str1 c.

Fixpoint escapeHtml (text : string) : string :=
  match text with
  | EmptyString => EmptyString
  | String c r => escape_char c ++ escapeHtml r
  end.

(** ** generateInitials *)
Definition generateInitials (name : string) : string :=
  if negb (nonempty name) then "ST"
  else
    let words := split_ws (trim name) in
    if (List.length words =? 1)%nat then toUpperCase (substring 0 2 name)
    else toUpperCase (charAt0 (nth 0 words "") ++ charAt0 (nth 1 words "")).

(** ** Data model

    The objects the server returns, with the fields the script reads.  An
    optional field is an [option]; for a string the script tests it for
    truthiness, so that an empty string counts as absent. *)
Module SocialLink.
Record t := mk { enabled : bool; url : string; platform : string }.
End SocialLink.

Module Configuration.
Record t := mk {
  currency : option string;
  delivery_enabled : bool;
  pickup_enabled : bool }.
End Configuration.

Module Store.
Record t := mk {
  name : option string;
  description : option string;
  logo_url : option string;
  social_links : option (list SocialLink.t);
  phone : option string;
  email : option string;
  address : option string;
  configuration : option Configuration.t }.
End Store.

Module Category.
Record t := mk { name : string; product_count : option Z }.
End Category.

Module Promotion.
Record t := mk { name : string; description : option string; code : option string }.
End Promotion.

(** [stock_quantity] is a number, null (unlimited) or missing. *)
Inductive stock := StockNull | StockUndefined | StockNumber (n : Z).

Module Product.
Record t := mk {
  id : string;
  name : string;
  description : option string;
  price : Q;
  category : string;
  image_url : option string;
  stock_quantity : stock;
  is_available : bool;
  tags : option (list string) }.
End Product.

Module CartItem.
Record t := mk {
  product_id : string;
  product_name : string;
  quantity : Z;
  unit_price : Q }.
End CartItem.

Module Cart.
Record t := mk { items : list CartItem.t; subtotal : Q; tax : Q; total : Q }.
End Cart.

(** ** Markup

    [Lit] is text of the template itself.  The other pieces are
    interpolated values: [Text] a string that lands in element content,
    [Attr] a value that lands inside an attribute value, [Num] a number
    or a formatted price that lands in element content. *)
Inductive piece :=
  | Lit (s : string)
  | Text (s : string)
  | Attr (s : string)
  | Num (s : string).

Definition markup := list piece.

Open Scope list_scope.

Definition piece_string (p : piece) : string :=
  match p with
  | Lit s | Text s | Attr s | Num s => s
  end.

Definition html (m : markup) : string := String.concat "" (map piece_string m).

Definition lit (s : string) : markup := [Lit (q s)].
Definition text (s : string) : markup := [Text s].
Definition attr (s : string) : markup := [Attr s].
Definition num (s : string) : markup := [Num s].

(** [xs.join('')] and [xs.join(sep)] on rendered fragments. *)
Definition join (ms : list markup) : markup := List.concat ms.

Fixpoint join_with (sep : markup) (ms : list markup) : markup :=
  match ms with
  | [] => []
  | [m] => m
  | m :: rest => m ++ sep ++ join_with sep rest
  end.

(** [o ? f(o) : ''] for an optional string [o]. *)
Definition when_truthy {A : Type} (o : option string) (f : string -> list A) : list A :=
  match o with
  | Some s => if nonempty s then f s else []
  | None => []
  end.

(** [s.replace(/'/g, "\\'")]: a backslash before every single quote. *)
Fixpoint replace_squote (s : string) : string :=
  match s with
  | EmptyString => EmptyString
  | String c r =>
      if Ascii.eqb c "'" then String (ascii_of_nat 92) (String c (replace_squote r))
      else String c (replace_squote r)
  end.

(** ** Replies, events and the document

    A promise settles with a value or with an error; of the error the
    script reads the message only. *)
Inductive result (A : Type) : Type :=
  | Resolved (value : A)
  | Rejected (message : string).
Arguments Resolved {A} value.
Arguments Rejected {A} message.

Module OrderItem.
Record t := mk { product_id : string; quantity : Z; unit_price : Q }.
End OrderItem.

Module OrderData.
Record t := mk {
  customer_name : option string;
  customer_email : option string;
  customer_phone : option string;
  delivery_address : string;
  delivery_method : option string;
  payment_method : option string;
  special_instructions : string;
  promotion_code : string;
  cart_items : list OrderItem.t }.
End OrderData.

Module Order.
Record t := mk { order_number : string; tracking_url : option string }.
End Order.

(** What [new FormData(form).get(name)] returns for each field. *)
Module FormData.
Record t := mk {
  customer_name : option string;
  customer_email : option string;
  customer_phone : option string;
  delivery_address : option string;
  delivery_method : option string;
  payment_method : option string;
  special_instructions : option string;
  promotion_code : option string }.
End FormData.

(** What the script does to the world outside its own variables. *)
Inductive event :=
  | ConsoleError (label : string)
  | Alert (message : string)
  | ApiGetStore
  | ApiGetProducts
  | ApiGetCategories
  | ApiGetPromotions
  | ApiAddToCart (productId : string) (quantity : Z)
  | ApiCheckout (orderData : OrderData.t)
  | InitializeCustomFeatures
  | Navigate (url : string).

(** A button, as far as the handlers touch it. *)
Module Button.
Record t := mk { data_product_id : string; disabled : bool; textContent : string }.
End Button.

(** The elements the handlers look up.  An [option] is [None] when the
    element is not in the document; a markup field holds what was last
    assigned to the element's [innerHTML]. *)
Module Dom.
Record t := mk {
  title : option string;              (* document.title, once set *)
  container : option markup;          (* the theme container *)
  main : option markup;               (* the main element *)
  buttons : list Button.t;            (* the add-to-cart buttons, in order *)
  cart_items : option markup;         (* #cart-items *)
  cart : bool;                        (* .cart is there *)
  cart_count : option string;         (* text of .cart-count *)
  cart_total : option string;         (* text of the last span of .cart-total *)
  checkout_btn : option bool;         (* .checkout-btn is disabled *)
  cart_panel : option bool;           (* #cart-panel has the class open *)
  overlays : list (markup * Button.t) (* checkout overlays and their submit buttons *) }.
End Dom.

(** Whether the custom API script is loaded, and how its
    [initializeCustomFeatures] ends when called. *)
Inductive custom_api := NoCustomAPI | HookReturns | HookThrows.

(** ** Rendering (main.js)

    [formatPrice] formats through the platform's number formatter and
    [Date.now()] reads the clock: both are taken from outside. *)
Section Theme.

Variable formatPrice : Q -> string -> string.
Variable Date_now : Product.t -> Z.

(** [storeData?.configuration?.currency || 'USD'] *)
Definition currency_of (storeData : option Store.t) : string :=
  match storeData with
  | Some sd =>
      match Store.configuration sd with
      | Some c => or_default (Configuration.currency c) "USD"
      | None => "USD"
      end
  | None => "USD"
  end.

Definition showLoading : markup :=
  lit "
    <div class=`loading`>
      <div class=`spinner`></div>
      <p>Loading store...</p>
    </div>
  ".

Definition showError (message : string) : markup :=
  lit "
    <div class=`error`>
      <h2>Error</h2>
      <p>"
    ++ text (escapeHtml message)
    ++ lit "</p>
      <button onclick=`location.reload()` style=`margin-top: 1rem; padding: 0.5rem 1rem; background: var(--primary-color); color: white; border: none; border-radius: 8px; cursor: pointer;`>
        Retry
      </button>
    </div>
  ".

Definition renderHeader (storeData : Store.t) : markup :=
  let storeName := or_default (Store.name storeData) "Store" in
  let initials := generateInitials storeName in
  let logo :=
    when_truthy (Store.logo_url storeData) (fun logo_url =>
      lit "<img src=`"
      ++ attr (escapeHtml logo_url)
      ++ lit "` alt=`"
      ++ attr (escapeHtml storeName)
      ++ lit "` class=`logo` onerror=`this.style.display='none'; const initialsEl = this.nextElementSibling; if(initialsEl) initialsEl.style.display='flex';`>") in
  let initialsLogo :=
    lit "<div class=`logo-initials` style=`"
    ++ lit (if truthy (Store.logo_url storeData) then "display: none;" else "")
    ++ lit "`>"
    ++ text (escapeHtml initials)
    ++ lit "</div>" in
  let socialLinks :=
    match Store.social_links storeData with
    | Some ((_ :: _) as social_links) =>
        lit "<div class=`social-links`>
        "
        ++ join (map (fun link =>
              lit "<a href=`"
              ++ attr (escapeHtml (SocialLink.url link))
              ++ lit "` target=`_blank` rel=`noopener noreferrer` class=`social-link`>"
              ++ text (escapeHtml (SocialLink.platform link))
              ++ lit "</a>")
            (filter SocialLink.enabled social_links))
        ++ lit "
       </div>"
    | _ => []
    end in
  lit "
    <header>
      "
  ++ logo
  ++ lit "
      "
  ++ initialsLogo
  ++ lit "
      <h1>"
  ++ text (escapeHtml storeName)
  ++ lit "</h1>
      "
  ++ when_truthy (Store.description storeData) (fun description =>
      lit "<p class=`description`>"
      ++ text (escapeHtml description)
      ++ lit "</p>")
  ++ lit "
      "
  ++ socialLinks
  ++ lit "
    </header>
  ".

(** [cat.product_count || 0] *)
Definition count_or_zero (n : option Z) : Z :=
  match n with
  | Some k => k
  | None => 0
  end.

Definition renderNavigation (categories : list Category.t) (currentCategory : string) : markup :=
  match categories with
  | [] => []
  | _ =>
  lit "
    <nav>
      <div class=`category-buttons`>
        <button class=`category-btn "
  ++ lit (if String.eqb currentCategory "all" then "active" else "")
  ++ lit "` data-category=`all`>
          All
        </button>
        "
  ++ join (map (fun cat =>
      lit "
          <button class=`category-btn "
      ++ lit (if String.eqb currentCategory (Category.name cat) then "active" else "")
      ++ lit "` data-category=`"
      ++ attr (escapeHtml (Category.name cat))
      ++ lit "`>
            "
      ++ text (escapeHtml (Category.name cat))
      ++ lit " ("
      ++ num (Z_to_string (count_or_zero (Category.product_count cat)))
      ++ lit ")
          </button>
        ") categories)
  ++ lit "
      </div>
    </nav>
  "
  end.

Definition renderPromotions (promotions : list Promotion.t) : markup :=
  match promotions with
  | [] => []
  | _ =>
  lit "
    <div class=`promotions`>
      <h3 style=`margin-bottom: 0.5rem;`>Special Offers</h3>
      "
  ++ join (map (fun promo =>
      lit "
        <div class=`promotion-item`>
          <strong>"
      ++ text (escapeHtml (Promotion.name promo))
      ++ lit "</strong>
          <span>"
      ++ text (escapeHtml (or_default (Promotion.description promo) ""))
      ++ lit "</span>
          "
      ++ when_truthy (Promotion.code promo) (fun code =>
        lit "<br><small>Use code: <strong>"
        ++ text (escapeHtml code)
        ++ lit "</strong></small>")
      ++ lit "
        </div>
      ") promotions)
  ++ lit "
    </div>
  "
  end.

Definition placeholderImage : string :=
  "data:image/svg+xml,%3Csvg xmlns='http://www.w3.org/2000/svg' width='300' height='200'%3E%3Crect width='300' height='200' fill='%23f9fafb'/%3E%3Ctext x='50%25' y='50%25' dominant-baseline='middle' text-anchor='middle' font-family='Arial, sans-serif' font-size='14' fill='%236b7280'%3ENo Image%3C/text%3E%3C/svg%3E".

(** [is_available && (stock_quantity === null || stock_quantity > 0) ? '' : 'disabled'] *)
Definition in_stock (s : stock) : bool :=
  match s with
  | StockNull => true
  | StockNumber n => 0 <? n
  | StockUndefined => false
  end.

Definition availability (product : Product.t) : string :=
  if Product.is_available product && in_stock (Product.stock_quantity product)
  then "" else "disabled".

Definition renderProduct (storeData : Store.t) (product : Product.t) : markup :=
  let imageId :=
    ("product-img-" ++ Product.id product ++ "-" ++ Z_to_string (Date_now product))%string in
  let image :=
    match Product.image_url product with
    | Some image_url =>
        if nonempty image_url then
          lit "<img id=`"
          ++ attr imageId
          ++ lit "` src=`"
          ++ attr (escapeHtml image_url)
          ++ lit "` alt=`"
          ++ attr (escapeHtml (Product.name product))
          ++ lit "` class=`product-image` loading=`lazy` decoding=`async` onerror=`if(!this.dataset.fallbackSet){this.dataset.fallbackSet='true';this.onerror=null;this.src='"
          ++ [Lit (replace_squote placeholderImage)]
          ++ lit "';}`>"
        else
          lit "<img src=`"
          ++ [Lit placeholderImage]
          ++ lit "` alt=`No image available` class=`product-image`>"
    | None =>
        lit "<img src=`"
        ++ [Lit placeholderImage]
        ++ lit "` alt=`No image available` class=`product-image`>"
    end in
  let tags :=
    match Product.tags product with
    | Some ((_ :: _) as tags) =>
        lit "<div class=`product-tags`>
        "
        ++ join (map (fun tag => lit "<span class=`tag`>"
            ++ text (escapeHtml tag)
            ++ lit "</span>") tags)
        ++ lit "
       </div>"
    | _ => []
    end in
  let availability := availability product in
  let price := formatPrice (Product.price product) (currency_of (Some storeData)) in
  lit "
    <div class=`product`>
      "
  ++ image
  ++ lit "
      <div class=`product-info`>
        <h3 class=`product-name`>"
  ++ text (escapeHtml (Product.name product))
  ++ lit "</h3>
        "
  ++ when_truthy (Product.description product) (fun description =>
      lit "<p class=`product-description`>"
      ++ text (escapeHtml description)
      ++ lit "</p>")
  ++ lit "
        "
  ++ tags
  ++ lit "
        <div class=`product-price`>"
  ++ num price
  ++ lit "</div>
        <button 
          class=`add-to-cart-btn` 
          "
  ++ lit availability
  ++ lit "
          onclick=`addToCart('"
  ++ attr (Product.id product)
  ++ lit "')`
          data-product-id=`"
  ++ attr (Product.id product)
  ++ lit "`
        >
          "
  ++ lit (if nonempty availability then "Out of Stock" else "Add to Cart")
  ++ lit "
        </button>
      </div>
    </div>
  ".

Definition filterProducts (products : list Product.t) (currentCategory : string) : list Product.t :=
  if String.eqb currentCategory "all" then products
  else filter (fun p => String.eqb (Product.category p) currentCategory) products.

Definition renderProducts (storeData : Store.t) (products : list Product.t)
    (currentCategory : string) : markup :=
  let filteredProducts := filterProducts products currentCategory in
  match filteredProducts with
  | [] =>
  lit "
      <div class=`text-center` style=`padding: 3rem;`>
        <h2>No products found</h2>
        <p>"
  ++ (if String.eqb currentCategory "all" then lit "This store has no products yet."
       else lit "No products in the `"
            ++ text currentCategory
            ++ lit "` category.")
  ++ lit "</p>
      </div>
    "
  | _ =>
  lit "
    <div class=`products`>
      "
  ++ join (map (fun product => renderProduct storeData product) filteredProducts)
  ++ lit "
    </div>
  "
  end.

Definition renderFooter (storeData : Store.t) : markup :=
  let contactInfo : list markup :=
    when_truthy (Store.phone storeData) (fun phone => [lit "Phone: " ++ text (escapeHtml phone)])
    ++ when_truthy (Store.email storeData) (fun email => [lit "Email: " ++ text (escapeHtml email)])
    ++ when_truthy (Store.address storeData) (fun address => [lit "Address: " ++ text (escapeHtml address)]) in
  lit "
    <footer>
      "
  ++ (match contactInfo with
       | [] => []
       | _ => lit "<p>"
          ++ join_with (lit " | ") contactInfo
          ++ lit "</p>"
       end)
  ++ lit "
      <p style=`margin-top: 1rem; color: var(--text-light); font-size: 0.9rem;`>
        Powered by Suchify
      </p>
    </footer>
  ".

(** [cart.items.reduce((sum, item) => sum + item.quantity, 0)] *)
Definition cartCount (cart : Cart.t) : Z :=
  fold_left (fun sum item => sum + CartItem.quantity item) (Cart.items cart) 0.

Definition renderCartItems (storeData : option Store.t) (cart : Cart.t) : markup :=
  match Cart.items cart with
  | [] => lit "<div class=`text-center` style=`padding: 2rem; color: var(--text-light);`>Your cart is empty</div>"
  | items =>
      join (map (fun item =>
        lit "
    <div class=`cart-item`>
      <div class=`cart-item-info`>
        <div class=`cart-item-name`>"
        ++ text (escapeHtml (CartItem.product_name item))
        ++ lit "</div>
        <div class=`cart-item-price`>"
        ++ num (formatPrice (CartItem.unit_price item) (currency_of storeData))
        ++ lit " × "
        ++ num (Z_to_string (CartItem.quantity item))
        ++ lit "</div>
      </div>
      <div class=`cart-item-quantity`>
        <button class=`quantity-btn` onclick=`updateCartQuantity('"
        ++ attr (CartItem.product_id item)
        ++ lit "', "
        ++ attr (Z_to_string (CartItem.quantity item - 1))
        ++ lit ")`>-</button>
        <span>"
        ++ num (Z_to_string (CartItem.quantity item))
        ++ lit "</span>
        <button class=`quantity-btn` onclick=`updateCartQuantity('"
        ++ attr (CartItem.product_id item)
        ++ lit "', "
        ++ attr (Z_to_string (CartItem.quantity item + 1))
        ++ lit ")`>+</button>
      </div>
    </div>
  ") items)
  end.

Definition renderCart (storeData : option Store.t) (cart : Cart.t) : markup :=
  let cartCount := cartCount cart in
  lit "
    <div class=`cart` onclick=`toggleCart()`>
      <svg width=`24` height=`24` viewBox=`0 0 24 24` fill=`none` stroke=`currentColor` stroke-width=`2`>
        <path d=`M9 21H5a2 2 0 0 1-2-2V9a2 2 0 0 1 2-2h4m7 0V5a2 2 0 0 0-2-2h-2M9 7V5a2 2 0 0 1 2-2h2a2 2 0 0 1 2 2v2m-6 4h8m-8 4h8m-8-8h8`/>
      </svg>
      "
  ++ (if 0 <? cartCount then
       lit "<span class=`cart-count`>"
       ++ num (Z_to_string cartCount)
       ++ lit "</span>"
     else [])
  ++ lit "
    </div>
    <div class=`cart-panel` id=`cart-panel`>
      <div class=`cart-header`>
        <h2>Shopping Cart</h2>
        <button class=`close-cart` onclick=`toggleCart()`>×</button>
      </div>
      <div class=`cart-items` id=`cart-items`>
        "
  ++ renderCartItems storeData cart
  ++ lit "
      </div>
      <div class=`cart-footer`>
        <div class=`cart-total`>
          <span>Total:</span>
          <span>"
  ++ num (formatPrice (Cart.total cart) (currency_of storeData))
  ++ lit "</span>
        </div>
        <button 
          class=`checkout-btn` 
          "
  ++ lit (match Cart.items cart with [] => "disabled" | _ => "" end)
  ++ lit "
          onclick=`handleCheckout()`
        >
          Checkout
        </button>
      </div>
    </div>
  ".

Definition renderTheme (storeData : Store.t) (categories : list Category.t)
    (promotions : list Promotion.t) (products : list Product.t)
    (cart : Cart.t) (currentCategory : string) : markup :=
  lit "
    "
  ++ renderHeader storeData
  ++ lit "
    "
  ++ renderNavigation categories currentCategory
  ++ lit "
    <main>
      "
  ++ renderPromotions promotions
  ++ lit "
      "
  ++ renderProducts storeData products currentCategory
  ++ lit "
    </main>
    "
  ++ renderFooter storeData
  ++ lit "
    "
  ++ renderCart (Some storeData) cart
  ++ lit "
  ".

Definition checkoutModal (storeData : option Store.t) : markup :=
  let configuration :=
    match storeData with
    | Some sd => Store.configuration sd
    | None => None
    end in
  let enabled (flag : Configuration.t -> bool) :=
    match configuration with
    | Some c => flag c
    | None => false
    end in
  lit "
    <div class=`modal`>
      <div class=`modal-header`>
        <h2>Checkout</h2>
        <button class=`close-cart` onclick=`this.closest('.modal-overlay').remove()`>×</button>
      </div>
      <div class=`modal-body`>
        <form id=`checkout-form` onsubmit=`submitCheckout(event)`>
          <div class=`form-group`>
            <label for=`customer_name`>Name *</label>
            <input type=`text` id=`customer_name` name=`customer_name` required>
          </div>
          <div class=`form-group`>
            <label for=`customer_email`>Email *</label>
            <input type=`email` id=`customer_email` name=`customer_email` required>
          </div>
          <div class=`form-group`>
            <label for=`customer_phone`>Phone *</label>
            <input type=`tel` id=`customer_phone` name=`customer_phone` required>
          </div>
          <div class=`form-group`>
            <label for=`delivery_method`>Delivery Method *</label>
            <select id=`delivery_method` name=`delivery_method` required>
              "
  ++ (if enabled Configuration.delivery_enabled then lit "<option value=`delivery`>Delivery</option>" else [])
  ++ lit "
              "
  ++ (if enabled Configuration.pickup_enabled then lit "<option value=`pickup`>Pickup</option>" else [])
  ++ lit "
            </select>
          </div>
          <div class=`form-group`>
            <label for=`delivery_address`>Delivery Address</label>
            <input type=`text` id=`delivery_address` name=`delivery_address`>
          </div>
          <div class=`form-group`>
            <label for=`payment_method`>Payment Method *</label>
            <select id=`payment_method` name=`payment_method` required>
              <option value=`cash`>Cash</option>
              <option value=`card`>Card</option>
              <option value=`online`>Online</option>
            </select>
          </div>
          <div class=`form-group`>
            <label for=`special_instructions`>Special Instructions</label>
            <textarea id=`special_instructions` name=`special_instructions` rows=`3`></textarea>
          </div>
          <div class=`form-group`>
            <label for=`promotion_code`>Promotion Code (Optional)</label>
            <input type=`text` id=`promotion_code` name=`promotion_code`>
          </div>
          <button type=`submit` class=`checkout-btn`>Place Order</button>
        </form>
      </div>
    </div>
  ".

(** ** The session: the ambient variables of main.js and the document *)
Record session := mkSession {
  api : bool;
  storeData : option Store.t;
  products : list Product.t;
  categories : list Category.t;
  promotions : list Promotion.t;
  cart : Cart.t;
  currentCategory : string;
  dom : Dom.t;
  trace : list event }.

Definition emptyCart : Cart.t := Cart.mk [] 0 0 0.

(** The state when the script has been loaded and nothing has run. *)
Definition initial (container : bool) : session :=
  mkSession false None [] [] [] emptyCart "all"
    (Dom.mk None (if container then Some [] else None) None [] None false None None None None [])
    [].

Definition log (e : event) (s : session) : session :=
  mkSession (api s) (storeData s) (products s) (categories s) (promotions s)
    (cart s) (currentCategory s) (dom s) (trace s ++ [e]).

Definition set_cart (c : Cart.t) (s : session) : session :=
  mkSession (api s) (storeData s) (products s) (categories s) (promotions s)
    c (currentCategory s) (dom s) (trace s).

Definition set_dom (d : Dom.t) (s : session) : session :=
  mkSession (api s) (storeData s) (products s) (categories s) (promotions s)
    (cart s) (currentCategory s) d (trace s).

Definition set_api (a : bool) (s : session) : session :=
  mkSession a (storeData s) (products s) (categories s) (promotions s)
    (cart s) (currentCategory s) (dom s) (trace s).

Definition set_data (store : Store.t) (productsData : list Product.t)
    (categoriesData : list Category.t) (promotionsData : list Promotion.t)
    (s : session) : session :=
  mkSession (api s) (Some store) productsData categoriesData promotionsData
    (cart s) (currentCategory s) (dom s) (trace s).

Definition set_currentCategory (c : string) (s : session) : session :=
  mkSession (api s) (storeData s) (products s) (categories s) (promotions s)
    (cart s) c (dom s) (trace s).

(** [container.innerHTML = m] for a page without the theme's elements:
    what the container held is gone, the title and the overlays (children
    of the body) stay. *)
Definition set_page (m : markup) (s : session) : session :=
  set_dom (Dom.mk (Dom.title (dom s)) (Some m) None [] None false None None None None
             (Dom.overlays (dom s))) s.

(** The button of a product card as the markup of [renderProduct] creates it. *)
Definition card_button (product : Product.t) : Button.t :=
  Button.mk (Product.id product) (nonempty (availability product))
    (q "
          " ++ (if nonempty (availability product) then "Out of Stock" else "Add to Cart") ++ q "
        ")%string.

(** [renderTheme(container)]: the page is assigned to the container, which
    creates the theme's elements. *)
Definition mountTheme (store : Store.t) (s : session) : session :=
  let page := renderTheme store (categories s) (promotions s) (products s)
                (cart s) (currentCategory s) in
  let count := cartCount (cart s) in
  set_dom
    (Dom.mk (Dom.title (dom s)) (Some page)
       (Some (lit "
      " ++ renderPromotions (promotions s) ++ lit "
      " ++ renderProducts store (products s) (currentCategory s) ++ lit "
    "))
       (map card_button (filterProducts (products s) (currentCategory s)))
       (Some (lit "
        " ++ renderCartItems (Some store) (cart s) ++ lit "
      "))
       true
       (if 0 <? count then Some (Z_to_string count) else None)
       (Some (formatPrice (Cart.total (cart s)) (currency_of (Some store))))
       (Some (match Cart.items (cart s) with [] => true | _ => false end))
       (Some false)
       (Dom.overlays (dom s)))
    s.

(** ** loadStoreData and initTheme

    The four replies are those of [getStore], [getProducts],
    [getCategories] and [getPromotions]. *)
Definition loadStoreData (store : result Store.t) (productsData : result (list Product.t))
    (categoriesData : result (list Category.t)) (promotionsData : result (list Promotion.t))
    (hook : custom_api) (s : session) : session :=
  let failed (s : session) : session :=
    let s := log (ConsoleError "Error loading store data:") s in
    set_page (showError "Failed to load store data. Please try again later.") s in
  let s := set_page showLoading s in
  if negb (api s) then failed s
  else
    let s := log ApiGetStore s in
    let s := log ApiGetProducts s in
    let s := log ApiGetCategories s in
    let s := log ApiGetPromotions s in
    (* getPromotions().catch(() => []) *)
    let promotionsData :=
      match promotionsData with
      | Resolved l => l
      | Rejected _ => []
      end in
    match store, productsData, categoriesData with
    | Resolved store, Resolved productsData, Resolved categoriesData =>
        let s := set_data store productsData categoriesData promotionsData s in
        let s :=
          match Store.name store with
          | Some n =>
              if nonempty n then
                set_dom (Dom.mk (Some n) (Dom.container (dom s)) (Dom.main (dom s))
                           (Dom.buttons (dom s)) (Dom.cart_items (dom s)) (Dom.cart (dom s))
                           (Dom.cart_count (dom s)) (Dom.cart_total (dom s))
                           (Dom.checkout_btn (dom s)) (Dom.cart_panel (dom s))
                           (Dom.overlays (dom s))) s
              else s
          | None => s
          end in
        match hook with
        | NoCustomAPI => mountTheme store s
        | HookReturns => mountTheme store (log InitializeCustomFeatures s)
        | HookThrows => failed (log InitializeCustomFeatures s)
        end
    | _, _, _ => failed s
    end.

(** [apiClient] tells whether the runtime passed a client or
    [window.__STORE_API__] holds one; whether a container is found is read
    off the document.  The slug handed to a client that keeps one is a
    matter of the client and does not show here. *)
Definition initTheme (apiClient : bool)
    (store : result Store.t) (productsData : result (list Product.t))
    (categoriesData : result (list Category.t)) (promotionsData : result (list Promotion.t))
    (hook : custom_api) (s : session) : session :=
  let s := set_api apiClient s in
  if negb (api s) then
    let s := log (ConsoleError "API client not available") s in
    match Dom.container (dom s) with
    | Some _ =>
        set_page
          (lit "<div class=`error`>API client not available. Please check your theme configuration.</div>") s
    | None => s
    end
  else
    match Dom.container (dom s) with
    | None => log (ConsoleError "Theme container not found") s
    | Some _ => loadStoreData store productsData categoriesData promotionsData hook s
    end.

(** ** The cart handlers *)

(** [document.querySelector] on the product id, then a change of the
    button found: the first button carrying the id, if there is one.  The
    id is taken to be one that the attribute selector can quote (the ids of
    the API are UUIDs). *)
Fixpoint update_button (productId : string) (f : Button.t -> Button.t)
    (bs : list Button.t) : list Button.t :=
  match bs with
  | [] => []
  | b :: rest =>
      if String.eqb (Button.data_product_id b) productId then f b :: rest
      else b :: update_button productId f rest
  end.

Definition set_buttons (bs : list Button.t) (s : session) : session :=
  set_dom (Dom.mk (Dom.title (dom s)) (Dom.container (dom s)) (Dom.main (dom s)) bs
             (Dom.cart_items (dom s)) (Dom.cart (dom s)) (Dom.cart_count (dom s))
             (Dom.cart_total (dom s)) (Dom.checkout_btn (dom s)) (Dom.cart_panel (dom s))
             (Dom.overlays (dom s))) s.

Definition with_button (productId : string) (disabled : bool) (textContent : string)
    (s : session) : session :=
  set_buttons
    (update_button productId
       (fun b => Button.mk (Button.data_product_id b) disabled textContent)
       (Dom.buttons (dom s))) s.

Definition updateCartDisplay (s : session) : session :=
  let d := dom s in
  let cartCount := cartCount (cart s) in
  set_dom
    (Dom.mk (Dom.title d) (Dom.container d) (Dom.main d) (Dom.buttons d)
       (match Dom.cart_items d with
        | Some _ => Some (renderCartItems (storeData s) (cart s))
        | None => None
        end)
       (Dom.cart d)
       (if 0 <? cartCount then
          match Dom.cart_count d with
          | None => if Dom.cart d then Some (Z_to_string cartCount) else None
          | Some _ => Some (Z_to_string cartCount)
          end
        else None)
       (match Dom.cart_total d with
        | Some _ => Some (formatPrice (Cart.total (cart s)) (currency_of (storeData s)))
        | None => None
        end)
       (match Dom.checkout_btn d with
        | Some _ => Some (match Cart.items (cart s) with [] => true | _ => false end)
        | None => None
        end)
       (Dom.cart_panel d) (Dom.overlays d))
    s.

(** [reply] is how the promise of [api.addToCart(productId, 1)] settles. *)
Definition addToCart (productId : string) (reply : result Cart.t) (s : session) : session :=
  if negb (api s) then log (ConsoleError "API client not available") s
  else
    let s := with_button productId true "Adding..." s in
    let s := log (ApiAddToCart productId 1) s in
    match reply with
    | Resolved c =>
        let s := set_cart c s in
        let s := updateCartDisplay s in
        with_button productId false "Add to Cart" s
    | Rejected _ =>
        let s := log (ConsoleError "Error adding to cart:") s in
        let s := log (Alert "Failed to add item to cart. Please try again.") s in
        with_button productId false "Add to Cart" s
    end.

Definition updateCartQuantity (productId : string) (newQuantity : Z)
    (reply : result Cart.t) (s : session) : session :=
  if negb (api s) then log (ConsoleError "API client not available") s
  else if newQuantity <=? 0 then s
  else
    let s := log (ApiAddToCart productId newQuantity) s in
    match reply with
    | Resolved c => updateCartDisplay (set_cart c s)
    | Rejected _ =>
        let s := log (ConsoleError "Error updating cart:") s in
        log (Alert "Failed to update cart. Please try again.") s
    end.

Definition set_overlays (os : list (markup * Button.t)) (open : option bool)
    (s : session) : session :=
  set_dom (Dom.mk (Dom.title (dom s)) (Dom.container (dom s)) (Dom.main (dom s))
             (Dom.buttons (dom s)) (Dom.cart_items (dom s)) (Dom.cart (dom s))
             (Dom.cart_count (dom s)) (Dom.cart_total (dom s)) (Dom.checkout_btn (dom s))
             open os) s.

Definition toggleCart (s : session) : session :=
  set_overlays (Dom.overlays (dom s)) (option_map negb (Dom.cart_panel (dom s))) s.

(** The overlay is appended to the body; its form has the submit button. *)
Definition showCheckoutModal (s : session) : session :=
  set_overlays
    (Dom.overlays (dom s) ++ [(checkoutModal (storeData s), Button.mk "" false "Place Order")])
    (Dom.cart_panel (dom s)) s.

Definition handleCheckout (s : session) : session :=
  if negb (api s) then log (ConsoleError "API client not available") s
  else
    match Cart.items (cart s) with
    | [] => log (Alert "Your cart is empty") s
    | _ => showCheckoutModal s
    end.

(** The form submitted is that of the first overlay; [reply] is how the
    promise of [api.checkout(orderData)] settles. *)
Definition submit_button (disabled : bool) (textContent : string) (s : session) : session :=
  match Dom.overlays (dom s) with
  | (m, b) :: rest =>
      set_overlays ((m, Button.mk (Button.data_product_id b) disabled textContent) :: rest)
        (Dom.cart_panel (dom s)) s
  | [] => s
  end.

Definition submitCheckout (formData : FormData.t) (reply : result Order.t)
    (s : session) : session :=
  if negb (api s) then log (ConsoleError "API client not available") s
  else
    let orderData :=
      OrderData.mk
        (FormData.customer_name formData)
        (FormData.customer_email formData)
        (FormData.customer_phone formData)
        (or_default (FormData.delivery_address formData) "")
        (FormData.delivery_method formData)
        (FormData.payment_method formData)
        (or_default (FormData.special_instructions formData) "")
        (or_default (FormData.promotion_code formData) "")
        (map (fun item =>
                OrderItem.mk (CartItem.product_id item) (CartItem.quantity item)
                  (CartItem.unit_price item))
             (Cart.items (cart s))) in
    let s := submit_button true "Processing..." s in
    let s := log (ApiCheckout orderData) s in
    match reply with
    | Resolved order =>
        let s := log (Alert ("Order placed successfully! Order number: "
                             ++ Order.order_number order)%string) s in
        if truthy (Order.tracking_url order) then
          log (Navigate (or_default (Order.tracking_url order) "")) s
        else
          let s := set_overlays (tl (Dom.overlays (dom s))) (Dom.cart_panel (dom s)) s in
          let s := set_cart emptyCart s in
          let s := updateCartDisplay s in
          toggleCart s
    | Rejected message =>
        let s := log (ConsoleError "Error during checkout:") s in
        let s := log (Alert ("Checkout failed: "
                             ++ (if nonempty message then message else "Please try again."))%string) s in
        submit_button false "Place Order" s
    end.

(** A click on a category button. *)
Definition selectCategory (category : string) (s : session) : session :=
  let s := set_currentCategory category s in
  match Dom.main (dom s), storeData s with
  | Some _, Some store =>
      set_dom
        (Dom.mk (Dom.title (dom s)) (Dom.container (dom s))
           (Some (lit "
          " ++ renderPromotions (promotions s) ++ lit "
          " ++ renderProducts store (products s) (currentCategory s) ++ lit "
        "))
           (map card_button (filterProducts (products s) (currentCategory s)))
           (Dom.cart_items (dom s)) (Dom.cart (dom s)) (Dom.cart_count (dom s))
           (Dom.cart_total (dom s)) (Dom.checkout_btn (dom s)) (Dom.cart_panel (dom s))
           (Dom.overlays (dom s))) s
  | _, _ => s
  end.

End Theme.

(** ** HTTP replies

    [Response.json] is how [response.json()] settles: with the parsed body
    or, when the body is not JSON, with the parser's error.  A parsed body
    is seen as a value of the type the caller expects, together with the
    [message] property that the error path reads from it ([None] when the
    body has no such property).  A body that is the JSON null is left out. *)
Module Json.
Record t (A : Type) := mk { value : A; message : option string }.
Arguments mk {A} value message.
Arguments value {A} _.
Arguments message {A} _.
End Json.

Module Response.
Record t (A : Type) := mk {
  status : Z;
  statusText : string;
  json : result (Json.t A) }.
Arguments mk {A} status statusText json.
Arguments status {A} _.
Arguments statusText {A} _.
Arguments json {A} _.

(** [response.ok] *)
Definition ok {A : Type} (r : t A) : bool := (200 <=? status r) && (status r <=? 299).
End Response.

(** [`HTTP ${response.status}: ${response.statusText}`] *)
Definition http_error {A : Type} (response : Response.t A) : string :=
  ("HTTP " ++ Z_to_string (Response.status response) ++ ": "
   ++ Response.statusText response)%string.

(** ** JavaScript values of a filter

    A finite number is its value, a rational (every double is one; minus
    zero is zero here, and prints as zero does); the two infinities and
    NaN stand apart. *)
Inductive jsval :=
  | JUndefined
  | JNull
  | JBool (b : bool)
  | JNumber (x : Q)
  | JInfinity (negative : bool)
  | JNaN
  | JString (s : string).

Definition truthy_val (v : jsval) : bool :=
  match v with
  | JUndefined | JNull | JNaN => false
  | JBool b => b
  | JNumber x => negb (Qeq_bool x 0)
  | JInfinity _ => true
  | JString s => nonempty s
  end.

(** The integer that a number is, when it is one. *)
Definition integer_value (x : Q) : option Z :=
  if Z.rem (Qnum x) (Zpos (Qden x)) =? 0 then Some (Z.quot (Qnum x) (Zpos (Qden x)))
  else None.

(** The integers that a double holds exactly, each of them: those below
    2^53 in absolute value. *)
Definition is_safe_integer (n : Z) : bool := Z.abs n <? 2 ^ 53.

(** [String(v)], which [URLSearchParams.append] applies to its value.  A
    safe integer prints as its decimal digits; how any other finite number
    prints (12.99, 1e+21) is the platform's [Number_toString], taken from
    outside. *)
Definition to_string (Number_toString : Q -> string) (v : jsval) : string :=
  match v with
  | JUndefined => "undefined"
  | JNull => "null"
  | JBool true => "true"
  | JBool false => "false"
  | JNumber x =>
      match integer_value x with
      | Some n => if is_safe_integer n then Z_to_string n else Number_toString x
      | None => Number_toString x
      end
  | JInfinity negative => if negative then "-Infinity" else "Infinity"
  | JNaN => "NaN"
  | JString s => s
  end.

Definition is_undefined (v : jsval) : bool :=
  match v with
  | JUndefined => true
  | _ => false
  end.

(** The serialisation of [URLSearchParams.toString()]: letters, digits and
    the four characters star, hyphen, dot and underscore stay, a space
    becomes a plus sign, any other byte is written in hexadecimal. *)
Definition hex_digit (n : nat) : ascii :=
  if (n <? 10)%nat then ascii_of_nat (48 + n) else ascii_of_nat (55 + n).

Definition urlencode_char (c : ascii) : string :=
  let n := nat_of_ascii c in
  if ((48 <=? n) && (n <=? 57) || (65 <=? n) && (n <=? 90) || (97 <=? n) && (n <=? 122)
      || (n =? 42) || (n =? 45) || (n =? 46) || (n =? 95))%nat
  then str1 c
  else if (n =? 32)%nat then "+"
  else String "%" (String (hex_digit (n / 16)) (str1 (hex_digit (n mod 16)))).

Fixpoint urlencode (s : string) : string :=
  match s with
  | EmptyString => EmptyString
  | String c r => (urlencode_char c ++ urlencode r)%string
  end.

Definition serialize_params (params : list (string * string)) : string :=
  String.concat "&"
    (map (fun kv => (urlencode (fst kv) ++ "=" ++ urlencode (snd kv))%string) params).

(** ** The store API client (api-client.js) *)
Module Filters.
Record t := mk {
  category : jsval;
  search : jsval;
  min_price : jsval;
  max_price : jsval;
  in_stock : jsval }.

(** [{}], the default argument *)
Definition none : t := mk JUndefined JUndefined JUndefined JUndefined JUndefined.
End Filters.

Module StoreAPIClient.
Record t := mk { baseUrl : string; storeSlug : string }.

(** The part the read operations share: an error for a status outside
    2xx, the parsed body otherwise; an error is logged and thrown again. *)
Definition read {A : Type} (label : string) (reply : result (Response.t A))
  : list event * result A :=
  let thrown (m : string) : list event * result A := ([ConsoleError label], Rejected m) in
  match reply with
  | Rejected m => thrown m
  | Resolved response =>
      if negb (Response.ok response) then thrown (http_error response)
      else
        match Response.json response with
        | Resolved body => ([], Resolved (Json.value body))
        | Rejected m => thrown m
        end
  end.

Definition getStore {A : Type} (this : t) (fetch : string -> result (Response.t A)) :=
  read "Error fetching store:"
    (fetch (baseUrl this ++ "/api/store/" ++ storeSlug this ++ "/settings")%string).

Section Numbers.

(** The platform's conversion of a number to a string. *)
Variable Number_toString : Q -> string.

(** [params.append(key, value)] when the test on the value holds. *)
Definition append_if (test : bool) (key : string) (value : jsval)
  : list (string * string) :=
  if test then [(key, to_string Number_toString value)] else [].

Definition getProducts_params (filters : Filters.t) : list (string * string) :=
  append_if (truthy_val (Filters.category filters)) "category" (Filters.category filters)
  ++ append_if (truthy_val (Filters.search filters)) "search" (Filters.search filters)
  ++ append_if (truthy_val (Filters.min_price filters)) "min_price" (Filters.min_price filters)
  ++ append_if (truthy_val (Filters.max_price filters)) "max_price" (Filters.max_price filters)
  ++ append_if (negb (is_undefined (Filters.in_stock filters))) "in_stock"
       (Filters.in_stock filters).

Definition getProducts_url (this : t) (filters : Filters.t) : string :=
  let queryString := serialize_params (getProducts_params filters) in
  (baseUrl this ++ "/api/store/" ++ storeSlug this ++ "/products"
   ++ (if nonempty queryString then "?" ++ queryString else ""))%string.

Definition getProducts {A : Type} (this : t) (filters : Filters.t)
    (fetch : string -> result (Response.t A)) :=
  read "Error fetching products:" (fetch (getProducts_url this filters)).

End Numbers.

Definition getCategories {A : Type} (this : t) (fetch : string -> result (Response.t A)) :=
  read "Error fetching categories:"
    (fetch (baseUrl this ++ "/api/store/" ++ storeSlug this ++ "/categories")%string).

Definition getPromotions {A : Type} (this : t) (fetch : string -> result (Response.t A)) :=
  read "Error fetching promotions:"
    (fetch (baseUrl this ++ "/api/store/" ++ storeSlug this ++ "/promotions")%string).

Definition getOrderStatus {A : Type} (this : t) (orderNumber : string)
    (fetch : string -> result (Response.t A)) :=
  read "Error fetching order status:"
    (fetch (baseUrl this ++ "/api/store/" ++ storeSlug this ++ "/order/" ++ orderNumber)%string).
End StoreAPIClient.

(** ** The custom API request helper (custom-api.js) *)
Module CustomAPIConfig.
Record t := mk { baseUrl : string; apiKey : option string; timeout : Z }.

Definition default : t := mk "https://your-api.example.com/api" None 10000.
End CustomAPIConfig.

(** The call to [fetch]: it settles at some instant, counted in
    milliseconds from the call, or it never does. *)
Inductive network (A : Type) : Type :=
  | Settles (at_ms : Z) (outcome : result (Response.t A))
  | Pending.
Arguments Settles {A} at_ms outcome.
Arguments Pending {A}.

Module Request.
Record t := mk {
  url : string;
  method : string;
  headers : list (string * string);
  body : option string }.
End Request.

Section CustomAPI.

(** The type of the body objects and their [JSON.stringify]. *)
Variable Body : Type.
Variable JSON_stringify : Body -> string.
(** The type of the values the caller expects. *)
Variable A : Type.

(** The options of a request; [None] is a key that is not there. *)
Record options := mkOptions {
  opt_method : option string;
  opt_headers : option (list (string * string));
  opt_body : option Body }.

(** The [config] handed to [fetch].  The options are spread last, so that a
    key of the options replaces the one computed before it. *)
Definition request_config (cfg : CustomAPIConfig.t) (endpoint : string) (o : options)
  : Request.t :=
  let defaultHeaders :=
    [("Content-Type", "application/json")]
    ++ when_truthy (CustomAPIConfig.apiKey cfg)
         (fun apiKey => [("Authorization", ("Bearer " ++ apiKey)%string)]) in
  Request.mk
    (CustomAPIConfig.baseUrl cfg ++ endpoint)%string
    (match opt_method o with
     | Some m => m
     | None => "GET"
     end)
    (match opt_headers o with
     | Some h => h
     | None => defaultHeaders
     end)
    (option_map JSON_stringify (opt_body o)).

(** [Promise.race([fetch(url, config), timeoutPromise])]: the timer rejects
    at [timeout]; when both settle at the same instant, [fetch_first] tells
    which of the two the event loop ran first. *)
Definition race (timeout : Z) (fetch_first : bool) (n : network A) : result (Response.t A) :=
  match n with
  | Settles at_ms outcome =>
      if (at_ms <? timeout) || ((at_ms =? timeout) && fetch_first) then outcome
      else Rejected "Request timeout"
  | Pending => Rejected "Request timeout"
  end.

Definition customAPIRequest (cfg : CustomAPIConfig.t) (endpoint : string) (o : options)
    (fetch : Request.t -> network A) (fetch_first : bool) : list event * result A :=
  let thrown (m : string) : list event * result A :=
    ([ConsoleError "Custom API request failed:"], Rejected m) in
  match race (CustomAPIConfig.timeout cfg) fetch_first (fetch (request_config cfg endpoint o)) with
  | Rejected m => thrown m
  | Resolved response =>
      if negb (Response.ok response) then
        (* response.json().catch(() => ({ message: response.statusText })) *)
        let errorData_message :=
          match Response.json response with
          | Resolved body => Json.message body
          | Rejected _ => Some (Response.statusText response)
          end in
        thrown (or_default errorData_message (http_error response))
      else
        match Response.json response with
        | Resolved body => ([], Resolved (Json.value body))
        | Rejected m => thrown m
        end
  end.

End CustomAPI.

(** * Vocabulary of the properties *)

(** ** ASCII text

    The text on which the string functions of the embedding are those of
    JavaScript: every character is below 128. *)
Definition is_ascii (c : ascii) : bool := (nat_of_ascii c <? 128)%nat.

Fixpoint ascii_text (s : string) : bool :=
  match s with
  | EmptyString => true
  | String c r => is_ascii c && ascii_text r
  end.

(** ** Words *)

(** A string without white space, and a string of white space only. *)
Fixpoint no_ws (s : string) : bool :=
  match s with
  | EmptyString => true
  | String c r => negb (is_ws c) && no_ws r
  end.

Fixpoint all_ws (s : string) : bool :=
  match s with
  | EmptyString => true
  | String c r => is_ws c && all_ws r
  end.

Definition word (w : string) : Prop := w <> "" /\ no_ws w = true.
Definition gap (g : string) : Prop := g <> "" /\ all_ws g = true.

(** [weave w0 [(g1, w1); (g2, w2); ...]] is the text [w0 g1 w1 g2 w2 ...]. *)
Fixpoint weave (w0 : string) (rest : list (string * string)) : string :=
  match rest with
  | [] => w0
  | (g, w) :: rest' => (w0 ++ g ++ weave w rest')%string
  end.

Definition words_and_gaps (rest : list (string * string)) : Prop :=
  Forall (fun gw => gap (fst gw) /\ word (snd gw)) rest.

(** The last character of the string is not white space. *)
Fixpoint ends_word (s : string) : bool :=
  match s with
  | EmptyString => false
  | String c r =>
      match r with
      | EmptyString => negb (is_ws c)
      | _ => ends_word r
      end
  end.

(** ** Markup *)

(** [sub] occurs in [m] as a run of consecutive pieces. *)
Definition contains (sub m : markup) : Prop :=
  exists pre post, m = pre ++ sub ++ post.

(** The badge with the initials, as the header template writes it. *)
Definition initials_badge (hidden : bool) (shown : string) : markup :=
  lit "<div class=`logo-initials` style=`"
  ++ lit (if hidden then "display: none;" else "")
  ++ lit "`>"
  ++ text shown
  ++ lit "</div>".

(** ** Parts of the page

    The heading of the header, the head of the navigation with the button
    All, the button of a category and the heading of a product card, as
    the templates write them; [active] tells whether the button carries
    the class active. *)
Definition store_heading (name : string) : markup :=
  lit "
      <h1>"
  ++ text (escapeHtml name)
  ++ lit "</h1>
      ".

Definition navigation_head (active : bool) : markup :=
  lit "
    <nav>
      <div class=`category-buttons`>
        <button class=`category-btn "
  ++ lit (if active then "active" else "")
  ++ lit "` data-category=`all`>
          All
        </button>
        ".

Definition category_button (cat : Category.t) (active : bool) : markup :=
  lit "
          <button class=`category-btn "
  ++ lit (if active then "active" else "")
  ++ lit "` data-category=`"
  ++ attr (escapeHtml (Category.name cat))
  ++ lit "`>
            "
  ++ text (escapeHtml (Category.name cat))
  ++ lit " ("
  ++ num (Z_to_string (count_or_zero (Category.product_count cat)))
  ++ lit ")
          </button>
        ".

Definition product_heading (product : Product.t) : markup :=
  lit "
      <div class=`product-info`>
        <h3 class=`product-name`>"
  ++ text (escapeHtml (Product.name product))
  ++ lit "</h3>
        ".

(** ** Escaped text *)

(** The head of a character reference that stands for one of the
    characters ampersand, angle brackets and quotes. *)
Definition starts_reference (r : string) : bool :=
  prefix "amp;" r || prefix "lt;" r || prefix "gt;" r
  || prefix "quot;" r || prefix "#39;" r.

(** No raw occurrence of a forbidden character: the forbidden characters
    do not occur, and an ampersand occurs only as the head of a reference. *)
Fixpoint no_raw_of (forbidden : ascii -> bool) (s : string) : bool :=
  match s with
  | EmptyString => true
  | String c r =>
      (if Ascii.eqb c "&" then starts_reference r else negb (forbidden c))
      && no_raw_of forbidden r
  end.

Definition angle (c : ascii) : bool := Ascii.eqb c "<" || Ascii.eqb c ">".

Definition angle_or_quote (c : ascii) : bool :=
  angle c || Ascii.eqb c dquote || Ascii.eqb c "'".

(** Every string interpolated into element content passes the test. *)
Definition text_positions (ok : string -> bool) (m : markup) : Prop :=
  forall s, In (Text s) m -> ok s = true.

(** ** Sample data *)

(** A stand-in for the platform's formatter: the currency code and the
    amount as a fraction. *)
Definition sample_formatPrice (price : Q) (currency : string) : string :=
  (currency ++ " " ++ Z_to_string (Qnum price) ++ "/" ++ Z_to_string (Zpos (Qden price)))%string.

(** A platform that prints 12.99 and 1e+21 as JavaScript does, for the
    numbers that are no safe integers. *)
Definition sample_Number_toString (x : Q) : string :=
  if Qeq_bool x (1299 # 100) then "12.99"
  else if Qeq_bool x (inject_Z (10 ^ 21)) then "1e+21"
  else (Z_to_string (Qnum x) ++ "/" ++ Z_to_string (Zpos (Qden x)))%string.

Definition sample_Date_now (_ : Product.t) : Z := 1700000000000.

Definition sample_store (name : string) : Store.t :=
  Store.mk (Some name) None None None None None None None.

(** A store whose name holds both quote characters. *)
Definition quoted_store : Store.t := sample_store (q "Joe's `Diner`").

Definition sample_product (id category : string) (stock_quantity : stock)
    (is_available : bool) : Product.t :=
  Product.mk id "Margherita" None (17 # 2) category None stock_quantity is_available None.

(** ** The card's button *)

(** The add-to-cart button as the card template writes it, with or without
    the [disabled] attribute, and what the template writes around it. *)
Definition add_to_cart_button (disabled : bool) (id : string) : string :=
  (q "<button 
          class=`add-to-cart-btn` 
          "
   ++ (if disabled then "disabled" else "")
   ++ q "
          onclick=`addToCart('"
   ++ id
   ++ q "')`
          data-product-id=`"
   ++ id
   ++ q "`
        >
          "
   ++ (if disabled then "Out of Stock" else "Add to Cart")
   ++ q "
        </button>")%string.

Definition before_button : string :=
  q "</div>
        ".

Definition after_button : string :=
  q "
      </div>
    </div>
  ".

(** ** Traces *)

Definition is_api_call (e : event) : bool :=
  match e with
  | ApiGetStore | ApiGetProducts | ApiGetCategories | ApiGetPromotions
  | ApiAddToCart _ _ | ApiCheckout _ => true
  | _ => false
  end.

(** The calls to the API client recorded in a trace, in order. *)
Definition api_calls (t : list event) : list event := filter is_api_call t.

(** The messages put before the user, in order. *)
Definition alerts (t : list event) : list string :=
  flat_map (fun e => match e with Alert m => [m] | _ => [] end) t.

Definition is_rejected {A : Type} (r : result A) : bool :=
  match r with
  | Rejected _ => true
  | Resolved _ => false
  end.

(** The retry control of the error view. *)
Definition retry_control : string :=
  q "<button onclick=`location.reload()` style=`margin-top: 1rem; padding: 0.5rem 1rem; background: var(--primary-color); color: white; border: none; border-radius: 8px; cursor: pointer;`>
        Retry
      </button>".

(** A session after a successful start: a client, a container, no data. *)
Definition started : session :=
  mkSession true None [] [] [] emptyCart "all"
    (Dom.mk None (Some []) None [] None false None None None None []) [].

Definition sample_cart : Cart.t :=
  Cart.mk [CartItem.mk "p1" "Margherita" 2 (17 # 2)] 17 (17 # 10) (187 # 10).

(** A session with a mounted page, one product card and a cart of one line. *)
Definition shopping : session :=
  mkSession true (Some (sample_store "Pizza Palace"))
    [sample_product "p1" "Pizza" StockNull true] [] [] sample_cart "all"
    (Dom.mk (Some "Pizza Palace") (Some []) (Some [])
       [card_button (sample_product "p1" "Pizza" StockNull true)]
       (Some []) true (Some "2") (Some "USD 187/10") (Some false) (Some false) [])
    [].

(** ** Query parameters and replies *)

(** The query has a parameter of that name. *)
Definition has_param (key : string) (params : list (string * string)) : bool :=
  existsb (fun kv => String.eqb (fst kv) key) params.

(** [xs] is [ys] with some of its elements left out. *)
Fixpoint subseq (xs ys : list string) {struct ys} : bool :=
  match xs, ys with
  | [], _ => true
  | _ :: _, [] => false
  | x :: xs', y :: ys' => if String.eqb x y then subseq xs' ys' else subseq xs ys'
  end.

(** A reply with a status outside 2xx whose body carries, as its message,
    the very words of the timeout error. *)
Definition timeout_lookalike : Response.t unit :=
  Response.mk 408 "Request Timeout" (Resolved (Json.mk tt (Some "Request timeout"))).

Definition no_options : options unit := mkOptions unit None None None.

Definition sample_stringify (_ : unit) : string := "{}".

(** * Further parts of the scripts *)

(** ** handleImageError (main.js)

    Of an image the handler reads and writes the source, the fallback flag
    of its data set, the error handler (there or not) and the display
    (hidden or not).  [throws] tells whether the assignment to the source
    throws: the handler then hides the image. *)
Module Image.
Record t := mk { src : string; fallbackSet : bool; onerror : bool; hidden : bool }.
End Image.

Definition handleImageError (img : Image.t) (placeholder : string) (throws : bool)
  : Image.t :=
  if Image.fallbackSet img then img
  else if throws then Image.mk (Image.src img) true false true
  else Image.mk placeholder true false (Image.hidden img).

(** The handler run once for each error event, in order. *)
Definition handleImageErrors (img : Image.t) (events : list (string * bool)) : Image.t :=
  fold_left (fun img event => handleImageError img (fst event) (snd event)) events img.

(** ** Vocabulary of the further properties *)

(** The text a browser reads back from escaped text: the three references
    that [escapeHtml] writes, decoded.  [skip] characters are passed over
    first. *)
Fixpoint unescape_from (skip : nat) (s : string) : string :=
  match s with
  | EmptyString => EmptyString
  | String c r =>
      match skip with
      | S k => unescape_from k r
      | O =>
          if Ascii.eqb c "&" then
            if prefix "amp;" r then String "&" (unescape_from 4 r)
            else if prefix "lt;" r then String "<" (unescape_from 3 r)
            else if prefix "gt;" r then String ">" (unescape_from 3 r)
            else String c (unescape_from 0 r)
          else String c (unescape_from 0 r)
      end
  end.

Definition unescapeHtml (s : string) : string := unescape_from 0 s.

(** One of the three characters that [escapeHtml] replaces. *)
Definition is_special (c : ascii) : bool := Ascii.eqb c "&" || angle c.

Fixpoint plain (s : string) : bool :=
  match s with
  | EmptyString => true
  | String c r => negb (is_special c) && plain r
  end.

Definition is_lower (c : ascii) : bool :=
  let n := nat_of_ascii c in ((97 <=? n)%nat && (n <=? 122)%nat)%bool.

Fixpoint no_lower (s : string) : bool :=
  match s with
  | EmptyString => true
  | String c r => negb (is_lower c) && no_lower r
  end.

(** The strings interpolated into element content, and those interpolated
    into attribute values, in the order of the markup. *)
Definition text_pieces (m : markup) : list string :=
  flat_map (fun p => match p with Text s => [s] | _ => [] end) m.

Definition attr_pieces (m : markup) : list string :=
  flat_map (fun p => match p with Attr s => [s] | _ => [] end) m.

(** The optional string when it is truthy, as a list of one or none. *)
Definition truthy_list (o : option string) : list string :=
  match o with
  | Some s => if nonempty s then [s] else []
  | None => []
  end.

(** The number of class attributes that the markup completes with the
    word active. *)
Definition is_active (p : piece) : bool :=
  match p with
  | Lit s => String.eqb s "active"
  | _ => false
  end.

Definition count_active (m : markup) : nat := List.length (filter is_active m).

Definition is_some {X : Type} (o : option X) : bool :=
  match o with
  | Some _ => true
  | None => false
  end.

(** A document without any of the theme's elements. *)
Definition emptyDomWithoutCart : Dom.t :=
  Dom.mk None None None [] None false None None None None [].

(** The controls of a line of the cart as the template writes them: the
    minus button, the quantity and the plus button. *)
Definition cart_line_controls (product_id : string) (quantity : Z) : markup :=
  lit "</div>
      </div>
      <div class=`cart-item-quantity`>
        <button class=`quantity-btn` onclick=`updateCartQuantity('"
  ++ attr product_id
  ++ lit "', "
  ++ attr (Z_to_string (quantity - 1))
  ++ lit ")`>-</button>
        <span>"
  ++ num (Z_to_string quantity)
  ++ lit "</span>
        <button class=`quantity-btn` onclick=`updateCartQuantity('"
  ++ attr product_id
  ++ lit "', "
  ++ attr (Z_to_string (quantity + 1))
  ++ lit ")`>+</button>
      </div>
    </div>
  ".

(** The choice of the delivery method in the checkout form, as the
    template writes it, with the options for delivery and for pickup. *)
Definition delivery_select (delivery pickup : bool) : string :=
  (q "<select id=`delivery_method` name=`delivery_method` required>
              "
   ++ (if delivery then q "<option value=`delivery`>Delivery</option>" else "")
   ++ q "
              "
   ++ (if pickup then q "<option value=`pickup`>Pickup</option>" else "")
   ++ q "
            </select>")%string.

Definition before_delivery_select : string :=
  q "
    <div class=`modal`>
      <div class=`modal-header`>
        <h2>Checkout</h2>
        <button class=`close-cart` onclick=`this.closest('.modal-overlay').remove()`>×</button>
      </div>
      <div class=`modal-body`>
        <form id=`checkout-form` onsubmit=`submitCheckout(event)`>
          <div class=`form-group`>
            <label for=`customer_name`>Name *</label>
            <input type=`text` id=`customer_name` name=`customer_name` required>
          </div>
          <div class=`form-group`>
            <label for=`customer_email`>Email *</label>
            <input type=`email` id=`customer_email` name=`customer_email` required>
          </div>
          <div class=`form-group`>
            <label for=`customer_phone`>Phone *</label>
            <input type=`tel` id=`customer_phone` name=`customer_phone` required>
          </div>
          <div class=`form-group`>
            <label for=`delivery_method`>Delivery Method *</label>
            ".

Definition after_delivery_select : string :=
  q "
          </div>
          <div class=`form-group`>
            <label for=`delivery_address`>Delivery Address</label>
            <input type=`text` id=`delivery_address` name=`delivery_address`>
          </div>
          <div class=`form-group`>
            <label for=`payment_method`>Payment Method *</label>
            <select id=`payment_method` name=`payment_method` required>
              <option value=`cash`>Cash</option>
              <option value=`card`>Card</option>
              <option value=`online`>Online</option>
            </select>
          </div>
          <div class=`form-group`>
            <label for=`special_instructions`>Special Instructions</label>
            <textarea id=`special_instructions` name=`special_instructions` rows=`3`></textarea>
          </div>
          <div class=`form-group`>
            <label for=`promotion_code`>Promotion Code (Optional)</label>
            <input type=`text` id=`promotion_code` name=`promotion_code`>
          </div>
          <button type=`submit` class=`checkout-btn`>Place Order</button>
        </form>
      </div>
    </div>
  ".

(** [storeData?.configuration?.delivery_enabled] and the like. *)
Definition store_enables (flag : Configuration.t -> bool) (storeData : option Store.t) : bool :=
  match storeData with
  | Some sd =>
      match Store.configuration sd with
      | Some c => flag c
      | None => false
      end
  | None => false
  end.

Definition sample_form : FormData.t :=
  FormData.mk (Some "Ana") (Some "ana@example.com") (Some "555") None (Some "pickup")
    (Some "cash") None None.

(** The four requests of the first load, in the order of their issue. *)
Definition first_load_requests : list event :=
  [ApiGetStore; ApiGetProducts; ApiGetCategories; ApiGetPromotions].

(** [store.name] when it is truthy, the former title otherwise. *)
Definition title_after (store : Store.t) (former : option string) : option string :=
  match Store.name store with
  | Some n => if nonempty n then Some n else former
  | None => former
  end.

(** ** The writing operations of the store API client (api-client.js)

    Of the parsed body of a reply the error path reads the [error]
    property: [None] stands for a body that is [null], where the read
    throws a [TypeError]; an absent property reads as [JUndefined]. *)
Module ErrorView.
Record t (A : Type) := mk { value : A; error : option jsval }.
Arguments mk {A} value error.
Arguments value {A} _.
Arguments error {A} _.
End ErrorView.

Module StoreAPIClientPost.
Section Post.

(** The type of the variants of a product, the empty object,
    [JSON.stringify] on the two bodies that are sent, and the message of
    the [TypeError] for a property read on [null]. *)
Variable Variants : Type.
Variable no_variants : Variants.
Variable JSON_stringify_cart : string -> Z -> Variants -> string.
Variable JSON_stringify_order : OrderData.t -> string.
Variable TypeError_message : string.
(** The platform's conversion of a number to a string. *)
Variable Number_toString : Q -> string.
Variable A : Type.

Definition post (url body : string) : Request.t :=
  Request.mk url "POST" [("Content-Type", "application/json")] (Some body).

(** [error.error || `HTTP ${response.status}: ${response.statusText}`] as
    the message of [new Error(...)]. *)
Definition error_message (error : jsval) (status_line : string) : string :=
  if truthy_val error then to_string Number_toString error else status_line.

(** The part the two operations share: for a status outside 2xx the body
    is parsed and its [error], or else the status line, is thrown; an error
    is logged and thrown again. *)
Definition write (label : string) (reply : result (Response.t (ErrorView.t A)))
  : list event * result A :=
  let thrown (m : string) : list event * result A := ([ConsoleError label], Rejected m) in
  match reply with
  | Rejected m => thrown m
  | Resolved response =>
      if negb (Response.ok response) then
        match Response.json response with
        | Resolved body =>
            match ErrorView.error (Json.value body) with
            | Some error => thrown (error_message error (http_error response))
            | None => thrown TypeError_message
            end
        | Rejected m => thrown m
        end
      else
        match Response.json response with
        | Resolved body => ([], Resolved (ErrorView.value (Json.value body)))
        | Rejected m => thrown m
        end
  end.

(** [quantity = 1] and [variants = {}] stand in for arguments left out. *)
Definition addToCart (this : StoreAPIClient.t) (productId : string) (quantity : option Z)
    (variants : option Variants)
    (fetch : Request.t -> result (Response.t (ErrorView.t A))) :=
  write "Error adding to cart:"
    (fetch (post (StoreAPIClient.baseUrl this ++ "/api/store/"
                  ++ StoreAPIClient.storeSlug this ++ "/cart")%string
              (JSON_stringify_cart productId
                 (match quantity with Some n => n | None => 1 end)
                 (match variants with Some v => v | None => no_variants end)))).

Definition checkout (this : StoreAPIClient.t) (orderData : OrderData.t)
    (fetch : Request.t -> result (Response.t (ErrorView.t A))) :=
  write "Error during checkout:"
    (fetch (post (StoreAPIClient.baseUrl this ++ "/api/store/"
                  ++ StoreAPIClient.storeSlug this ++ "/checkout")%string
              (JSON_stringify_order orderData))).

End Post.
End StoreAPIClientPost.

(** ** Reading a query back

    The inverse of the serialisation of [URLSearchParams]: a plus sign is a
    space, a percent sign with two hexadecimal digits is the byte they
    write. *)
Definition hex_value (c : ascii) : option nat :=
  let n := nat_of_ascii c in
  if ((48 <=? n) && (n <=? 57))%nat then Some (n - 48)%nat
  else if ((65 <=? n) && (n <=? 70))%nat then Some (n - 55)%nat
  else if ((97 <=? n) && (n <=? 102))%nat then Some (n - 87)%nat
  else None.

Fixpoint urldecode_from (skip : nat) (s : string) : string :=
  match s with
  | EmptyString => EmptyString
  | String c r =>
      match skip with
      | S k => urldecode_from k r
      | O =>
          if Ascii.eqb c "+" then String " " (urldecode_from 0 r)
          else if Ascii.eqb c "%" then
            match r with
            | String h (String l _) =>
                match hex_value h, hex_value l with
                | Some a, Some b => String (ascii_of_nat (16 * a + b)) (urldecode_from 2 r)
                | _, _ => String c (urldecode_from 0 r)
                end
            | _ => String c (urldecode_from 0 r)
            end
          else String c (urldecode_from 0 r)
      end
  end.

Definition urldecode (s : string) : string := urldecode_from 0 s.

(** [s.split(sep)] for a separator of one character; [cur] is the piece
    being read. *)
Fixpoint split_from (sep : ascii) (cur : string) (s : string) : list string :=
  match s with
  | EmptyString => [cur]
  | String c r =>
      if Ascii.eqb c sep then cur :: split_from sep EmptyString r
      else split_from sep (cur ++ str1 c) r
  end.

(** The name and the value of one [name=value]: the text before the first
    equals sign and the text after it. *)
Fixpoint cut_at (sep : ascii) (cur : string) (s : string) : string * string :=
  match s with
  | EmptyString => (cur, EmptyString)
  | String c r =>
      if Ascii.eqb c sep then (cur, r) else cut_at sep (cur ++ str1 c) r
  end.

Definition parse_query (query : string) : list (string * string) :=
  match query with
  | EmptyString => []
  | _ =>
      map (fun pair =>
             let kv := cut_at "=" EmptyString pair in
             (urldecode (fst kv), urldecode (snd kv)))
          (split_from "&" EmptyString query)
  end.

(** None of the characters that separate the parts of an address or of a
    query. *)
Definition is_separator (c : ascii) : bool :=
  Ascii.eqb c "&" || Ascii.eqb c "=" || Ascii.eqb c "?" || Ascii.eqb c "#"
  || Ascii.eqb c "/" || Ascii.eqb c " ".

Fixpoint no_char (bad : ascii -> bool) (s : string) : bool :=
  match s with
  | EmptyString => true
  | String c r => negb (bad c) && no_char bad r
  end.

(** ** The helpers built on the custom API request (custom-api.js)

    [encodeURIComponent] on a string of bytes: letters, digits and the
    nine marks [- _ . ! ~ * ' ( )] stay, any other byte is written in
    hexadecimal. *)
Definition encodeURIComponent_char (c : ascii) : string :=
  let n := nat_of_ascii c in
  if ((48 <=? n) && (n <=? 57) || (65 <=? n) && (n <=? 90) || (97 <=? n) && (n <=? 122)
      || (n =? 45) || (n =? 95) || (n =? 46) || (n =? 33) || (n =? 126) || (n =? 42)
      || (n =? 39) || (n =? 40) || (n =? 41))%nat
  then str1 c
  else String "%" (String (hex_digit (n / 16)) (str1 (hex_digit (n mod 16)))).

Fixpoint encodeURIComponent (s : string) : string :=
  match s with
  | EmptyString => EmptyString
  | String c r => (encodeURIComponent_char c ++ encodeURIComponent r)%string
  end.

(** The [reviewData] handed to [submitReview] and the body it sends; [V] is
    the type of the values of the fields, which are passed on unread. *)
Module ReviewData.
Record t (V : Type) := mk {
  rating : V;
  comment : V;
  customerName : V;
  customerEmail : V }.
Arguments mk {V} rating comment customerName customerEmail.
Arguments rating {V} _.
Arguments comment {V} _.
Arguments customerName {V} _.
Arguments customerEmail {V} _.
End ReviewData.

Module ReviewBody.
Record t (V : Type) := mk {
  product_id : string;
  rating : V;
  comment : V;
  customer_name : V;
  customer_email : V }.
Arguments mk {V} product_id rating comment customer_name customer_email.
Arguments product_id {V} _.
Arguments rating {V} _.
Arguments comment {V} _.
Arguments customer_name {V} _.
Arguments customer_email {V} _.
End ReviewBody.

(** [{ points: 0, tier: 'bronze' }] and the replies of that shape. *)
Module Loyalty.
Record t := mk { points : Z; tier : string }.

Definition default : t := mk 0 "bronze".
End Loyalty.

Section CustomHelpers.

Variable V : Type.
Variable JSON_stringify : ReviewBody.t V -> string.
(** The type of a review and of the result of a submission. *)
Variable Review : Type.
Variable Submitted : Type.

(** [customAPIRequest(endpoint)]: the options are [{}]. *)
Definition get_options : options (ReviewBody.t V) := mkOptions (ReviewBody.t V) None None None.

Definition submitReview (cfg : CustomAPIConfig.t) (productId : string)
    (reviewData : ReviewData.t V)
    (fetch : Request.t -> network Submitted) (fetch_first : bool)
  : list event * result Submitted :=
  match
    customAPIRequest (ReviewBody.t V) JSON_stringify Submitted cfg "/reviews"
      (mkOptions (ReviewBody.t V) (Some "POST") None
         (Some (ReviewBody.mk productId
                  (ReviewData.rating reviewData)
                  (ReviewData.comment reviewData)
                  (ReviewData.customerName reviewData)
                  (ReviewData.customerEmail reviewData))))
      fetch fetch_first
  with
  | (logged, Resolved result) => (logged, Resolved result)
  | (logged, Rejected m) =>
      (logged ++ [ConsoleError "Failed to submit review:"], Rejected m)
  end.

(** The two helpers that read never reject: the value after the events. *)
Definition getProductReviews (cfg : CustomAPIConfig.t) (productId : string)
    (fetch : Request.t -> network (list Review)) (fetch_first : bool)
  : list event * list Review :=
  match
    customAPIRequest (ReviewBody.t V) JSON_stringify (list Review) cfg
      ("/reviews/product/" ++ productId)%string get_options fetch fetch_first
  with
  | (logged, Resolved reviews) => (logged, reviews)
  | (logged, Rejected _) => (logged ++ [ConsoleError "Failed to fetch reviews:"], [])
  end.

Definition getLoyaltyPoints (cfg : CustomAPIConfig.t) (customerEmail : string)
    (fetch : Request.t -> network Loyalty.t) (fetch_first : bool)
  : list event * Loyalty.t :=
  match
    customAPIRequest (ReviewBody.t V) JSON_stringify Loyalty.t cfg
      ("/loyalty/" ++ encodeURIComponent customerEmail)%string get_options fetch fetch_first
  with
  | (logged, Resolved loyaltyData) => (logged, loyaltyData)
  | (logged, Rejected _) =>
      (logged ++ [ConsoleError "Failed to fetch loyalty points:"], Loyalty.default)
  end.

End CustomHelpers.

(** The instant at which the reply of [fetch] wins the race against the
    timer. *)
Definition in_time (cfg : CustomAPIConfig.t) (fetch_first : bool) (at_ms : Z) : bool :=
  (at_ms <? CustomAPIConfig.timeout cfg)
  || ((at_ms =? CustomAPIConfig.timeout cfg) && fetch_first).

(** The headers of a request whose options name none. *)
Definition default_headers (cfg : CustomAPIConfig.t) : list (string * string) :=
  [("Content-Type", "application/json")]
  ++ when_truthy (CustomAPIConfig.apiKey cfg)
       (fun apiKey => [("Authorization", ("Bearer " ++ apiKey)%string)]).

(** ** The validation script (scripts/validate.js)

    The script runs from top to bottom over two arrays, [errors] and
    [warnings], and the console; a statement completes or throws. *)
Module Validate.

Inductive completion (A : Type) : Type :=
  | Normal (value : A)
  | Throw (message : string).
Arguments Normal {A} value.
Arguments Throw {A} message.

Record state := mkState {
  errors : list string;
  warnings : list string;
  console : list string }.

Definition M (A : Type) : Type := state -> state * completion A.

Definition ret {A : Type} (a : A) : M A := fun s => (s, Normal a).

Definition bind {A B : Type} (m : M A) (f : A -> M B) : M B :=
  fun s =>
    match m s with
    | (s', Normal a) => f a s'
    | (s', Throw message) => (s', Throw message)
    end.

Definition throw {A : Type} (message : string) : M A := fun s => (s, Throw message).

(** [try { m } catch (error) { handler(error.message) }] *)
Definition try_catch (m : M unit) (handler : string -> M unit) : M unit :=
  fun s =>
    match m s with
    | (s', Normal a) => (s', Normal a)
    | (s', Throw message) => handler message s'
    end.

Definition errors_push (e : string) : M unit :=
  fun s => (mkState (errors s ++ [e]) (warnings s) (console s), Normal tt).

Definition warnings_push (w : string) : M unit :=
  fun s => (mkState (errors s) (warnings s ++ [w]) (console s), Normal tt).

Definition console_log (line : string) : M unit :=
  fun s => (mkState (errors s) (warnings s) (console s ++ [line]), Normal tt).

Definition get_errors : M (list string) := fun s => (s, Normal (errors s)).

Definition get_warnings : M (list string) := fun s => (s, Normal (warnings s)).

Notation "x <- m ;; k" := (bind m (fun x => k))
  (at level 61, m at next level, right associativity).
Notation "m ;; k" := (bind m (fun _ => k)) (at level 61, right associativity).

Fixpoint forEach {A : Type} (l : list A) (f : A -> M unit) : M unit :=
  match l with
  | [] => ret tt
  | x :: r => f x ;; forEach r f
  end.

(** [s.includes(sub)] *)
Fixpoint includes (s sub : string) : bool :=
  String.prefix sub s
  || match s with
     | EmptyString => false
     | String _ r => includes r sub
     end.

(** [s.repeat(n)] *)
Fixpoint repeat_string (s : string) (n : nat) : string :=
  match n with
  | O => EmptyString
  | S n => (s ++ repeat_string s n)%string
  end.

(** [/^\d+\.\d+\.\d+/.test(s)]: one or more digits, a dot, one or more
    digits, a dot and one digit at least, at the start of [s]. *)
Definition is_digit (c : ascii) : bool :=
  ((48 <=? nat_of_ascii c) && (nat_of_ascii c <=? 57))%nat.

Fixpoint skip_digits (s : string) : string :=
  match s with
  | String c r => if is_digit c then skip_digits r else s
  | EmptyString => EmptyString
  end.

(** The text after a run of one or more digits at the start of [s]. *)
Definition digits (s : string) : option string :=
  match s with
  | String c r => if is_digit c then Some (skip_digits r) else None
  | EmptyString => None
  end.

Definition dot (s : string) : option string :=
  match s with
  | String c r => if Ascii.eqb c "." then Some r else None
  | EmptyString => None
  end.

Definition semver_test (s : string) : bool :=
  match digits s with
  | Some s =>
      match dot s with
      | Some s =>
          match digits s with
          | Some s =>
              match dot s with
              | Some s => is_some (digits s)
              | None => false
              end
          | None => false
          end
      | None => false
      end
  | None => false
  end.

(** A value of the manifest as the script reads it: whether it is truthy,
    the text [String(value)] that the test of the version and the console
    see, and its length when it is an array. *)
Module Field.
Record t := mk { truthy : bool; text : string; array_length : option nat }.

Definition undefined : t := mk false "undefined" None.
End Field.

Definition REQUIRED_FILES : list string :=
  [ "theme-template/index.html";
    "theme-template/manifest.json";
    "theme-template/scripts/main.js";
    "theme-template/styles/main.css" ].

Definition requiredFields : list string :=
  ["name"; "version"; "description"; "category"; "apiVersion"; "requiredApis"; "features"].

(** [path.join(__dirname, '..', 'theme-template', 'manifest.json')] and
    [path.join(__dirname, '..', file)] name the same file; a path is written
    from the directory above the script. *)
Definition manifestPath : string := "theme-template/manifest.json".
Definition mainJsPath : string := "theme-template/scripts/main.js".
Definition indexHtmlPath : string := "theme-template/index.html".

Section Script.

(** The file system: nothing at a path, or something that [readFileSync]
    reads or fails to read (a directory, a file without permission). *)
Variable fs : string -> option (completion string).

(** [JSON.parse]: a syntax error, [null], or a value whose properties can
    be read (an absent one reads as [Field.undefined]). *)
Variable JSON_parse : string -> completion (option (string -> Field.t)).

(** The message of the [TypeError] for a property read on [null]. *)
Variable TypeError_message : string -> string.

Definition existsSync (path : string) : bool := is_some (fs path).

Definition readFileSync (path : string) : M string :=
  match fs path with
  | Some (Normal content) => ret content
  | Some (Throw message) => throw message
  | None => throw ("ENOENT: no such file or directory, open '" ++ path ++ "'")
  end.

Definition check_required_files : M unit :=
  console_log "Checking required files..." ;;
  forEach REQUIRED_FILES (fun file =>
    if negb (existsSync file) then
      errors_push ("Missing required file: " ++ file) ;;
      console_log ("  ❌ " ++ file)
    else
      console_log ("  ✅ " ++ file)).

Definition check_manifest : M unit :=
  console_log "
Validating manifest.json..." ;;
  if existsSync manifestPath then
    try_catch
      (content <- readFileSync manifestPath ;;
       match JSON_parse content with
       | Throw message => throw message
       | Normal None => throw (TypeError_message "name")
       | Normal (Some manifest) =>
           forEach requiredFields (fun field =>
             if negb (Field.truthy (manifest field)) then
               errors_push ("manifest.json missing required field: " ++ field) ;;
               console_log ("  ❌ Missing field: " ++ field)
             else
               console_log ("  ✅ Field present: " ++ field)) ;;
           (if Field.truthy (manifest "version")
               && negb (semver_test (Field.text (manifest "version")))
            then
              warnings_push "Version should follow semantic versioning (e.g., 1.0.0)" ;;
              console_log ("  ⚠️  Version format: " ++ Field.text (manifest "version"))
            else
              console_log ("  ✅ Version format: " ++ Field.text (manifest "version"))) ;;
           match Field.array_length (manifest "requiredApis") with
           | Some n =>
               if Field.truthy (manifest "requiredApis") then
                 console_log ("  ✅ Required APIs: " ++ Z_to_string (Z.of_nat n) ++ " listed")
               else ret tt
           | None => ret tt
           end
       end)
      (fun message =>
         errors_push ("manifest.json is invalid JSON: " ++ message) ;;
         console_log ("  ❌ Invalid JSON: " ++ message))
  else
    errors_push "manifest.json not found".

Definition check_main_js : M unit :=
  console_log "
Validating main.js..." ;;
  if existsSync mainJsPath then
    mainJs <- readFileSync mainJsPath ;;
    if includes mainJs "function initTheme" then
      console_log "  ✅ initTheme function found"
    else
      errors_push "main.js must export an initTheme function" ;;
      console_log "  ❌ initTheme function not found"
  else
    errors_push "main.js not found".

Definition check_index_html : M unit :=
  console_log "
Validating index.html..." ;;
  if existsSync indexHtmlPath then
    html <- readFileSync indexHtmlPath ;;
    (if includes html "theme-container" then
       console_log "  ✅ theme-container element found"
     else
       warnings_push (q "index.html should contain an element with id=`theme-container`") ;;
       console_log "  ⚠️  theme-container element not found") ;;
    (if includes html "main.js" then
       console_log "  ✅ main.js script reference found"
     else
       warnings_push "index.html should reference scripts/main.js" ;;
       console_log "  ⚠️  main.js script reference not found")
  else ret tt.

(** The summary; its value is the argument of [process.exit]. *)
Definition summary : M Z :=
  console_log ("
" ++ repeat_string "=" 50) ;;
  errors <- get_errors ;;
  warnings <- get_warnings ;;
  if (length errors =? 0)%nat && (length warnings =? 0)%nat then
    console_log "✅ Validation passed! Theme is ready for submission." ;;
    ret 0
  else
    (if (0 <? length errors)%nat then
       console_log ("
❌ Found " ++ Z_to_string (Z.of_nat (length errors)) ++ " error(s):") ;;
       forEach errors (fun error => console_log ("   - " ++ error))
     else ret tt) ;;
    (if (0 <? length warnings)%nat then
       console_log ("
⚠️  Found " ++ Z_to_string (Z.of_nat (length warnings)) ++ " warning(s):") ;;
       forEach warnings (fun warning => console_log ("   - " ++ warning))
     else ret tt) ;;
    console_log "
Please fix the errors before submitting your theme." ;;
    ret (if (0 <? length errors)%nat then 1 else 0).

Definition script : M Z :=
  console_log "🔍 Validating theme structure...
" ;;
  check_required_files ;;
  check_manifest ;;
  check_main_js ;;
  check_index_html ;;
  summary.

(** The run from empty arrays and an empty console. *)
Definition validate : state * completion Z := script (mkState [] [] []).

(** The exit code of the process: the argument of [process.exit], or 1 for
    an error that nothing catches. *)
Definition exit_code : Z :=
  match snd validate with
  | Normal code => code
  | Throw _ => 1
  end.

(** What makes a theme pass: the four files are there, the manifest is
    JSON with the seven fields, and main.js has the entry point. *)
Definition manifest_ok : bool :=
  match fs manifestPath with
  | Some (Normal content) =>
      match JSON_parse content with
      | Normal (Some manifest) =>
          forallb (fun field => Field.truthy (manifest field)) requiredFields
      | _ => false
      end
  | _ => false
  end.

Definition main_js_ok : bool :=
  match fs mainJsPath with
  | Some (Normal mainJs) => includes mainJs "function initTheme"
  | _ => false
  end.

Definition readable (path : string) : bool :=
  match fs path with
  | Some (Normal _) => true
  | _ => false
  end.

Definition theme_ok : bool :=
  forallb existsSync REQUIRED_FILES && manifest_ok && main_js_ok && readable indexHtmlPath.

(** The three tests that only warn. *)
Definition version_ok : bool :=
  match fs manifestPath with
  | Some (Normal content) =>
      match JSON_parse content with
      | Normal (Some manifest) =>
          negb (Field.truthy (manifest "version"))
          || semver_test (Field.text (manifest "version"))
      | _ => true
      end
  | _ => true
  end.

Definition index_html_ok : bool :=
  match fs indexHtmlPath with
  | Some (Normal html) => includes html "theme-container" && includes html "main.js"
  | _ => true
  end.

Definition no_warning : bool := version_ok && index_html_ok.

End Script.

(** The two lines on which the summary can end. *)
Definition passed_line : string := "✅ Validation passed! Theme is ready for submission.".

Definition fix_line : string := "
Please fix the errors before submitting your theme.".

(** A theme that has all it needs, and the same theme with a version that
    only has two numbers. *)
Definition sample_fs (path : string) : option (completion string) :=
  if String.eqb path indexHtmlPath then Some (Normal "theme-container scripts/main.js")
  else if String.eqb path manifestPath then Some (Normal "manifest")
  else if String.eqb path mainJsPath then Some (Normal "function initTheme() {}")
  else if String.eqb path "theme-template/styles/main.css" then Some (Normal "")
  else None.

Definition sample_parse (version : string) (content : string)
  : completion (option (string -> Field.t)) :=
  if String.eqb content "manifest" then
    Normal (Some (fun field =>
      if String.eqb field "version" then Field.mk true version None
      else if String.eqb field "requiredApis" then Field.mk true "store,products" (Some 2%nat)
      else if existsb (String.eqb field) requiredFields then Field.mk true "text" None
      else Field.undefined))
  else Throw "Unexpected token".

Definition sample_TypeError (field : string) : string :=
  ("Cannot read properties of null (reading '" ++ field ++ "')")%string.

(** A statement that, from any state, appends [E] to the errors, [W] to the
    warnings and some lines to the console, and completes as [c]. *)
Definition adds {A : Type} (m : M A) (E W : list string) (c : completion A) : Prop :=
  forall s, exists lines,
    m s = (mkState (errors s ++ E) (warnings s ++ W) (console s ++ lines), c).

(** One or more digits and nothing else. *)
Fixpoint only_digits (s : string) : bool :=
  match s with
  | EmptyString => true
  | String c r => is_digit c && only_digits r
  end.

Definition all_digits (s : string) : Prop :=
  s <> EmptyString /\ only_digits s = true.

End Validate.

(** * Properties *)

(** ** Strings *)

Lemma append_nil_r (s : string) : (s ++ "")%string = s.
Proof. induction s as [|c r IH]; simpl; [reflexivity | now rewrite IH]. Qed.

Lemma append_assoc (a b c : string) : ((a ++ b) ++ c)%string = (a ++ (b ++ c))%string.
Proof. induction a as [|x r IH]; simpl; [reflexivity | now rewrite IH]. Qed.

Lemma nonempty_true (s : string) : nonempty s = true <-> s <> "".
Proof.
  unfold nonempty. destruct s; simpl; split; intro H; congruence.
Qed.

Lemma nonempty_false (s : string) : nonempty s = false <-> s = "".
Proof.
  unfold nonempty. destruct s; simpl; split; intro H; congruence.
Qed.

(** ** Splitting into words *)

Lemma split_no_ws (w : string) :
  no_ws w = true ->
  forall cur b tail,
    (tail = "" \/ exists c r, tail = String c r /\ is_ws c = true) ->
    split_ws_from cur b (w ++ tail) =
    match w with
    | EmptyString => split_ws_from cur b tail
    | _ => split_ws_from (cur ++ w) false tail
    end.
Proof.
  induction w as [|c r IH]; intros Hw cur b tail Ht; [reflexivity|].
  simpl in Hw. apply andb_true_iff in Hw as [Hc Hr].
  apply negb_true_iff in Hc. simpl. rewrite Hc.
  rewrite (IH Hr (cur ++ str1 c)%string false tail Ht).
  destruct r; simpl.
  - reflexivity.
  - now rewrite !append_assoc.
Qed.

Lemma split_gap (g : string) :
  all_ws g = true ->
  forall cur s, split_ws_from cur true (g ++ s) = split_ws_from cur true s.
Proof.
  induction g as [|c r IH]; intros Hg cur s; [reflexivity|].
  simpl in Hg. apply andb_true_iff in Hg as [Hc Hr].
  simpl. rewrite Hc. now apply IH.
Qed.

Lemma split_weave (rest : list (string * string)) :
  forall w0 cur b,
    word w0 ->
    words_and_gaps rest ->
    split_ws_from cur b (weave w0 rest) = (cur ++ w0)%string :: map snd rest.
Proof.
  induction rest as [|[g w] rest IH]; intros w0 cur b [Hne Hw] Hrest; simpl.
  - rewrite <- (append_nil_r w0) at 1.
    rewrite (split_no_ws w0 Hw cur b "" (or_introl eq_refl)).
    destruct w0; [congruence | reflexivity].
  - inversion Hrest as [|? ? [[Hgne Hg] Hw1] Hrest']; subst; simpl in *.
    assert (Ht : exists c r, (g ++ weave w rest)%string = String c r /\ is_ws c = true).
    { destruct g as [|c r]; [congruence|]. simpl in Hg.
      apply andb_true_iff in Hg as [Hc _]. now exists c, (r ++ weave w rest)%string. }
    rewrite (split_no_ws w0 Hw cur b _ (or_intror Ht)).
    destruct w0 as [|c0 r0]; [congruence|].
    destruct g as [|c r]; [congruence|].
    simpl in Hg. apply andb_true_iff in Hg as [Hc Hr].
    simpl. rewrite Hc. f_equal.
    rewrite (split_gap r Hr). rewrite (IH w "" true Hw1 Hrest'). reflexivity.
Qed.

(** ** Trimming *)

Lemma trimStart_pad (pad s : string) :
  all_ws pad = true -> trimStart (pad ++ s) = trimStart s.
Proof.
  induction pad as [|c r IH]; intro H; [reflexivity|].
  simpl in H. apply andb_true_iff in H as [Hc Hr]. simpl. rewrite Hc. auto.
Qed.

Lemma trimStart_word (w s : string) : word w -> trimStart (w ++ s) = (w ++ s)%string.
Proof.
  intros [Hne Hw]. destruct w as [|c r]; [congruence|].
  simpl in Hw. apply andb_true_iff in Hw as [Hc _]. apply negb_true_iff in Hc.
  simpl. now rewrite Hc.
Qed.

Lemma trimEnd_all_ws (pad : string) : all_ws pad = true -> trimEnd pad = "".
Proof.
  induction pad as [|c r IH]; intro H; [reflexivity|].
  simpl in H. apply andb_true_iff in H as [Hc Hr].
  simpl. rewrite (IH Hr), Hc. reflexivity.
Qed.

Lemma trimEnd_pad (s pad : string) :
  all_ws pad = true -> trimEnd (s ++ pad) = trimEnd s.
Proof.
  intro H. induction s as [|c r IH]; simpl.
  - now apply trimEnd_all_ws.
  - now rewrite IH.
Qed.

Lemma trimEnd_ends_word (s : string) : ends_word s = true -> trimEnd s = s.
Proof.
  induction s as [|c r IH]; intro H; [reflexivity|].
  simpl in H. destruct r as [|c' r'].
  - apply negb_true_iff in H. simpl. now rewrite H.
  - change (trimEnd (String c (String c' r')))
      with (let r0 := trimEnd (String c' r') in
            if is_ws c && negb (nonempty r0) then "" else String c r0).
    rewrite (IH H). simpl. now rewrite andb_false_r.
Qed.

Lemma ends_word_append (a b : string) : b <> "" -> ends_word (a ++ b) = ends_word b.
Proof.
  intro Hb. induction a as [|c r IH]; [reflexivity|].
  simpl. destruct (r ++ b)%string eqn:E.
  - destruct r; simpl in E; [congruence | discriminate].
  - exact IH.
Qed.

Lemma ends_word_word (w : string) : word w -> ends_word w = true.
Proof.
  intros [Hne Hw]. induction w as [|c r IH]; [congruence|].
  simpl in Hw. apply andb_true_iff in Hw as [Hc Hr]. simpl.
  destruct r; [exact Hc|]. apply IH; [discriminate | exact Hr].
Qed.

Lemma weave_nonempty (w0 : string) (rest : list (string * string)) :
  w0 <> "" -> weave w0 rest <> "".
Proof.
  intro H. destruct rest as [|[g w] rest]; simpl; [exact H|].
  destruct w0; [congruence | discriminate].
Qed.

Lemma ends_word_weave (rest : list (string * string)) :
  forall w0, word w0 -> words_and_gaps rest -> ends_word (weave w0 rest) = true.
Proof.
  induction rest as [|[g w] rest IH]; intros w0 Hw0 Hrest; simpl.
  - now apply ends_word_word.
  - inversion Hrest as [|? ? [_ Hw] Hrest']; subst; simpl in *.
    rewrite ends_word_append.
    + rewrite ends_word_append; [now apply IH|].
      apply weave_nonempty, Hw.
    + intro E. destruct g; simpl in E; [|discriminate].
      now apply (weave_nonempty w rest (proj1 Hw)).
Qed.

Lemma trim_weave (lpad rpad w0 : string) (rest : list (string * string)) :
  all_ws lpad = true -> all_ws rpad = true -> word w0 -> words_and_gaps rest ->
  trim (lpad ++ weave w0 rest ++ rpad) = weave w0 rest.
Proof.
  intros Hl Hr Hw0 Hrest. unfold trim.
  rewrite (trimStart_pad lpad _ Hl).
  assert (E : exists t, weave w0 rest = (w0 ++ t)%string).
  { destruct rest as [|[g w] rest]; simpl.
    - exists "". now rewrite append_nil_r.
    - now eexists. }
  destruct E as [t E]. rewrite E at 1. rewrite append_assoc.
  rewrite (trimStart_word w0 _ Hw0). rewrite <- append_assoc, <- E.
  rewrite (trimEnd_pad _ rpad Hr).
  now apply trimEnd_ends_word, ends_word_weave.
Qed.

Lemma words_weave (lpad rpad w0 : string) (rest : list (string * string)) :
  all_ws lpad = true -> all_ws rpad = true -> word w0 -> words_and_gaps rest ->
  split_ws (trim (lpad ++ weave w0 rest ++ rpad)) = w0 :: map snd rest.
Proof.
  intros Hl Hr Hw0 Hrest. rewrite (trim_weave lpad rpad w0 rest Hl Hr Hw0 Hrest).
  unfold split_ws. now rewrite (split_weave rest w0 "" false Hw0 Hrest).
Qed.

(** ** Markup containment *)

Lemma contains_here (sub post : markup) : contains sub (sub ++ post).
Proof. now exists [], post. Qed.

Lemma contains_skip (sub pre m : markup) : contains sub m -> contains sub (pre ++ m).
Proof.
  intros [a [b E]]. exists (pre ++ a), b. now rewrite E, app_assoc.
Qed.

Lemma contains_front (sub m post : markup) : contains sub m -> contains sub (m ++ post).
Proof.
  intros [a [b E]]. exists a, (b ++ post). now rewrite E, <- !app_assoc.
Qed.

Lemma contains_self (m : markup) : contains m m.
Proof. exists [], []. now rewrite app_nil_r. Qed.

Lemma contains_trans (a b c : markup) : contains a b -> contains b c -> contains a c.
Proof.
  intros [p1 [q1 E1]] [p2 [q2 E2]]. exists (p2 ++ p1), (q1 ++ q2).
  rewrite E2, E1, <- !app_assoc. reflexivity.
Qed.

Lemma contains_join {X : Type} (sub : markup) (f : X -> markup) (l : list X) (x : X) :
  In x l -> contains sub (f x) -> contains sub (join (map f l)).
Proof.
  intros I C. induction l as [|y l IH]; [contradiction|].
  simpl. destruct I as [->|I].
  - now apply contains_front.
  - apply contains_skip. now apply IH.
Qed.

(** ** Initials *)

Lemma words_single (w : string) : word w -> split_ws (trim w) = [w].
Proof.
  intro Hw.
  assert (E : w = ("" ++ weave w [] ++ "")%string) by (simpl; now rewrite append_nil_r).
  rewrite E at 1. now rewrite (words_weave "" "" w [] eq_refl eq_refl Hw (Forall_nil _)).
Qed.

Lemma generateInitials_word (w : string) :
  word w -> generateInitials w = toUpperCase (substring 0 2 w).
Proof.
  intro Hw. unfold generateInitials.
  rewrite (proj2 (nonempty_true w) (proj1 Hw)). simpl.
  now rewrite (words_single w Hw).
Qed.

Lemma generateInitials_words (lpad w0 g w1 rpad : string) (rest : list (string * string)) :
  all_ws lpad = true -> all_ws rpad = true ->
  word w0 -> gap g -> word w1 -> words_and_gaps rest ->
  generateInitials (lpad ++ weave w0 ((g, w1) :: rest) ++ rpad)
  = toUpperCase (charAt0 w0 ++ charAt0 w1).
Proof.
  intros Hl Hr Hw0 Hg Hw1 Hrest. unfold generateInitials.
  assert (Hall : words_and_gaps ((g, w1) :: rest)) by (constructor; [split|]; assumption).
  assert (Hne : nonempty (lpad ++ weave w0 ((g, w1) :: rest) ++ rpad) = true).
  { apply nonempty_true. intro E.
    destruct lpad; simpl in E; [|discriminate].
    destruct w0; simpl in E; [apply (proj1 Hw0); reflexivity | discriminate]. }
  rewrite Hne. cbv beta iota zeta delta [negb].
  now rewrite (words_weave lpad rpad w0 _ Hl Hr Hw0 Hall).
Qed.

Lemma renderHeader_badge (storeData : Store.t) :
  contains
    (initials_badge (truthy (Store.logo_url storeData))
       (escapeHtml (generateInitials (or_default (Store.name storeData) "Store"))))
    (renderHeader storeData).
Proof.
  unfold renderHeader, initials_badge.
  do 3 apply contains_skip.
  rewrite <- !app_assoc.
  match goal with
  | |- contains ?sub ?m => 
      exists [];
      eexists;
      simpl; reflexivity
  end.
Qed.

Lemma trimStart_all_ws (pad : string) : all_ws pad = true -> trimStart pad = "".
Proof.
  intro H. rewrite <- (append_nil_r pad). now rewrite (trimStart_pad pad "" H).
Qed.

(** A name with one word at most gives the first two characters of the
    name as it is given, white space included. *)
Lemma generateInitials_all_ws (name : string) :
  name <> "" -> all_ws name = true ->
  generateInitials name = toUpperCase (substring 0 2 name).
Proof.
  intros Hne H. unfold generateInitials.
  rewrite (proj2 (nonempty_true name) Hne). cbn [negb].
  unfold trim. now rewrite (trimStart_all_ws name H).
Qed.

Lemma generateInitials_one_word (lpad w rpad : string) :
  all_ws lpad = true -> all_ws rpad = true -> word w ->
  generateInitials (lpad ++ w ++ rpad) = toUpperCase (substring 0 2 (lpad ++ w ++ rpad)).
Proof.
  intros Hl Hr Hw. unfold generateInitials.
  assert (Hne : nonempty (lpad ++ w ++ rpad) = true).
  { apply nonempty_true. intro E.
    destruct lpad; simpl in E; [|discriminate].
    destruct w; simpl in E; [apply (proj1 Hw); reflexivity | discriminate]. }
  rewrite Hne. cbn [negb].
  change (lpad ++ w ++ rpad)%string with (lpad ++ weave w [] ++ rpad)%string at 1.
  now rewrite (words_weave lpad rpad w [] Hl Hr Hw (Forall_nil _)).
Qed.

Lemma substring_word (w rest : string) :
  (2 <= String.length w)%nat -> substring 0 2 (w ++ rest) = substring 0 2 w.
Proof.
  assert (Z : forall s, substring 0 0 s = "") by (intros [|? ?]; reflexivity).
  destruct w as [|a [|b r]]; simpl; intro H; try lia. now rewrite !Z.
Qed.

Lemma weave_cons (c : ascii) (w0 : string) (rest : list (string * string)) :
  weave (String c w0) rest = String c (weave w0 rest).
Proof. destruct rest as [|[g w] rest]; reflexivity. Qed.

(** Every name is empty, or white space only, or words with white space
    between and around them. *)
Lemma name_shape (name : string) :
  all_ws name = true
  \/ exists lpad w0 rest rpad,
       all_ws lpad = true /\ all_ws rpad = true /\ word w0 /\ words_and_gaps rest
       /\ name = (lpad ++ weave w0 rest ++ rpad)%string.
Proof.
  induction name as [|c r IH]; [now left|].
  destruct (is_ws c) eqn:Hc.
  - destruct IH as [H | [lpad [w0 [rest [rpad [Hl [Hr [Hw [Hrest E]]]]]]]]].
    + left. simpl. now rewrite Hc.
    + right. exists (String c lpad), w0, rest, rpad.
      repeat split; try assumption; try apply Hw.
      * simpl. now rewrite Hc.
      * simpl. now rewrite E.
  - assert (W1 : word (str1 c)).
    { split; [discriminate|]. simpl. now rewrite Hc. }
    destruct IH as [H | [lpad [w0 [rest [rpad [Hl [Hr [Hw [Hrest E]]]]]]]]].
    + right. exists "", (str1 c), [], r. repeat split; try assumption; try apply W1.
      constructor.
    + right. destruct lpad as [|l0 lpad'].
      * exists "", (String c w0), rest, rpad.
        repeat split; try assumption.
        -- discriminate.
        -- simpl. rewrite Hc. apply Hw.
        -- simpl in E. rewrite E. simpl. now rewrite weave_cons.
      * exists "", (str1 c), ((String l0 lpad', w0) :: rest), rpad.
        repeat split; try assumption; try apply W1.
        -- constructor; [|assumption]. split; [|exact Hw]. split; [discriminate | exact Hl].
        -- rewrite E. simpl. now rewrite !append_assoc.
Qed.

(** C8.  The three examples of the design hold: Pizza Palace, Zagreb and
    the empty name give PP, ZA and ST.  A name with a leading space does
    not give the first two letters of its word: for the name that is a
    space followed by Zagreb the initials are a space and Z.  For every
    name of ASCII characters: a name that has one word at most (white space
    only, or one word with white space around it) gives the first two
    characters of the name as it is given, in upper case, which are the
    first two characters of the word when no white space comes before a
    word of two characters or more; a name of two or more words gives the
    first characters of its first two words, in upper case, whatever white
    space separates or surrounds them.  Every name is of one of these
    shapes.  The header shows the escaped initials of the store name (of
    the name Store when the store has none) in its badge. *)
Theorem generateInitials_header :
  generateInitials "Pizza Palace" = "PP"
  /\ generateInitials "Zagreb" = "ZA"
  /\ generateInitials "" = "ST"
  /\ generateInitials " Zagreb" = " Z"
  /\ (forall name,
        name <> "" -> all_ws name = true -> ascii_text name = true ->
        generateInitials name = toUpperCase (substring 0 2 name))
  /\ (forall lpad w rpad,
        all_ws lpad = true -> all_ws rpad = true -> word w ->
        ascii_text (lpad ++ w ++ rpad) = true ->
        generateInitials (lpad ++ w ++ rpad)
        = toUpperCase (substring 0 2 (lpad ++ w ++ rpad)))
  /\ (forall w rpad,
        all_ws rpad = true -> word w -> (2 <= String.length w)%nat ->
        ascii_text (w ++ rpad) = true ->
        generateInitials (w ++ rpad) = toUpperCase (substring 0 2 w))
  /\ (forall lpad w0 g w1 rest rpad,
        all_ws lpad = true -> all_ws rpad = true ->
        word w0 -> gap g -> word w1 -> words_and_gaps rest ->
        ascii_text (lpad ++ weave w0 ((g, w1) :: rest) ++ rpad) = true ->
        generateInitials (lpad ++ weave w0 ((g, w1) :: rest) ++ rpad)
        = toUpperCase (charAt0 w0 ++ charAt0 w1))
  /\ (forall name,
        name = ""
        \/ (name <> "" /\ all_ws name = true)
        \/ exists lpad w0 rest rpad,
             all_ws lpad = true /\ all_ws rpad = true /\ word w0 /\ words_and_gaps rest
             /\ name = (lpad ++ weave w0 rest ++ rpad)%string)
  /\ (forall storeData,
        contains
          (initials_badge (truthy (Store.logo_url storeData))
             (escapeHtml (generateInitials (or_default (Store.name storeData) "Store"))))
          (renderHeader storeData))
  /\ (forall storeData shown,
        (Store.name storeData = Some "Pizza Palace" /\ shown = "PP")
        \/ (Store.name storeData = Some "Zagreb" /\ shown = "ZA")
        \/ (Store.name storeData = Some "" /\ shown = "ST")
        \/ (Store.name storeData = None /\ shown = "ST")
        \/ (Store.name storeData = Some " Zagreb" /\ shown = " Z") ->
        contains (initials_badge (truthy (Store.logo_url storeData)) shown)
          (renderHeader storeData)).
Proof.
  split; [reflexivity|]. split; [reflexivity|]. split; [reflexivity|].
  split; [reflexivity|].
  split; [intros name Hne Hw _; now apply generateInitials_all_ws|].
  split; [intros lpad w rpad Hl Hr Hw _; now apply generateInitials_one_word|].
  split.
  { intros w rpad Hr Hw H2 _.
    rewrite <- (substring_word w rpad H2).
    exact (generateInitials_one_word "" w rpad eq_refl Hr Hw). }
  split; [intros; now apply generateInitials_words|].
  split.
  { intro name. destruct name as [|c r]; [now left|]. right.
    destruct (name_shape (String c r)) as [H|H]; [left | now right].
    split; [discriminate | exact H]. }
  split; [exact renderHeader_badge|].
  intros storeData shown H.
  pose proof (renderHeader_badge storeData) as B.
  destruct H as [[E ->]|[[E ->]|[[E ->]|[[E ->]|[E ->]]]]]; rewrite E in B; exact B.
Qed.

Lemma generateInitials_header_witness :
  generateInitials "Zagreb  " = toUpperCase (substring 0 2 "Zagreb")
  /\ generateInitials "  Pizza   Palace of Rome " = toUpperCase (charAt0 "Pizza" ++ charAt0 "Palace")
  /\ generateInitials "  " = "  "
  /\ contains (initials_badge false "PP")
       (renderHeader (Store.mk (Some "Pizza Palace") None None None None None None None)).
Proof.
  destruct generateInitials_header as [_ [_ [_ [_ [A [_ [W [M [_ [B _]]]]]]]]]].
  split; [|split; [|split]].
  - apply (W "Zagreb" "  "); try reflexivity; [split; [discriminate | reflexivity] | simpl; lia].
  - apply (M "  " "Pizza" "   " "Palace" [(" ", "of"); (" ", "Rome")] " ");
      try reflexivity;
      repeat first [ split; [discriminate | reflexivity]
                   | split
                   | constructor ].
  - apply (A "  "); [discriminate | reflexivity | reflexivity].
  - exact (B (Store.mk (Some "Pizza Palace") None None None None None None None)).
Defined.

(** ** Escaping and the text positions of the templates *)

Lemma prefix_nil (s : string) : prefix "" s = true.
Proof. now destruct s. Qed.

Lemma escapeHtml_no_angle (s : string) : no_raw_of angle (escapeHtml s) = true.
Proof.
  induction s as [|c r IH]; [reflexivity|].
  simpl. unfold escape_char.
  destruct (Ascii.eqb c "&") eqn:Ea; [simpl; unfold starts_reference; simpl; rewrite prefix_nil; exact IH|].
  destruct (Ascii.eqb c "<") eqn:El; [simpl; unfold starts_reference; simpl; rewrite prefix_nil; exact IH|].
  destruct (Ascii.eqb c ">") eqn:Eg; [simpl; unfold starts_reference; simpl; rewrite prefix_nil; exact IH|].
  simpl. rewrite Ea. unfold angle. rewrite El, Eg. simpl. exact IH.
Qed.

Lemma escapeHtml_keeps (c : ascii) (s : string) :
  Ascii.eqb c "&" = false -> angle c = false ->
  escapeHtml (String c s) = String c (escapeHtml s).
Proof.
  intros Ea Hc. unfold angle in Hc. apply orb_false_iff in Hc as [El Eg].
  simpl. unfold escape_char. now rewrite Ea, El, Eg.
Qed.

Section TextPositions.

Variable ok : string -> bool.

Lemma text_positions_nil : text_positions ok [].
Proof. intros s []. Qed.

Lemma text_positions_app (a b : markup) :
  text_positions ok a -> text_positions ok b -> text_positions ok (a ++ b).
Proof.
  intros Ha Hb s H. apply in_app_or in H as [H|H]; auto.
Qed.

Lemma text_positions_Lit (s : string) : text_positions ok [Lit s].
Proof. intros t [H|[]]. discriminate. Qed.

Lemma text_positions_attr (s : string) : text_positions ok (attr s).
Proof. intros t [H|[]]. discriminate. Qed.

Lemma text_positions_num (s : string) : text_positions ok (num s).
Proof. intros t [H|[]]. discriminate. Qed.

Lemma text_positions_text (s : string) : ok s = true -> text_positions ok (text s).
Proof. intros H t [E|[]]. now inversion E; subst. Qed.

Lemma text_positions_join {X : Type} (f : X -> markup) (l : list X) :
  (forall x, text_positions ok (f x)) -> text_positions ok (join (map f l)).
Proof.
  intro H. induction l as [|x l IH]; simpl.
  - apply text_positions_nil.
  - apply text_positions_app; [apply H | exact IH].
Qed.

Lemma text_positions_when (o : option string) (f : string -> markup) :
  (forall s, text_positions ok (f s)) -> text_positions ok (when_truthy o f).
Proof.
  intro H. destruct o as [s|]; simpl; [destruct (nonempty s)|];
    auto using text_positions_nil.
Qed.

End TextPositions.

Ltac text_positions :=
  repeat first
    [ apply text_positions_nil
    | apply text_positions_app
    | apply text_positions_Lit
    | apply text_positions_attr
    | apply text_positions_num
    | apply text_positions_text; apply escapeHtml_no_angle
    | apply text_positions_join; intros
    | apply text_positions_when; intros
    | match goal with
      | |- text_positions _ (if ?b then _ else _) => destruct b
      | |- text_positions _ (match ?x with _ => _ end) => destruct x
      end ].

Section RenderedText.

Variable formatPrice : Q -> string -> string.
Variable Date_now : Product.t -> Z.

Lemma renderHeader_text (storeData : Store.t) :
  text_positions (no_raw_of angle) (renderHeader storeData).
Proof. unfold renderHeader. text_positions. Qed.

Lemma renderNavigation_text (categories : list Category.t) (currentCategory : string) :
  text_positions (no_raw_of angle) (renderNavigation categories currentCategory).
Proof. unfold renderNavigation. text_positions. Qed.

Lemma renderPromotions_text (promotions : list Promotion.t) :
  text_positions (no_raw_of angle) (renderPromotions promotions).
Proof. unfold renderPromotions. text_positions. Qed.

Lemma renderCartItems_text (storeData : option Store.t) (cart : Cart.t) :
  text_positions (no_raw_of angle) (renderCartItems formatPrice storeData cart).
Proof. unfold renderCartItems. text_positions. Qed.

Lemma renderProduct_text (storeData : Store.t) (product : Product.t) :
  text_positions (no_raw_of angle) (renderProduct formatPrice Date_now storeData product).
Proof. unfold renderProduct. text_positions. Qed.

Lemma renderProducts_text (storeData : Store.t) (products : list Product.t)
    (currentCategory : string) :
  currentCategory = "all" \/ filterProducts products currentCategory <> [] ->
  text_positions (no_raw_of angle)
    (renderProducts formatPrice Date_now storeData products currentCategory).
Proof.
  intro H. unfold renderProducts.
  destruct (filterProducts products currentCategory) as [|p l] eqn:E.
  - destruct H as [-> | H]; [|congruence].
    change (String.eqb "all" "all") with true. cbv iota. text_positions.
  - text_positions.
Qed.

End RenderedText.

(** C1, the claim as stated, fails: the quote characters of a store name
    reach the heading and the badge of the header as they are. *)
Lemma quote_stays_raw_in_header :
  exists s,
    In (Text s) (renderHeader quoted_store)
    /\ html (text s) = q "Joe's `Diner`"
    /\ no_raw_of angle_or_quote s = false.
Proof.
  exists (q "Joe's `Diner`"). split; [|split; reflexivity].
  unfold renderHeader, quoted_store, sample_store. simpl. auto 10.
Qed.

(** The empty-state message of the product grid interpolates the selected
    category as it is. *)
Remark renderProducts_category_raw (formatPrice : Q -> string -> string)
    (Date_now : Product.t -> Z) (storeData : Store.t) :
  In (Text "<b>") (renderProducts formatPrice Date_now storeData [] "<b>").
Proof. unfold renderProducts. simpl. auto. Qed.

(** C1, amended.  In the markup of renderHeader, renderNavigation,
    renderPromotions, renderCartItems and renderProduct, and of
    renderProducts when it shows products or all categories are selected,
    a string interpolated into element content holds no raw angle bracket,
    and an ampersand in it is the head of a character reference.  The two
    quote characters pass through escapeHtml unchanged. *)
Theorem rendered_text_escapes_markup
    (formatPrice : Q -> string -> string) (Date_now : Product.t -> Z)
    (storeData : Store.t) (cartStore : option Store.t)
    (categories : list Category.t) (promotions : list Promotion.t)
    (cart : Cart.t) (product : Product.t) (products : list Product.t)
    (currentCategory : string) :
  (currentCategory = "all" \/ filterProducts products currentCategory <> [] ->
   text_positions (no_raw_of angle)
     (renderProducts formatPrice Date_now storeData products currentCategory))
  /\ text_positions (no_raw_of angle) (renderHeader storeData)
  /\ text_positions (no_raw_of angle) (renderNavigation categories currentCategory)
  /\ text_positions (no_raw_of angle) (renderPromotions promotions)
  /\ text_positions (no_raw_of angle) (renderCartItems formatPrice cartStore cart)
  /\ text_positions (no_raw_of angle) (renderProduct formatPrice Date_now storeData product)
  /\ (forall s, no_raw_of angle (escapeHtml s) = true)
  /\ (forall s, escapeHtml (String dquote s) = String dquote (escapeHtml s))
  /\ (forall s, escapeHtml (String "'" s) = String "'" (escapeHtml s)).
Proof.
  split; [apply renderProducts_text|].
  split; [apply renderHeader_text|].
  split; [apply renderNavigation_text|].
  split; [apply renderPromotions_text|].
  split; [apply renderCartItems_text|].
  split; [apply renderProduct_text|].
  split; [exact escapeHtml_no_angle|].
  split; intro s; now apply escapeHtml_keeps.
Qed.

Lemma rendered_text_escapes_markup_witness :
  text_positions (no_raw_of angle)
    (renderProducts sample_formatPrice sample_Date_now (sample_store "<Pizza & Co>")
       [sample_product "p1" "<b>" StockNull true] "<b>").
Proof.
  apply (proj1 (rendered_text_escapes_markup sample_formatPrice sample_Date_now
                  (sample_store "<Pizza & Co>") None [] [] emptyCart
                  (sample_product "p1" "<b>" StockNull true)
                  [sample_product "p1" "<b>" StockNull true] "<b>")).
  right. simpl. discriminate.
Defined.

(** ** The text of a markup *)

Lemma concat_cons (x : string) (l : list string) :
  String.concat "" (x :: l) = (x ++ String.concat "" l)%string.
Proof.
  destruct l; simpl; [now rewrite append_nil_r | reflexivity].
Qed.

Lemma html_app (a b : markup) : html (a ++ b) = (html a ++ html b)%string.
Proof.
  unfold html. induction a as [|p a IH]; [reflexivity|].
  simpl map. rewrite !concat_cons, IH. now rewrite append_assoc.
Qed.

Lemma html_lit (s : string) : html (lit s) = q s.
Proof. reflexivity. Qed.

Lemma html_attr (s : string) : html (attr s) = s.
Proof. reflexivity. Qed.

Lemma q_append (a b : string) : q (a ++ b) = (q a ++ q b)%string.
Proof. induction a as [|c r IH]; simpl; [reflexivity | now rewrite IH]. Qed.

(** ** The add-to-cart button *)

Lemma in_stock_spec (s : stock) :
  in_stock s = true <-> s = StockNull \/ exists n, s = StockNumber n /\ 0 < n.
Proof.
  destruct s as [| |n]; simpl; split.
  - now left.
  - reflexivity.
  - discriminate.
  - intros [H|[n [H _]]]; discriminate.
  - intro H. right. exists n. split; [reflexivity | now apply Z.ltb_lt].
  - intros [H|[m [H Hm]]]; [discriminate|]. inversion H; subst. now apply Z.ltb_lt.
Qed.

Lemma renderProduct_button (formatPrice : Q -> string -> string)
    (Date_now : Product.t -> Z) (storeData : Store.t) (product : Product.t) :
  exists card,
    html (renderProduct formatPrice Date_now storeData product)
    = (card ++ before_button
       ++ add_to_cart_button (nonempty (availability product)) (Product.id product)
       ++ after_button)%string.
Proof.
  unfold renderProduct.
  set (image := match Product.image_url product with Some _ => _ | None => _ end).
  set (tags := match Product.tags product with Some _ => _ | None => _ end).
  set (description := when_truthy (Product.description product) _).
  set (price := formatPrice _ _).
  exists (html (lit "
    <div class=`product`>
      " ++ image ++ lit "
      <div class=`product-info`>
        <h3 class=`product-name`>" ++ text (escapeHtml (Product.name product)) ++ lit "</h3>
        " ++ description ++ lit "
        " ++ tags ++ lit "
        <div class=`product-price`>" ++ num price)).
  rewrite !html_app, !append_assoc.
  do 10 f_equal.
  rewrite !html_lit, !html_attr.
  unfold add_to_cart_button, before_button, after_button.
  destruct (nonempty (availability product)) eqn:E.
  - apply nonempty_true in E.
    assert (A : availability product = "disabled").
    { unfold availability in *. now destruct (_ && _). }
    rewrite A, !append_assoc. reflexivity.
  - apply nonempty_false in E. rewrite E, !append_assoc. reflexivity.
Qed.

Lemma availability_enabled (product : Product.t) :
  nonempty (availability product) = false
  <-> Product.is_available product = true
      /\ (Product.stock_quantity product = StockNull
          \/ exists n, Product.stock_quantity product = StockNumber n /\ 0 < n).
Proof.
  rewrite <- in_stock_spec, <- andb_true_iff. unfold availability.
  destruct (Product.is_available product && in_stock (Product.stock_quantity product));
    cbn; split; intro H; congruence.
Qed.

(** C10.  The card of a product ends with the add-to-cart button.  The
    button is written without the disabled attribute and with the label
    Add to Cart when the product is available and its stock is null or
    positive; in every other case it is written with the disabled attribute
    and the label Out of Stock. *)
Theorem add_to_cart_button_availability
    (formatPrice : Q -> string -> string) (Date_now : Product.t -> Z)
    (storeData : Store.t) (product : Product.t) :
  let can_buy :=
    Product.is_available product = true
    /\ (Product.stock_quantity product = StockNull
        \/ exists n, Product.stock_quantity product = StockNumber n /\ 0 < n) in
  let card_ends_with (button : string) :=
    exists card,
      html (renderProduct formatPrice Date_now storeData product)
      = (card ++ before_button ++ button ++ after_button)%string in
  (can_buy -> card_ends_with (add_to_cart_button false (Product.id product)))
  /\ (~ can_buy -> card_ends_with (add_to_cart_button true (Product.id product)))
  /\ add_to_cart_button false (Product.id product)
     <> add_to_cart_button true (Product.id product).
Proof.
  intros can_buy card_ends_with.
  pose proof (renderProduct_button formatPrice Date_now storeData product) as B.
  pose proof (availability_enabled product) as A.
  fold can_buy in A.
  split; [|split].
  - intro H. apply A in H. now rewrite H in B.
  - intro H. destruct (nonempty (availability product)).
    + exact B.
    + contradiction H. now apply A.
  - unfold add_to_cart_button. simpl. discriminate.
Qed.

Lemma add_to_cart_button_availability_witness :
  (exists card,
     html (renderProduct sample_formatPrice sample_Date_now (sample_store "Pizza Palace")
             (sample_product "p1" "Pizza" StockNull true))
     = (card ++ before_button ++ add_to_cart_button false "p1" ++ after_button)%string)
  /\ (exists card,
        html (renderProduct sample_formatPrice sample_Date_now (sample_store "Pizza Palace")
                (sample_product "p2" "Pizza" (StockNumber 0) true))
        = (card ++ before_button ++ add_to_cart_button true "p2" ++ after_button)%string).
Proof.
  split.
  - apply (proj1 (add_to_cart_button_availability sample_formatPrice sample_Date_now
                    (sample_store "Pizza Palace") (sample_product "p1" "Pizza" StockNull true))).
    split; [reflexivity | now left].
  - apply (proj1 (proj2 (add_to_cart_button_availability sample_formatPrice sample_Date_now
                    (sample_store "Pizza Palace")
                    (sample_product "p2" "Pizza" (StockNumber 0) true)))).
    intros [_ [H|[n [H Hn]]]]; [discriminate H|].
    inversion H; subst. lia.
Defined.

(** ** The product grid *)

Lemma filterProducts_all (products : list Product.t) :
  filterProducts products "all" = products.
Proof. reflexivity. Qed.

Lemma filterProducts_category (products : list Product.t) (currentCategory : string) :
  currentCategory <> "all" ->
  filterProducts products currentCategory
  = filter (fun p => String.eqb (Product.category p) currentCategory) products.
Proof.
  intro H. unfold filterProducts.
  destruct (String.eqb currentCategory "all") eqn:E; [|reflexivity].
  now apply String.eqb_eq in E.
Qed.

Lemma filterProducts_In (products : list Product.t) (currentCategory : string) (p : Product.t) :
  currentCategory <> "all" ->
  In p (filterProducts products currentCategory)
  <-> In p products /\ Product.category p = currentCategory.
Proof.
  intro H. rewrite (filterProducts_category products currentCategory H).
  rewrite filter_In. now rewrite String.eqb_eq.
Qed.

(** C5.  The grid keeps every product when the selected category is the
    word all, and otherwise the products, in their order, whose category is
    equal to the selected one, character for character (Pizza is not
    pizza).  It shows the cards of the products kept; when none is kept it
    says that the store has no products yet if all categories are selected
    and that there are no products in the selected category otherwise. *)
Theorem renderProducts_filters_by_category
    (formatPrice : Q -> string -> string) (Date_now : Product.t -> Z)
    (storeData : Store.t) (products : list Product.t) (currentCategory : string) :
  let kept := filterProducts products currentCategory in
  let grid := renderProducts formatPrice Date_now storeData products currentCategory in
  (currentCategory = "all" -> kept = products)
  /\ (currentCategory <> "all" ->
      kept = filter (fun p => String.eqb (Product.category p) currentCategory) products
      /\ forall p, In p kept <-> In p products /\ Product.category p = currentCategory)
  /\ (kept <> [] ->
      contains (join (map (renderProduct formatPrice Date_now storeData) kept)) grid)
  /\ (kept = [] -> currentCategory = "all" ->
      html grid = q "
      <div class=`text-center` style=`padding: 3rem;`>
        <h2>No products found</h2>
        <p>This store has no products yet.</p>
      </div>
    ")
  /\ (kept = [] -> currentCategory <> "all" ->
      html grid = (q "
      <div class=`text-center` style=`padding: 3rem;`>
        <h2>No products found</h2>
        <p>No products in the `" ++ currentCategory ++ q "` category.</p>
      </div>
    ")%string)
  /\ filterProducts [sample_product "p1" "Pizza" StockNull true] "pizza" = []
  /\ filterProducts [sample_product "p1" "Pizza" StockNull true] "Pizza"
     = [sample_product "p1" "Pizza" StockNull true].
Proof.
  intros kept grid. subst kept grid.
  split; [intros ->; reflexivity|].
  split.
  { intro H. split; [now apply filterProducts_category|].
    intro p. now apply filterProducts_In. }
  split.
  { intro H. unfold renderProducts.
    destruct (filterProducts products currentCategory) as [|p l]; [congruence|].
    apply contains_skip, contains_here. }
  split.
  { intros H ->. unfold renderProducts. rewrite H. reflexivity. }
  split.
  { intros H Hc. unfold renderProducts. rewrite H.
    destruct (String.eqb currentCategory "all") eqn:E;
      [now apply String.eqb_eq in E|].
    rewrite !html_app. cbn. now rewrite append_assoc. }
  split; reflexivity.
Qed.

Lemma renderProducts_filters_by_category_witness :
  filterProducts [sample_product "p1" "Pizza" StockNull true;
                  sample_product "p2" "Drinks" StockNull true] "Drinks"
  = [sample_product "p2" "Drinks" StockNull true]
  /\ html (renderProducts sample_formatPrice sample_Date_now (sample_store "Pizza Palace")
             [sample_product "p1" "Pizza" StockNull true] "pizza")
     = (q "
      <div class=`text-center` style=`padding: 3rem;`>
        <h2>No products found</h2>
        <p>No products in the `" ++ "pizza" ++ q "` category.</p>
      </div>
    ")%string
  /\ html (renderProducts sample_formatPrice sample_Date_now (sample_store "Pizza Palace")
             [] "all")
     = q "
      <div class=`text-center` style=`padding: 3rem;`>
        <h2>No products found</h2>
        <p>This store has no products yet.</p>
      </div>
    ".
Proof.
  pose proof (renderProducts_filters_by_category sample_formatPrice sample_Date_now
                (sample_store "Pizza Palace")) as T.
  split; [|split].
  - apply (proj1 (proj2 (T [sample_product "p1" "Pizza" StockNull true;
                            sample_product "p2" "Drinks" StockNull true] "Drinks"))).
    discriminate.
  - apply (proj1 (proj2 (proj2 (proj2 (proj2
             (T [sample_product "p1" "Pizza" StockNull true] "pizza")))))).
    + reflexivity.
    + discriminate.
  - apply (proj1 (proj2 (proj2 (proj2 (T [] "all"))))); reflexivity.
Defined.

(** ** The cart handlers *)

Lemma api_calls_app (t u : list event) : api_calls (t ++ u) = api_calls t ++ api_calls u.
Proof. apply filter_app. Qed.

Lemma alerts_app (t u : list event) : alerts (t ++ u) = alerts t ++ alerts u.
Proof. apply flat_map_app. Qed.

Lemma update_button_twice (productId : string) (d1 d2 : bool) (t1 t2 : string)
    (bs : list Button.t) :
  update_button productId (fun b => Button.mk (Button.data_product_id b) d2 t2)
    (update_button productId (fun b => Button.mk (Button.data_product_id b) d1 t1) bs)
  = update_button productId (fun b => Button.mk (Button.data_product_id b) d2 t2) bs.
Proof.
  induction bs as [|b bs IH]; [reflexivity|].
  simpl. destruct (String.eqb (Button.data_product_id b) productId) eqn:E; simpl.
  - now rewrite E.
  - now rewrite E, IH.
Qed.

Lemma find_update_button (productId : string) (d : bool) (t : string) (bs : list Button.t) :
  find (fun b => String.eqb (Button.data_product_id b) productId)
    (update_button productId (fun b => Button.mk (Button.data_product_id b) d t) bs)
  = option_map (fun b => Button.mk (Button.data_product_id b) d t)
      (find (fun b => String.eqb (Button.data_product_id b) productId) bs).
Proof.
  induction bs as [|b bs IH]; [reflexivity|].
  simpl. destruct (String.eqb (Button.data_product_id b) productId) eqn:E; simpl.
  - now rewrite E.
  - now rewrite E, IH.
Qed.

Section Handlers.

Variable formatPrice : Q -> string -> string.

Lemma addToCart_rejected (productId message : string) (s : session) :
  api s = true ->
  let s' := addToCart formatPrice productId (Rejected message) s in
  cart s' = cart s
  /\ trace s' = trace s ++ [ApiAddToCart productId 1;
                            ConsoleError "Error adding to cart:";
                            Alert "Failed to add item to cart. Please try again."]
  /\ Dom.buttons (dom s')
     = update_button productId
         (fun b => Button.mk (Button.data_product_id b) false "Add to Cart")
         (Dom.buttons (dom s)).
Proof.
  intro Hapi. unfold addToCart. rewrite Hapi. simpl.
  split; [reflexivity|]. split.
  - now rewrite <- !app_assoc.
  - apply update_button_twice.
Qed.

Lemma addToCart_keeps_cart (productId message : string) (s : session) :
  cart (addToCart formatPrice productId (Rejected message) s) = cart s.
Proof.
  unfold addToCart. destruct (api s); reflexivity.
Qed.

(** C2.  A call of addToCart whose API promise rejects leaves the cart as
    it was, whatever the cart and the product, also right after a call
    that succeeded.  The call was made with quantity one, the user is
    alerted, and the button of the product, if the page has one, ends
    enabled and labelled Add to Cart. *)
Theorem addToCart_failure_keeps_cart (productId message : string) (s : session) :
  let s' := addToCart formatPrice productId (Rejected message) s in
  cart s' = cart s
  /\ (forall c,
        cart (addToCart formatPrice productId (Rejected message)
                (addToCart formatPrice productId (Resolved c) s))
        = cart (addToCart formatPrice productId (Resolved c) s))
  /\ (api s = true ->
      api_calls (trace s') = api_calls (trace s) ++ [ApiAddToCart productId 1]
      /\ alerts (trace s')
         = alerts (trace s) ++ ["Failed to add item to cart. Please try again."]
      /\ Dom.buttons (dom s')
         = update_button productId
             (fun b => Button.mk (Button.data_product_id b) false "Add to Cart")
             (Dom.buttons (dom s))
      /\ forall b,
           find (fun b => String.eqb (Button.data_product_id b) productId)
             (Dom.buttons (dom s')) = Some b ->
           Button.disabled b = false /\ Button.textContent b = "Add to Cart").
Proof.
  intro s'. subst s'.
  split; [apply addToCart_keeps_cart|].
  split; [intro c; apply addToCart_keeps_cart|].
  intro Hapi.
  destruct (addToCart_rejected productId message s Hapi) as [_ [Ht Hb]].
  rewrite Ht, Hb, api_calls_app, alerts_app. simpl.
  repeat split; try reflexivity.
  - rewrite find_update_button in H.
    destruct (find _ (Dom.buttons (dom s))); simpl in H; [|discriminate].
    now inversion H.
  - rewrite find_update_button in H.
    destruct (find _ (Dom.buttons (dom s))); simpl in H; [|discriminate].
    now inversion H.
Qed.

(** ** updateCartQuantity *)

(** C6.  With a quantity of zero or less updateCartQuantity calls nothing
    and leaves the cart and the page as they were.  With a positive
    quantity, and an API client to call, it issues the call that addToCart
    issues, with the new quantity in the place of the quantity one, and a
    cart the server returns replaces the cart. *)
Theorem updateCartQuantity_behaviour (productId : string) (newQuantity : Z)
    (reply : result Cart.t) (s : session) :
  let s' := updateCartQuantity formatPrice productId newQuantity reply s in
  (newQuantity <= 0 ->
   api_calls (trace s') = api_calls (trace s) /\ cart s' = cart s /\ dom s' = dom s)
  /\ (0 < newQuantity -> api s = true ->
      api_calls (trace s') = api_calls (trace s) ++ [ApiAddToCart productId newQuantity]
      /\ api_calls (trace (addToCart formatPrice productId reply s))
         = api_calls (trace s) ++ [ApiAddToCart productId 1]
      /\ match reply with
         | Resolved c => cart s' = c
         | Rejected _ => cart s' = cart s
         end).
Proof.
  intro s'. subst s'. unfold updateCartQuantity, addToCart. split.
  - intro H. apply Z.leb_le in H. rewrite H.
    destruct (api s); simpl; [auto|].
    rewrite api_calls_app. simpl. now rewrite app_nil_r.
  - intros H Hapi. rewrite Hapi. simpl.
    assert (E : (newQuantity <=? 0) = false) by (apply Z.leb_gt; lia).
    rewrite E. destruct reply; simpl; rewrite !api_calls_app; simpl;
      rewrite ?app_nil_r; auto.
Qed.

End Handlers.

Lemma addToCart_failure_keeps_cart_witness :
  cart (addToCart sample_formatPrice "p1" (Rejected "Failed to fetch") shopping) = sample_cart
  /\ alerts (trace (addToCart sample_formatPrice "p1" (Rejected "Failed to fetch") shopping))
     = ["Failed to add item to cart. Please try again."]
  /\ Dom.buttons (dom (addToCart sample_formatPrice "p1" (Rejected "Failed to fetch") shopping))
     = [Button.mk "p1" false "Add to Cart"].
Proof.
  pose proof (addToCart_failure_keeps_cart sample_formatPrice "p1" "Failed to fetch" shopping)
    as T.
  cbv zeta in T. destruct T as [C [_ T]]. destruct (T eq_refl) as [_ [A [B _]]].
  split; [exact C|]. split; [exact A | exact B].
Defined.

Lemma updateCartQuantity_behaviour_witness :
  api_calls (trace (updateCartQuantity sample_formatPrice "p1" 0 (Resolved emptyCart) shopping))
  = api_calls (trace shopping)
  /\ api_calls (trace (updateCartQuantity sample_formatPrice "p1" 3 (Resolved emptyCart) shopping))
     = api_calls (trace shopping) ++ [ApiAddToCart "p1" 3].
Proof.
  split.
  - apply (proj1 (updateCartQuantity_behaviour sample_formatPrice "p1" 0
                    (Resolved emptyCart) shopping)).
    lia.
  - refine (proj1 (proj2 (updateCartQuantity_behaviour sample_formatPrice "p1" 3
                            (Resolved emptyCart) shopping) _ _)).
    + lia.
    + reflexivity.
Defined.

(** ** handleCheckout *)

(** C3, the claim as stated, fails: before a client is installed the cart
    is empty, and handleCheckout alerts nobody. *)
Lemma handleCheckout_without_client_alerts_nobody :
  Cart.items (cart (initial true)) = []
  /\ alerts (trace (handleCheckout (initial true))) = [].
Proof. split; reflexivity. Qed.

(** C3, amended.  With an empty cart handleCheckout calls no operation of
    the API client, opens no form and changes nothing of the session but
    its trace.  With an API client it alerts that the cart is empty;
    without one it writes to the console only. *)
Theorem handleCheckout_empty_cart (s : session) :
  Cart.items (cart s) = [] ->
  let s' := handleCheckout s in
  api_calls (trace s') = api_calls (trace s)
  /\ cart s' = cart s
  /\ dom s' = dom s
  /\ (api s = true -> trace s' = trace s ++ [Alert "Your cart is empty"])
  /\ (api s = false ->
      trace s' = trace s ++ [ConsoleError "API client not available"]
      /\ alerts (trace s') = alerts (trace s)).
Proof.
  intros H s'. subst s'. unfold handleCheckout. rewrite H.
  destruct (api s); simpl; rewrite ?api_calls_app, ?alerts_app; simpl;
    rewrite ?app_nil_r; repeat split; congruence.
Qed.

Lemma handleCheckout_empty_cart_witness :
  trace (handleCheckout started) = trace started ++ [Alert "Your cart is empty"].
Proof.
  apply (proj1 (proj2 (proj2 (proj2 (handleCheckout_empty_cart started eq_refl)))) eq_refl).
Defined.

(** The trace through the steps of a handler. *)
Lemma trace_log (e : event) (s : session) : trace (log e s) = trace s ++ [e].
Proof. reflexivity. Qed.

Lemma trace_set_cart (c : Cart.t) (s : session) : trace (set_cart c s) = trace s.
Proof. reflexivity. Qed.

Lemma trace_set_overlays (os : list (markup * Button.t)) (open : option bool) (s : session) :
  trace (set_overlays os open s) = trace s.
Proof. reflexivity. Qed.

Lemma trace_toggleCart (s : session) : trace (toggleCart s) = trace s.
Proof. reflexivity. Qed.

Lemma trace_updateCartDisplay (formatPrice : Q -> string -> string) (s : session) :
  trace (updateCartDisplay formatPrice s) = trace s.
Proof. reflexivity. Qed.

Lemma trace_submit_button (disabled : bool) (textContent : string) (s : session) :
  trace (submit_button disabled textContent s) = trace s.
Proof.
  unfold submit_button. now destruct (Dom.overlays (dom s)) as [|[m b] rest].
Qed.

Lemma cart_submit_button (disabled : bool) (textContent : string) (s : session) :
  cart (submit_button disabled textContent s) = cart s.
Proof.
  unfold submit_button. now destruct (Dom.overlays (dom s)) as [|[m b] rest].
Qed.

Create Rewrite HintDb trace.
#[local] Hint Rewrite trace_log trace_set_cart trace_set_overlays trace_toggleCart
  trace_updateCartDisplay trace_submit_button api_calls_app : trace.

(** The checkout operation is called by the submission of the form, with
    the lines of the cart as they are at that moment. *)
Remark submitCheckout_calls_checkout (formatPrice : Q -> string -> string)
    (formData : FormData.t) (reply : result Order.t) (s : session) :
  api s = true ->
  exists orderData,
    api_calls (trace (submitCheckout formatPrice formData reply s))
    = api_calls (trace s) ++ [ApiCheckout orderData]
    /\ OrderData.cart_items orderData
       = map (fun item => OrderItem.mk (CartItem.product_id item) (CartItem.quantity item)
                            (CartItem.unit_price item))
             (Cart.items (cart s)).
Proof.
  intro Hapi. unfold submitCheckout. rewrite Hapi. cbn [negb].
  eexists. split.
  - destruct reply as [order|message];
      [destruct (truthy (Order.tracking_url order))|];
      autorewrite with trace; simpl; rewrite ?app_nil_r; reflexivity.
  - reflexivity.
Qed.

(** ** The first load *)

Lemma html_showError (message : string) :
  exists pre post, html (showError message) = (pre ++ retry_control ++ post)%string.
Proof.
  unfold showError. rewrite !html_app.
  exists (html (lit "
    <div class=`error`>
      <h2>Error</h2>
      <p>") ++ html (text (escapeHtml message)) ++ q "</p>
      ")%string.
  exists (q "
    </div>
  ").
  rewrite !append_assoc. reflexivity.
Qed.

Lemma renderHeader_heading (storeData : Store.t) :
  contains (store_heading (or_default (Store.name storeData) "Store"))
    (renderHeader storeData).
Proof.
  unfold renderHeader. do 4 apply contains_skip.
  unfold store_heading, lit, text. exists []. eexists. cbn [app]. reflexivity.
Qed.

Lemma renderNavigation_buttons (categories : list Category.t) (currentCategory : string) :
  categories <> [] ->
  contains (navigation_head (String.eqb currentCategory "all"))
    (renderNavigation categories currentCategory)
  /\ (forall cat,
        In cat categories ->
        contains (category_button cat (String.eqb currentCategory (Category.name cat)))
          (renderNavigation categories currentCategory)).
Proof.
  intro Hne. unfold renderNavigation.
  destruct categories as [|c0 cs]; [congruence|]. set (l := c0 :: cs). split.
  - unfold navigation_head, lit. exists []. eexists. cbn [app]. reflexivity.
  - intros cat I. do 3 apply contains_skip. apply contains_front.
    apply (contains_join _ _ _ cat I). apply contains_self.
Qed.

Section FirstLoad.

Variable formatPrice : Q -> string -> string.
Variable Date_now : Product.t -> Z.

Lemma renderTheme_parts (storeData : Store.t) (categories : list Category.t)
    (promotions : list Promotion.t) (products : list Product.t) (cart : Cart.t)
    (currentCategory : string) :
  let page := renderTheme formatPrice Date_now storeData categories promotions products
                cart currentCategory in
  contains (renderHeader storeData) page
  /\ contains (renderNavigation categories currentCategory) page
  /\ contains (renderPromotions promotions) page
  /\ contains (renderProducts formatPrice Date_now storeData products currentCategory) page.
Proof.
  unfold renderTheme. repeat split.
  - apply contains_skip, contains_here.
  - do 3 apply contains_skip. apply contains_here.
  - do 5 apply contains_skip. apply contains_here.
  - do 7 apply contains_skip. apply contains_here.
Qed.

Lemma loadStoreData_failed (store : result Store.t) (productsData : result (list Product.t))
    (categoriesData : result (list Category.t)) (promotionsData : result (list Promotion.t))
    (hook : custom_api) (s : session) :
  is_rejected store || is_rejected productsData || is_rejected categoriesData = true ->
  let s' := loadStoreData formatPrice Date_now store productsData categoriesData
              promotionsData hook s in
  Dom.container (dom s')
  = Some (showError "Failed to load store data. Please try again later.")
  /\ Dom.main (dom s') = None
  /\ Dom.buttons (dom s') = []
  /\ storeData s' = storeData s
  /\ products s' = products s.
Proof.
  intro H. unfold loadStoreData.
  destruct (api s) eqn:Hapi; simpl.
  - rewrite Hapi. simpl.
    destruct store, productsData, categoriesData; simpl in H; try discriminate;
      repeat split; reflexivity.
  - rewrite Hapi. simpl. repeat split; reflexivity.
Qed.

Lemma loadStoreData_rendered (store : Store.t) (productsData : list Product.t)
    (categoriesData : list Category.t) (promotionsData : result (list Promotion.t))
    (hook : custom_api) (s : session) :
  api s = true -> hook <> HookThrows ->
  let s' := loadStoreData formatPrice Date_now (Resolved store) (Resolved productsData)
              (Resolved categoriesData) promotionsData hook s in
  let shown :=
    match promotionsData with
    | Resolved l => l
    | Rejected _ => []
    end in
  promotions s' = shown
  /\ Dom.container (dom s')
     = Some (renderTheme formatPrice Date_now store categoriesData shown productsData
               (cart s) (currentCategory s))
  /\ alerts (trace s') = alerts (trace s)
  /\ (forall label, In (ConsoleError label) (trace s') -> In (ConsoleError label) (trace s)).
Proof.
  intros Hapi Hhook. unfold loadStoreData. simpl. rewrite Hapi. simpl.
  set (shown := match promotionsData with Resolved l => l | Rejected _ => [] end).
  assert (T : forall e t, In (ConsoleError e)
                (((((t ++ [ApiGetStore]) ++ [ApiGetProducts]) ++ [ApiGetCategories])
                  ++ [ApiGetPromotions]) ++ [InitializeCustomFeatures]) -> In (ConsoleError e) t).
  { intros e t I. repeat (apply in_app_or in I as [I|[I|[]]]; [|discriminate I]). exact I. }
  assert (T' : forall e t, In (ConsoleError e)
                ((((t ++ [ApiGetStore]) ++ [ApiGetProducts]) ++ [ApiGetCategories])
                 ++ [ApiGetPromotions]) -> In (ConsoleError e) t).
  { intros e t I. repeat (apply in_app_or in I as [I|[I|[]]]; [|discriminate I]). exact I. }
  destruct hook; [| |congruence];
    destruct (Store.name store) as [n|]; try destruct (nonempty n); simpl;
    rewrite ?alerts_app; simpl; rewrite ?app_nil_r;
    repeat split; try reflexivity; intros label I; eauto.
Qed.

Lemma renderProduct_heading (storeData : Store.t) (product : Product.t) :
  contains (product_heading product) (renderProduct formatPrice Date_now storeData product).
Proof.
  unfold renderProduct. do 2 apply contains_skip.
  unfold product_heading, lit, text. exists []. eexists. cbn [app]. reflexivity.
Qed.

Lemma renderProducts_headings (storeData : Store.t) (products : list Product.t)
    (currentCategory : string) (product : Product.t) :
  In product (filterProducts products currentCategory) ->
  contains (product_heading product)
    (renderProducts formatPrice Date_now storeData products currentCategory).
Proof.
  intro I. unfold renderProducts.
  destruct (filterProducts products currentCategory) as [|p0 ps] eqn:E; [contradiction|].
  apply contains_skip, contains_front.
  apply (contains_join _ _ _ product I). apply renderProduct_heading.
Qed.

(** What the theme holds: the heading with the name of the store, the
    button All and the button of every category, the heading of every
    product of the selected category. *)
Lemma renderTheme_holds (storeData : Store.t) (categories : list Category.t)
    (promotions : list Promotion.t) (products : list Product.t) (cart : Cart.t)
    (currentCategory : string) :
  let page := renderTheme formatPrice Date_now storeData categories promotions products
                cart currentCategory in
  contains (store_heading (or_default (Store.name storeData) "Store")) page
  /\ (categories <> [] ->
      contains (navigation_head (String.eqb currentCategory "all")) page
      /\ forall cat,
           In cat categories ->
           contains (category_button cat (String.eqb currentCategory (Category.name cat)))
             page)
  /\ (forall product,
        In product (filterProducts products currentCategory) ->
        contains (product_heading product) page).
Proof.
  intro page.
  destruct (renderTheme_parts storeData categories promotions products cart currentCategory)
    as [P1 [P2 [_ P4]]].
  fold page in P1, P2, P4. split; [|split].
  - exact (contains_trans _ _ _ (renderHeader_heading storeData) P1).
  - intro Hne.
    destruct (renderNavigation_buttons categories currentCategory Hne) as [N1 N2].
    split; [exact (contains_trans _ _ _ N1 P2)|].
    intros cat I. exact (contains_trans _ _ _ (N2 cat I) P2).
  - intros product I.
    exact (contains_trans _ _ _
             (renderProducts_headings storeData products currentCategory product I) P4).
Qed.

Lemma loadStoreData_hook_throws (store : Store.t) (productsData : list Product.t)
    (categoriesData : list Category.t) (promotionsData : result (list Promotion.t))
    (s : session) :
  api s = true ->
  let s' := loadStoreData formatPrice Date_now (Resolved store) (Resolved productsData)
              (Resolved categoriesData) promotionsData HookThrows s in
  promotions s'
  = match promotionsData with
    | Resolved l => l
    | Rejected _ => []
    end
  /\ Dom.container (dom s')
     = Some (showError "Failed to load store data. Please try again later.")
  /\ In (ConsoleError "Error loading store data:") (trace s').
Proof.
  intro Hapi. unfold loadStoreData. simpl. rewrite Hapi. simpl.
  destruct (Store.name store) as [n|]; try destruct (nonempty n); simpl;
    repeat split; try reflexivity; rewrite ?in_app_iff; simpl; auto.
Qed.

Lemma loadStoreData_without_client (store : result Store.t)
    (productsData : result (list Product.t)) (categoriesData : result (list Category.t))
    (promotionsData : result (list Promotion.t)) (hook : custom_api) (s : session) :
  api s = false ->
  Dom.container
    (dom (loadStoreData formatPrice Date_now store productsData categoriesData
            promotionsData hook s))
  = Some (showError "Failed to load store data. Please try again later.").
Proof. intro H. unfold loadStoreData. simpl. rewrite H. reflexivity. Qed.

End FirstLoad.




(** ** The query of getProducts *)

Lemma nonempty_append_r (a b : string) : nonempty b = true -> nonempty (a ++ b) = true.
Proof. destruct a; [trivial | reflexivity]. Qed.

Lemma serialize_params_nonempty (params : list (string * string)) :
  params <> [] -> nonempty (serialize_params params) = true.
Proof.
  destruct params as [|[k v] rest]; [congruence|]. intros _.
  unfold serialize_params. simpl map.
  destruct (map _ rest) as [|x l]; simpl String.concat.
  - apply nonempty_append_r. reflexivity.
  - rewrite append_assoc. apply nonempty_append_r. reflexivity.
Qed.

(** C4, the claim as stated, fails: a search key that is there, with the
    empty string, adds no parameter. *)
Lemma empty_search_is_not_encoded :
  is_undefined (Filters.search (Filters.mk JUndefined (JString "") JUndefined JUndefined JUndefined))
  = false
  /\ StoreAPIClient.getProducts_params sample_Number_toString
       (Filters.mk JUndefined (JString "") JUndefined JUndefined JUndefined) = [].
Proof. split; reflexivity. Qed.

(** The test on the prices is the test for truth, which the number zero
    does not pass. *)
Remark zero_max_price_is_not_encoded :
  StoreAPIClient.getProducts_params sample_Number_toString
    (Filters.mk JUndefined JUndefined JUndefined (JNumber 0%Q) JUndefined) = [].
Proof. reflexivity. Qed.

Section Query.

Variable Number_toString : Q -> string.

Lemma getProducts_url_query (this : StoreAPIClient.t) (filters : Filters.t) :
  let params := StoreAPIClient.getProducts_params Number_toString filters in
  (params = [] ->
   StoreAPIClient.getProducts_url Number_toString this filters
   = (StoreAPIClient.baseUrl this ++ "/api/store/" ++ StoreAPIClient.storeSlug this
      ++ "/products")%string)
  /\ (params <> [] ->
      StoreAPIClient.getProducts_url Number_toString this filters
      = (StoreAPIClient.baseUrl this ++ "/api/store/" ++ StoreAPIClient.storeSlug this
         ++ "/products" ++ "?" ++ serialize_params params)%string).
Proof.
  intro params. subst params. unfold StoreAPIClient.getProducts_url. split; intro H.
  - rewrite H. reflexivity.
  - now rewrite (serialize_params_nonempty _ H).
Qed.

Ltac params_cases :=
  repeat match goal with
    | |- context [truthy_val ?v] => destruct (truthy_val v) eqn:?
    | |- context [is_undefined ?v] => destruct (is_undefined v) eqn:?
    | |- context [nonempty ?v] => destruct (nonempty v) eqn:?
    end;
  simpl in *; try reflexivity; try congruence; auto 10.

Lemma getProducts_params_keys (filters : Filters.t) :
  let params := StoreAPIClient.getProducts_params Number_toString filters in
  (Filters.category filters = JUndefined -> has_param "category" params = false)
  /\ (Filters.search filters = JUndefined -> has_param "search" params = false)
  /\ (Filters.min_price filters = JUndefined -> has_param "min_price" params = false)
  /\ (Filters.max_price filters = JUndefined -> has_param "max_price" params = false)
  /\ (Filters.in_stock filters = JUndefined -> has_param "in_stock" params = false)
  /\ has_param "in_stock" params = negb (is_undefined (Filters.in_stock filters))
  /\ subseq (map fst params) ["category"; "search"; "min_price"; "max_price"; "in_stock"]
     = true.
Proof.
  destruct filters as [c s mn mx st]. simpl.
  unfold StoreAPIClient.getProducts_params, StoreAPIClient.append_if. simpl.
  repeat split; try (intros ->); simpl; params_cases.
Qed.

Lemma nonzero_truthy (x : Q) : ~ (x == 0)%Q -> truthy_val (JNumber x) = true.
Proof.
  intro H. simpl. destruct (Qeq_bool x 0) eqn:E; [|reflexivity].
  apply Qeq_bool_iff in E. contradiction.
Qed.

Lemma getProducts_params_values (filters : Filters.t) :
  let params := StoreAPIClient.getProducts_params Number_toString filters in
  (forall s, Filters.category filters = JString s ->
     has_param "category" params = nonempty s /\ (s <> "" -> In ("category", s) params))
  /\ (forall s, Filters.search filters = JString s ->
        has_param "search" params = nonempty s /\ (s <> "" -> In ("search", s) params))
  /\ (forall b, Filters.in_stock filters = JBool b ->
        In ("in_stock", if b then "true" else "false") params)
  /\ (forall x, Filters.min_price filters = JNumber x -> ~ (x == 0)%Q ->
        In ("min_price", to_string Number_toString (JNumber x)) params)
  /\ (forall x, Filters.max_price filters = JNumber x -> ~ (x == 0)%Q ->
        In ("max_price", to_string Number_toString (JNumber x)) params).
Proof.
  destruct filters as [c s mn mx st]. simpl.
  unfold StoreAPIClient.getProducts_params, StoreAPIClient.append_if.
  split; [|split; [|split; [|split]]].
  - intros t ->. simpl. split.
    + params_cases.
    + intro H. apply nonempty_true in H. rewrite H. simpl. auto.
  - intros t ->. simpl. split.
    + params_cases.
    + intro H. apply nonempty_true in H. rewrite H. rewrite !in_app_iff. simpl. auto.
  - intros b ->. rewrite !in_app_iff. simpl. destruct b; auto 10.
  - intros x -> H.
    cbn [Filters.min_price Filters.max_price Filters.category Filters.search
         Filters.in_stock].
    rewrite (nonzero_truthy x H). rewrite !in_app_iff. cbn [In]. auto.
  - intros x -> H.
    cbn [Filters.min_price Filters.max_price Filters.category Filters.search
         Filters.in_stock].
    rewrite (nonzero_truthy x H). rewrite !in_app_iff. cbn [In]. auto 10.
Qed.

(** How a price prints: a safe integer as its digits, a number with a
    fraction as the platform prints it. *)
Lemma to_string_number :
  (forall n, is_safe_integer n = true ->
     to_string Number_toString (JNumber (inject_Z n)) = Z_to_string n)
  /\ (forall x, integer_value x = None ->
        to_string Number_toString (JNumber x) = Number_toString x).
Proof.
  split.
  - intros n H. unfold to_string, integer_value, inject_Z. cbn [Qnum Qden].
    rewrite Z.rem_1_r, Z.quot_1_r. cbn. now rewrite H.
  - intros x H. unfold to_string. now rewrite H.
Qed.

End Query.

(** C4, amended.  A key that is left out adds no parameter.  The category
    and the search text are encoded exactly when they are non-empty
    strings; the stock flag is encoded exactly when its key is there, the
    value false included; a price that is a number other than zero is
    encoded, as JavaScript prints it: a safe integer as its digits, a
    number with a fraction as the platform's conversion gives it.  The
    parameters come in the order category, search, min_price, max_price,
    in_stock, and the address has a query exactly when there is a
    parameter. *)
Theorem getProducts_query (Number_toString : Q -> string) (this : StoreAPIClient.t)
    (filters : Filters.t) :
  let params := StoreAPIClient.getProducts_params Number_toString filters in
  (Filters.category filters = JUndefined -> has_param "category" params = false)
  /\ (Filters.search filters = JUndefined -> has_param "search" params = false)
  /\ (Filters.min_price filters = JUndefined -> has_param "min_price" params = false)
  /\ (Filters.max_price filters = JUndefined -> has_param "max_price" params = false)
  /\ (Filters.in_stock filters = JUndefined -> has_param "in_stock" params = false)
  /\ (forall s, Filters.category filters = JString s ->
        has_param "category" params = nonempty s /\ (s <> "" -> In ("category", s) params))
  /\ (forall s, Filters.search filters = JString s ->
        has_param "search" params = nonempty s /\ (s <> "" -> In ("search", s) params))
  /\ has_param "in_stock" params = negb (is_undefined (Filters.in_stock filters))
  /\ (forall b, Filters.in_stock filters = JBool b ->
        In ("in_stock", if b then "true" else "false") params)
  /\ (forall x, Filters.min_price filters = JNumber x -> ~ (x == 0)%Q ->
        In ("min_price", to_string Number_toString (JNumber x)) params)
  /\ (forall x, Filters.max_price filters = JNumber x -> ~ (x == 0)%Q ->
        In ("max_price", to_string Number_toString (JNumber x)) params)
  /\ (forall n, is_safe_integer n = true ->
        to_string Number_toString (JNumber (inject_Z n)) = Z_to_string n)
  /\ (forall x, integer_value x = None ->
        to_string Number_toString (JNumber x) = Number_toString x)
  /\ subseq (map fst params) ["category"; "search"; "min_price"; "max_price"; "in_stock"]
     = true
  /\ (params = [] ->
      StoreAPIClient.getProducts_url Number_toString this filters
      = (StoreAPIClient.baseUrl this ++ "/api/store/" ++ StoreAPIClient.storeSlug this
         ++ "/products")%string)
  /\ (params <> [] ->
      StoreAPIClient.getProducts_url Number_toString this filters
      = (StoreAPIClient.baseUrl this ++ "/api/store/" ++ StoreAPIClient.storeSlug this
         ++ "/products" ++ "?" ++ serialize_params params)%string).
Proof.
  intro params.
  destruct (getProducts_params_keys Number_toString filters)
    as [K1 [K2 [K3 [K4 [K5 [K6 K7]]]]]].
  destruct (getProducts_params_values Number_toString filters) as [V1 [V2 [V3 [V4 V5]]]].
  destruct (getProducts_url_query Number_toString this filters) as [U1 U2].
  destruct (to_string_number Number_toString) as [N1 N2].
  exact (conj K1 (conj K2 (conj K3 (conj K4 (conj K5 (conj V1 (conj V2 (conj K6
           (conj V3 (conj V4 (conj V5 (conj N1 (conj N2 (conj K7 (conj U1 U2))))))))))))))).
Qed.

Lemma getProducts_query_witness :
  StoreAPIClient.getProducts_url sample_Number_toString
    (StoreAPIClient.mk "https://shop.example" "pizza-palace")
    (Filters.mk (JString "Pizza & Pasta") JUndefined (JNumber (1299 # 100))
       (JNumber (inject_Z 20)) (JBool false))
  = "https://shop.example/api/store/pizza-palace/products?category=Pizza+%26+Pasta&min_price=12.99&max_price=20&in_stock=false"
  /\ In ("min_price", "12.99")
       (StoreAPIClient.getProducts_params sample_Number_toString
          (Filters.mk (JString "Pizza & Pasta") JUndefined (JNumber (1299 # 100))
             (JNumber (inject_Z 20)) (JBool false)))
  /\ In ("max_price", "20")
       (StoreAPIClient.getProducts_params sample_Number_toString
          (Filters.mk (JString "Pizza & Pasta") JUndefined (JNumber (1299 # 100))
             (JNumber (inject_Z 20)) (JBool false)))
  /\ has_param "search"
       (StoreAPIClient.getProducts_params sample_Number_toString
          (Filters.mk (JString "Pizza & Pasta") JUndefined (JNumber (1299 # 100))
             (JNumber (inject_Z 20)) (JBool false))) = false.
Proof.
  pose proof (getProducts_query sample_Number_toString
                (StoreAPIClient.mk "https://shop.example" "pizza-palace")
                (Filters.mk (JString "Pizza & Pasta") JUndefined (JNumber (1299 # 100))
                   (JNumber (inject_Z 20)) (JBool false))) as T.
  cbv zeta in T.
  destruct T as [_ [K2 [_ [_ [_ [_ [_ [_ [_ [V4 [V5 [_ [_ [_ [_ U2]]]]]]]]]]]]]]].
  split; [|split; [|split]].
  - apply U2. discriminate.
  - apply (V4 (1299 # 100)); [reflexivity | discriminate].
  - apply (V5 (inject_Z 20)); [reflexivity | discriminate].
  - apply K2. reflexivity.
Defined.

(** ** The timeout of the custom API request *)

Lemma http_error_not_timeout {A : Type} (response : Response.t A) :
  http_error response <> "Request timeout".
Proof. unfold http_error. simpl. discriminate. Qed.


Section Timeout.

Variable Body : Type.
Variable JSON_stringify : Body -> string.
Variable A : Type.

Lemma customAPIRequest_late (cfg : CustomAPIConfig.t) (endpoint : string) (o : options Body)
    (fetch : Request.t -> network A) (fetch_first : bool) :
  fetch (request_config Body JSON_stringify cfg endpoint o) = Pending
  \/ (exists at_ms outcome,
        fetch (request_config Body JSON_stringify cfg endpoint o) = Settles at_ms outcome
        /\ CustomAPIConfig.timeout cfg < at_ms) ->
  customAPIRequest Body JSON_stringify A cfg endpoint o fetch fetch_first
  = ([ConsoleError "Custom API request failed:"], Rejected "Request timeout").
Proof.
  intro H. unfold customAPIRequest, race.
  destruct H as [-> | [at_ms [outcome [-> H]]]]; [reflexivity|].
  assert (E1 : (at_ms <? CustomAPIConfig.timeout cfg) = false) by (apply Z.ltb_ge; lia).
  assert (E2 : (at_ms =? CustomAPIConfig.timeout cfg) = false) by (apply Z.eqb_neq; lia).
  now rewrite E1, E2.
Qed.

Lemma customAPIRequest_status (cfg : CustomAPIConfig.t) (endpoint : string) (o : options Body)
    (fetch : Request.t -> network A) (fetch_first : bool)
    (at_ms : Z) (response : Response.t A) :
  fetch (request_config Body JSON_stringify cfg endpoint o) = Settles at_ms (Resolved response) ->
  at_ms < CustomAPIConfig.timeout cfg ->
  Response.ok response = false ->
  let errorData_message :=
    match Response.json response with
    | Resolved body => Json.message body
    | Rejected _ => Some (Response.statusText response)
    end in
  let message := or_default errorData_message (http_error response) in
  customAPIRequest Body JSON_stringify A cfg endpoint o fetch fetch_first
  = ([ConsoleError "Custom API request failed:"], Rejected message)
  /\ (message = "Request timeout" <-> errorData_message = Some "Request timeout").
Proof.
  intros Hf Ht Hok errorData_message message. split.
  - unfold customAPIRequest, race. rewrite Hf.
    apply Z.ltb_lt in Ht. rewrite Ht. simpl. now rewrite Hok.
  - subst message. unfold or_default.
    destruct errorData_message as [m|].
    + destruct (nonempty m) eqn:E.
      * split; congruence.
      * apply nonempty_false in E. subst m. split; intro H; [|discriminate H].
        now apply http_error_not_timeout in H.
    + split; intro H; [|discriminate H].
      now apply http_error_not_timeout in H.
Qed.

End Timeout.



(** * Further properties *)

(** ** escapeHtml *)

Lemma escapeHtml_app (a b : string) :
  escapeHtml (a ++ b) = (escapeHtml a ++ escapeHtml b)%string.
Proof.
  induction a as [|c r IH]; [reflexivity|].
  simpl. now rewrite IH, append_assoc.
Qed.

Lemma escapeHtml_plain (s : string) : plain s = true -> escapeHtml s = s.
Proof.
  induction s as [|c r IH]; intro H; [reflexivity|].
  simpl in H. apply andb_true_iff in H as [Hc Hr]. apply negb_true_iff in Hc.
  unfold is_special in Hc. apply orb_false_iff in Hc as [Ha Hg].
  rewrite (escapeHtml_keeps c r Ha Hg). now rewrite (IH Hr).
Qed.

Lemma escapeHtml_changes (s : string) : escapeHtml s = s -> plain s = true.
Proof.
  induction s as [|c r IH]; intro H; [reflexivity|].
  assert (L : forall t, (String.length t <= String.length (escapeHtml t))%nat).
  { induction t as [|x t IHt]; [apply Nat.le_refl|].
    simpl. unfold escape_char.
    destruct (Ascii.eqb x "&"); [simpl; lia|].
    destruct (Ascii.eqb x "<"); [simpl; lia|].
    destruct (Ascii.eqb x ">"); simpl; lia. }
  simpl in H. unfold escape_char in H. simpl. unfold is_special, angle.
  destruct (Ascii.eqb c "&") eqn:Ea.
  { exfalso. apply (f_equal String.length) in H. simpl in H. specialize (L r). lia. }
  destruct (Ascii.eqb c "<") eqn:El.
  { exfalso. apply (f_equal String.length) in H. simpl in H. specialize (L r). lia. }
  destruct (Ascii.eqb c ">") eqn:Eg.
  { exfalso. apply (f_equal String.length) in H. simpl in H. specialize (L r). lia. }
  simpl in H. inversion H as [H']. simpl. now rewrite H', (IH H').
Qed.

Lemma unescape_escapeHtml (s : string) : unescapeHtml (escapeHtml s) = s.
Proof.
  unfold unescapeHtml. induction s as [|c r IH]; [reflexivity|].
  simpl. unfold escape_char.
  destruct (Ascii.eqb c "&") eqn:Ea.
  { apply Ascii.eqb_eq in Ea. subst c. simpl. rewrite prefix_nil. now rewrite IH. }
  destruct (Ascii.eqb c "<") eqn:El.
  { apply Ascii.eqb_eq in El. subst c. simpl. rewrite prefix_nil. now rewrite IH. }
  destruct (Ascii.eqb c ">") eqn:Eg.
  { apply Ascii.eqb_eq in Eg. subst c. simpl. rewrite prefix_nil. now rewrite IH. }
  simpl. rewrite Ea. now rewrite IH.
Qed.

Lemma escapeHtml_ascii (s : string) : ascii_text s = true -> ascii_text (escapeHtml s) = true.
Proof.
  induction s as [|c r IH]; [reflexivity|].
  simpl. intro H. apply andb_true_iff in H as [Hc Hr]. specialize (IH Hr).
  unfold escape_char.
  destruct (Ascii.eqb c "&"); [simpl; exact IH|].
  destruct (Ascii.eqb c "<"); [simpl; exact IH|].
  destruct (Ascii.eqb c ">"); [simpl; exact IH|].
  simpl. now rewrite Hc, IH.
Qed.

(** X1.  For texts of ASCII characters, escaping loses nothing: decoding
    the three references gives the text back, so that two texts with the
    same escape are the same text.  Escaping goes through concatenation,
    it leaves a text unchanged exactly when the text holds none of the
    characters ampersand and angle brackets, and what it gives is again a
    text of ASCII characters. *)
Theorem escapeHtml_faithful (a b : string) :
  ascii_text a = true -> ascii_text b = true ->
  unescapeHtml (escapeHtml a) = a
  /\ (escapeHtml a = escapeHtml b -> a = b)
  /\ escapeHtml (a ++ b) = (escapeHtml a ++ escapeHtml b)%string
  /\ (escapeHtml a = a <-> plain a = true)
  /\ ascii_text (escapeHtml a) = true.
Proof.
  intros Ha Hb.
  split; [apply unescape_escapeHtml|].
  split.
  - intro H. rewrite <- (unescape_escapeHtml a), <- (unescape_escapeHtml b).
    now rewrite H.
  - split; [apply escapeHtml_app|].
    split; [|now apply escapeHtml_ascii].
    split; [apply escapeHtml_changes | apply escapeHtml_plain].
Qed.

Lemma escapeHtml_faithful_witness :
  unescapeHtml (escapeHtml "Fish & Chips <new>") = "Fish & Chips <new>"
  /\ escapeHtml ("Fish & Chips <new>" ++ "Tea")
     = (escapeHtml "Fish & Chips <new>" ++ escapeHtml "Tea")%string
  /\ escapeHtml "Tea" = "Tea".
Proof.
  destruct (escapeHtml_faithful "Fish & Chips <new>" "Tea" eq_refl eq_refl)
    as [R [_ [C _]]].
  destruct (escapeHtml_faithful "Tea" "Tea" eq_refl eq_refl) as [_ [_ [_ [P _]]]].
  split; [exact R|]. split; [exact C|]. apply P. reflexivity.
Defined.

(** ** The size and the case of the initials *)

Lemma toUpperCase_length (s : string) : String.length (toUpperCase s) = String.length s.
Proof. induction s as [|c r IH]; simpl; [reflexivity | now rewrite IH]. Qed.

Lemma length_append (a b : string) :
  String.length (a ++ b) = (String.length a + String.length b)%nat.
Proof. induction a as [|c r IH]; simpl; [reflexivity | now rewrite IH]. Qed.

Lemma substring_length_le (n : nat) (s : string) :
  (String.length (substring 0 n s) <= n)%nat.
Proof.
  revert s. induction n as [|n IH]; intro s.
  - destruct s; simpl; lia.
  - destruct s as [|c r]; simpl; [lia|]. specialize (IH r). lia.
Qed.

Lemma charAt0_length (s : string) : (String.length (charAt0 s) <= 1)%nat.
Proof. destruct s; simpl; lia. Qed.

Lemma upper_char_not_lower (c : ascii) : is_lower (upper_char c) = false.
Proof. destruct c as [[] [] [] [] [] [] [] []]; reflexivity. Qed.

Lemma toUpperCase_no_lower (s : string) : no_lower (toUpperCase s) = true.
Proof.
  induction s as [|c r IH]; [reflexivity|].
  simpl. now rewrite upper_char_not_lower, IH.
Qed.

(** X2.  For every name of ASCII characters, the initials are at most two
    characters long and hold no lower-case letter. *)
Theorem generateInitials_bounds (name : string) :
  ascii_text name = true ->
  (String.length (generateInitials name) <= 2)%nat
  /\ no_lower (generateInitials name) = true.
Proof.
  intros _. unfold generateInitials.
  destruct (nonempty name) eqn:Hne; simpl.
  2: { split; [lia | reflexivity]. }
  destruct (List.length (split_ws (trim name)) =? 1)%nat.
  - split.
    + rewrite toUpperCase_length. apply substring_length_le.
    + apply toUpperCase_no_lower.
  - split.
    + rewrite toUpperCase_length, length_append.
      pose proof (charAt0_length (nth 0 (split_ws (trim name)) "")).
      pose proof (charAt0_length (nth 1 (split_ws (trim name)) "")). lia.
    + apply toUpperCase_no_lower.
Qed.

Lemma generateInitials_bounds_witness :
  (String.length (generateInitials "pizza palace") <= 2)%nat
  /\ no_lower (generateInitials "pizza palace") = true.
Proof. exact (generateInitials_bounds "pizza palace" eq_refl). Defined.

(** ** What the templates interpolate *)

Lemma text_pieces_app (a b : markup) : text_pieces (a ++ b) = text_pieces a ++ text_pieces b.
Proof. apply flat_map_app. Qed.

Lemma attr_pieces_app (a b : markup) : attr_pieces (a ++ b) = attr_pieces a ++ attr_pieces b.
Proof. apply flat_map_app. Qed.

Lemma text_pieces_join {X : Type} (f : X -> markup) (l : list X) :
  text_pieces (join (map f l)) = flat_map (fun x => text_pieces (f x)) l.
Proof.
  induction l as [|x l IH]; [reflexivity|].
  simpl. now rewrite text_pieces_app, IH.
Qed.

Lemma attr_pieces_join {X : Type} (f : X -> markup) (l : list X) :
  attr_pieces (join (map f l)) = flat_map (fun x => attr_pieces (f x)) l.
Proof.
  induction l as [|x l IH]; [reflexivity|].
  simpl. now rewrite attr_pieces_app, IH.
Qed.

Lemma flat_map_singleton {X Y : Type} (f : X -> Y) (l : list X) :
  flat_map (fun x => [f x]) l = map f l.
Proof. induction l as [|x l IH]; simpl; [reflexivity | now rewrite IH]. Qed.

Lemma flat_map_none {X Y : Type} (l : list X) : flat_map (fun _ => @nil Y) l = [].
Proof. induction l as [|x l IH]; simpl; [reflexivity | exact IH]. Qed.

Lemma text_pieces_when (o : option string) (f : string -> markup) :
  text_pieces (when_truthy o f) = flat_map (fun s => text_pieces (f s)) (truthy_list o).
Proof.
  destruct o as [s|]; simpl; [|reflexivity].
  destruct (nonempty s); simpl; [now rewrite app_nil_r | reflexivity].
Qed.

Lemma attr_pieces_when (o : option string) (f : string -> markup) :
  attr_pieces (when_truthy o f) = flat_map (fun s => attr_pieces (f s)) (truthy_list o).
Proof.
  destruct o as [s|]; simpl; [|reflexivity].
  destruct (nonempty s); simpl; [now rewrite app_nil_r | reflexivity].
Qed.

(** X3.  The header interpolates, into element content, the initials, the
    store name, the description when there is one and the platform of each
    enabled social link, in this order and each of them escaped; into
    attribute values, the logo address and the store name when there is a
    logo, and the address of each enabled link.  A link that is not enabled
    leaves nothing in the header. *)
Theorem renderHeader_interpolations (storeData : Store.t) :
  let storeName := or_default (Store.name storeData) "Store" in
  let links :=
    match Store.social_links storeData with
    | Some l => filter SocialLink.enabled l
    | None => []
    end in
  text_pieces (renderHeader storeData)
  = [escapeHtml (generateInitials storeName); escapeHtml storeName]
    ++ map escapeHtml (truthy_list (Store.description storeData))
    ++ map (fun link => escapeHtml (SocialLink.platform link)) links
  /\ attr_pieces (renderHeader storeData)
     = flat_map (fun logo_url => [escapeHtml logo_url; escapeHtml storeName])
         (truthy_list (Store.logo_url storeData))
       ++ map (fun link => escapeHtml (SocialLink.url link)) links.
Proof.
  intros storeName links. unfold renderHeader. fold storeName.
  split.
  - rewrite !text_pieces_app, !text_pieces_when.
    destruct (Store.social_links storeData) as [[|l0 l]|]; subst links;
      rewrite ?text_pieces_app, ?text_pieces_join; cbn [text_pieces lit text attr flat_map app];
      rewrite ?flat_map_singleton, ?flat_map_none, ?app_nil_r; try reflexivity.
  - rewrite !attr_pieces_app, !attr_pieces_when.
    destruct (Store.social_links storeData) as [[|l0 l]|]; subst links;
      rewrite ?attr_pieces_app, ?attr_pieces_join; cbn [attr_pieces lit text attr flat_map app];
      rewrite ?flat_map_singleton, ?flat_map_none, ?app_nil_r; try reflexivity.
Qed.

(** X4.  The card of a product interpolates, into element content, the
    name, the description when there is one and the tags, in this order and
    each of them escaped; a product without tags, or with an empty list of
    them, adds none.  Into attribute values go the image identifier, the
    escaped address and the escaped name when there is an image, and then
    the product identifier, twice and as it is. *)
Theorem renderProduct_interpolations
    (formatPrice : Q -> string -> string) (Date_now : Product.t -> Z)
    (storeData : Store.t) (product : Product.t) :
  let card := renderProduct formatPrice Date_now storeData product in
  let tags :=
    match Product.tags product with
    | Some l => l
    | None => []
    end in
  text_pieces card
  = [escapeHtml (Product.name product)]
    ++ map escapeHtml (truthy_list (Product.description product))
    ++ map escapeHtml tags
  /\ attr_pieces card
     = flat_map (fun image_url =>
                   [("product-img-" ++ Product.id product ++ "-"
                     ++ Z_to_string (Date_now product))%string;
                    escapeHtml image_url;
                    escapeHtml (Product.name product)])
         (truthy_list (Product.image_url product))
       ++ [Product.id product; Product.id product].
Proof.
  intros card tags. subst card tags. unfold renderProduct. split.
  - rewrite !text_pieces_app, !text_pieces_when.
    destruct (Product.image_url product) as [u|]; [destruct (nonempty u)|];
      destruct (Product.tags product) as [[|t0 t]|];
      rewrite ?text_pieces_app, ?text_pieces_join;
      cbn [text_pieces lit text attr num flat_map app];
      rewrite ?flat_map_singleton, ?flat_map_none, ?app_nil_r; reflexivity.
  - rewrite !attr_pieces_app, !attr_pieces_when. unfold truthy_list.
    destruct (Product.image_url product) as [u|]; [destruct (nonempty u)|];
      destruct (Product.tags product) as [[|t0 t]|];
      rewrite ?attr_pieces_app, ?attr_pieces_join;
      cbn [attr_pieces truthy_list lit text attr num flat_map app];
      rewrite ?flat_map_singleton, ?flat_map_none, ?app_nil_r; reflexivity.
Qed.

(** X5.  The footer shows the phone, the e-mail address and the postal
    address that the store has, in this order and escaped, and nothing of a
    field that is missing or empty; a store with none of the three gets the
    footer without the contact line. *)
Theorem renderFooter_contact (storeData : Store.t) :
  text_pieces (renderFooter storeData)
  = map escapeHtml (truthy_list (Store.phone storeData)
                    ++ truthy_list (Store.email storeData)
                    ++ truthy_list (Store.address storeData))
  /\ text_positions (no_raw_of angle) (renderFooter storeData)
  /\ (truthy (Store.phone storeData) = false ->
      truthy (Store.email storeData) = false ->
      truthy (Store.address storeData) = false ->
      html (renderFooter storeData) = q "
    <footer>
      
      <p style=`margin-top: 1rem; color: var(--text-light); font-size: 0.9rem;`>
        Powered by Suchify
      </p>
    </footer>
  ").
Proof.
  assert (E : text_pieces (renderFooter storeData)
              = map escapeHtml (truthy_list (Store.phone storeData)
                                ++ truthy_list (Store.email storeData)
                                ++ truthy_list (Store.address storeData))).
  { unfold renderFooter, truthy_list, when_truthy.
    destruct (Store.phone storeData) as [p|];
      destruct (Store.email storeData) as [e|];
      destruct (Store.address storeData) as [a|];
      repeat match goal with
        | |- context [nonempty ?x] => destruct (nonempty x)
        end;
      reflexivity. }
  split; [exact E|]. split.
  - intros s H.
    assert (I : In s (text_pieces (renderFooter storeData))).
    { unfold text_pieces. apply in_flat_map. exists (Text s). split; [exact H | now left]. }
    rewrite E in I. apply in_map_iff in I as [t [<- _]]. apply escapeHtml_no_angle.
  - unfold renderFooter, truthy, when_truthy.
    destruct (Store.phone storeData) as [p|];
      destruct (Store.email storeData) as [e|];
      destruct (Store.address storeData) as [a|];
      repeat match goal with
        | |- context [nonempty ?x] => destruct (nonempty x)
        end;
      intros; try discriminate; reflexivity.
Qed.

Lemma renderFooter_contact_witness :
  text_pieces (renderFooter (sample_store "Pizza Palace")) = []
  /\ html (renderFooter (sample_store "Pizza Palace")) = q "
    <footer>
      
      <p style=`margin-top: 1rem; color: var(--text-light); font-size: 0.9rem;`>
        Powered by Suchify
      </p>
    </footer>
  ".
Proof.
  destruct (renderFooter_contact (sample_store "Pizza Palace")) as [E [_ H]].
  split; [exact E | exact (H eq_refl eq_refl eq_refl)].
Defined.

(** ** The active button of the navigation *)

Lemma count_active_app (a b : markup) :
  count_active (a ++ b) = (count_active a + count_active b)%nat.
Proof. unfold count_active. now rewrite filter_app, length_app. Qed.

Lemma count_active_join {X : Type} (f : X -> markup) (l : list X) (hit : X -> bool) :
  (forall x, count_active (f x) = if hit x then 1%nat else 0%nat) ->
  count_active (join (map f l)) = List.length (filter hit l).
Proof.
  intro H. induction l as [|x l IH]; [reflexivity|].
  simpl. rewrite count_active_app, H, IH. now destruct (hit x).
Qed.

Lemma renderNavigation_count (categories : list Category.t) (currentCategory : string) :
  count_active (renderNavigation categories currentCategory)
  = match categories with
    | [] => 0%nat
    | _ => ((if String.eqb currentCategory "all" then 1 else 0)
            + List.length (filter (fun cat => String.eqb currentCategory (Category.name cat))
                             categories))%nat
    end.
Proof.
  unfold renderNavigation. destruct categories as [|c0 cs]; [reflexivity|].
  rewrite !count_active_app.
  rewrite (count_active_join _ _
             (fun cat => String.eqb currentCategory (Category.name cat))).
  - destruct (String.eqb currentCategory "all"); cbn; lia.
  - intro cat. rewrite !count_active_app.
    destruct (String.eqb currentCategory (Category.name cat)); reflexivity.
Qed.

Lemma filter_name_count (name : string) (categories : list Category.t) :
  NoDup (map Category.name categories) ->
  List.length (filter (fun cat => String.eqb name (Category.name cat)) categories)
  = if in_dec string_dec name (map Category.name categories) then 1%nat else 0%nat.
Proof.
  induction categories as [|c cs IH]; intro H; [reflexivity|].
  inversion H as [|? ? Hn Hd]; subst. simpl filter.
  destruct (String.eqb name (Category.name c)) eqn:E.
  - apply String.eqb_eq in E. subst name. simpl List.length. rewrite (IH Hd).
    destruct (in_dec string_dec (Category.name c) (map Category.name cs)) as [I|I];
      [contradiction|].
    destruct (in_dec string_dec (Category.name c) (map Category.name (c :: cs))) as [J|J];
      [reflexivity|]. contradiction J. now left.
  - rewrite (IH Hd). apply String.eqb_neq in E.
    destruct (in_dec string_dec name (map Category.name cs)) as [I|I];
      destruct (in_dec string_dec name (map Category.name (c :: cs))) as [J|J];
      try reflexivity.
    + contradiction J. now right.
    + destruct J as [J|J]; [congruence | contradiction].
Qed.

(** X6.  The navigation is empty for an empty list of categories.
    Otherwise it starts with the button All, which carries the class
    active exactly when all categories are selected, and holds for every
    category its button, which carries the class active exactly when the
    category has the selected name; no other piece of the navigation is
    marked active.  When the names of the categories are distinct and none
    of them is the word all, exactly one button is active if the selection
    is all or one of the names, and none is otherwise. *)
Theorem renderNavigation_active (categories : list Category.t) (currentCategory : string) :
  renderNavigation [] currentCategory = []
  /\ (categories <> [] ->
      contains (navigation_head (String.eqb currentCategory "all"))
        (renderNavigation categories currentCategory)
      /\ (forall cat,
            In cat categories ->
            contains (category_button cat (String.eqb currentCategory (Category.name cat)))
              (renderNavigation categories currentCategory))
      /\ count_active (renderNavigation categories currentCategory)
         = ((if String.eqb currentCategory "all" then 1 else 0)
            + List.length (filter (fun cat => String.eqb currentCategory (Category.name cat))
                             categories))%nat)
  /\ (categories <> [] ->
      NoDup (map Category.name categories) ->
      ~ In "all" (map Category.name categories) ->
      count_active (renderNavigation categories currentCategory)
      = if String.eqb currentCategory "all" then 1%nat
        else if in_dec string_dec currentCategory (map Category.name categories)
             then 1%nat else 0%nat).
Proof.
  split; [reflexivity|]. split.
  - intro Hne. destruct (renderNavigation_buttons categories currentCategory Hne) as [H1 H2].
    split; [exact H1|]. split; [exact H2|].
    rewrite renderNavigation_count. destruct categories; [congruence | reflexivity].
  - intros Hne Hd Hall.
    rewrite renderNavigation_count. destruct categories as [|c0 cs]; [congruence|].
    rewrite (filter_name_count currentCategory (c0 :: cs) Hd).
    destruct (String.eqb currentCategory "all") eqn:E; [|reflexivity].
    apply String.eqb_eq in E. subst currentCategory.
    destruct (in_dec string_dec "all" (map Category.name (c0 :: cs)));
      [contradiction | reflexivity].
Qed.

Lemma renderNavigation_active_witness :
  count_active (renderNavigation [Category.mk "Pizza" (Some 2); Category.mk "Drinks" None] "Drinks")
  = 1%nat
  /\ contains (category_button (Category.mk "Drinks" None) true)
       (renderNavigation [Category.mk "Pizza" (Some 2); Category.mk "Drinks" None] "Drinks")
  /\ contains (category_button (Category.mk "Pizza" (Some 2)) false)
       (renderNavigation [Category.mk "Pizza" (Some 2); Category.mk "Drinks" None] "Drinks")
  /\ contains (navigation_head false)
       (renderNavigation [Category.mk "Pizza" (Some 2); Category.mk "Drinks" None] "Drinks").
Proof.
  destruct (renderNavigation_active
              [Category.mk "Pizza" (Some 2); Category.mk "Drinks" None] "Drinks")
    as [_ [B C]].
  assert (N : [Category.mk "Pizza" (Some 2); Category.mk "Drinks" None] <> [])
    by discriminate.
  destruct (B N) as [B1 [B2 _]].
  split; [|split; [|split]].
  - apply (C N).
    + repeat constructor; simpl; intuition discriminate.
    + simpl. intuition discriminate.
  - apply (B2 (Category.mk "Drinks" None)). right. now left.
  - apply (B2 (Category.mk "Pizza" (Some 2))). now left.
  - exact B1.
Defined.

(** ** The cart panel *)

Lemma fold_left_quantity (items : list CartItem.t) (a : Z) :
  fold_left (fun sum item => sum + CartItem.quantity item) items a
  = a + fold_left (fun sum item => sum + CartItem.quantity item) items 0.
Proof.
  revert a. induction items as [|i l IH]; intro a; simpl; [lia|].
  rewrite (IH (a + CartItem.quantity i)), (IH (CartItem.quantity i)). lia.
Qed.

Lemma cartCount_positive (c : Cart.t) :
  Forall (fun item => 0 < CartItem.quantity item) (Cart.items c) ->
  Cart.items c <> [] -> 0 < cartCount c.
Proof.
  unfold cartCount. destruct c as [items st tx tt]. simpl.
  induction items as [|i l IH]; intros H Hne; [congruence|].
  inversion H as [|? ? Hi Hl]; subst. simpl.
  rewrite fold_left_quantity. destruct l as [|j l'].
  - simpl. lia.
  - assert (0 < fold_left (fun sum item => sum + CartItem.quantity item) (j :: l') 0)
      by (apply IH; [exact Hl | discriminate]).
    lia.
Qed.

Section CartPanel.

Variable formatPrice : Q -> string -> string.

(** X7.  updateCartDisplay writes the server's cart into the elements that
    are there and creates none but the count badge (inside the cart button,
    when that is there): the lines, the total formatted from the total of
    the cart, the state of the checkout button.  Done twice it does what it
    does once.  When every line has a positive quantity, the badge is there
    exactly when the cart has a line, that is, exactly when the checkout
    button is enabled. *)
Theorem updateCartDisplay_panel (s : session) :
  let s' := updateCartDisplay formatPrice s in
  updateCartDisplay formatPrice s' = s'
  /\ cart s' = cart s /\ trace s' = trace s
  /\ Dom.cart_items (dom s')
     = option_map (fun _ => renderCartItems formatPrice (storeData s) (cart s))
         (Dom.cart_items (dom s))
  /\ Dom.cart_total (dom s')
     = option_map (fun _ => formatPrice (Cart.total (cart s)) (currency_of (storeData s)))
         (Dom.cart_total (dom s))
  /\ Dom.checkout_btn (dom s')
     = option_map (fun _ => match Cart.items (cart s) with [] => true | _ => false end)
         (Dom.checkout_btn (dom s))
  /\ (Dom.cart (dom s) = false -> Dom.cart_count (dom s) = None ->
      Dom.cart_count (dom s') = None)
  /\ (Forall (fun item => 0 < CartItem.quantity item) (Cart.items (cart s)) ->
      Dom.cart (dom s) = true ->
      Dom.cart_count (dom s')
      = match Cart.items (cart s) with
        | [] => None
        | _ => Some (Z_to_string (cartCount (cart s)))
        end).
Proof.
  intro s'. subst s'. destruct s as [a sd ps cs pr c cc d t].
  destruct d as [ti co ma bu ci cb cn ct ch cp ov].
  unfold updateCartDisplay, set_dom. cbn -[cartCount renderCartItems Z.ltb].
  split.
  { destruct ci, cn, cb, ct, ch, (0 <? cartCount c); reflexivity. }
  split; [reflexivity|]. split; [reflexivity|].
  split; [now destruct ci|]. split; [now destruct ct|]. split; [now destruct ch|].
  split.
  - intros -> ->. now destruct (0 <? cartCount c).
  - intros H ->. destruct (Cart.items c) as [|i l] eqn:E.
    + unfold cartCount. rewrite E. reflexivity.
    + assert (P : 0 < cartCount c)
        by (apply cartCount_positive; [now rewrite E | congruence]).
      apply Z.ltb_lt in P. rewrite P. now destruct cn.
Qed.

End CartPanel.

Lemma updateCartDisplay_panel_witness :
  Dom.cart_count (dom (updateCartDisplay sample_formatPrice shopping)) = Some "2"
  /\ Dom.cart_count
       (dom (updateCartDisplay sample_formatPrice
               (mkSession true None [] [] [] emptyCart "all" emptyDomWithoutCart [])))
     = None.
Proof.
  split.
  - refine (proj2 (proj2 (proj2 (proj2 (proj2 (proj2 (proj2
              (updateCartDisplay_panel sample_formatPrice shopping))))))) _ _).
    + repeat constructor.
    + reflexivity.
  - refine (proj1 (proj2 (proj2 (proj2 (proj2 (proj2 (proj2
              (updateCartDisplay_panel sample_formatPrice
                 (mkSession true None [] [] [] emptyCart "all" emptyDomWithoutCart []))))))))
              _ _); reflexivity.
Defined.

(** ** Adding to the cart *)

Section CartHandlers.

Variable formatPrice : Q -> string -> string.

(** X8.  A call of addToCart that the server answers with a cart makes
    that cart the cart of the session, whatever the cart was, so that of
    two answered calls the later answer stays.  The panel shows the lines
    and the formatted total of the answer, nobody is alerted, one call with
    quantity one was made, and the button of the product ends enabled and
    labelled Add to Cart.  Without an API client the call changes nothing
    but the console. *)
Theorem addToCart_success (productId : string) (c : Cart.t) (s : session) :
  let s' := addToCart formatPrice productId (Resolved c) s in
  (api s = true ->
   cart s' = c
   /\ api_calls (trace s') = api_calls (trace s) ++ [ApiAddToCart productId 1]
   /\ alerts (trace s') = alerts (trace s)
   /\ Dom.cart_items (dom s')
      = option_map (fun _ => renderCartItems formatPrice (storeData s) c)
          (Dom.cart_items (dom s))
   /\ Dom.cart_total (dom s')
      = option_map (fun _ => formatPrice (Cart.total c) (currency_of (storeData s)))
          (Dom.cart_total (dom s))
   /\ Dom.buttons (dom s')
      = update_button productId
          (fun b => Button.mk (Button.data_product_id b) false "Add to Cart")
          (Dom.buttons (dom s))
   /\ forall productId2 c2,
        cart (addToCart formatPrice productId2 (Resolved c2) s') = c2)
  /\ (api s = false ->
      cart s' = cart s /\ dom s' = dom s
      /\ trace s' = trace s ++ [ConsoleError "API client not available"]).
Proof.
  intro s'. subst s'. split; intro Hapi.
  - unfold addToCart. rewrite Hapi. cbn [negb].
    split; [reflexivity|]. split.
    { cbn. rewrite !api_calls_app. cbn. rewrite ?app_nil_r; reflexivity. }
    split.
    { cbn. rewrite !alerts_app. cbn. rewrite ?app_nil_r; reflexivity. }
    split.
    { cbn. now destruct (Dom.cart_items (dom s)). }
    split.
    { cbn. now destruct (Dom.cart_total (dom s)). }
    split.
    { cbn. apply update_button_twice. }
    intros productId2 c2. cbn. now rewrite Hapi.
  - unfold addToCart. rewrite Hapi. cbn. repeat split.
Qed.

(** X9.  Every line of the cart is drawn with its controls: a minus button
    that asks for the quantity less one and a plus button that asks for the
    quantity plus one, for the product of the line.  For a line with
    quantity one or less, what the minus button asks for calls nothing and
    leaves the cart as it is: the panel cannot take a line away. *)
Theorem cart_line_minus_is_noop (storeData : option Store.t) (cart0 : Cart.t)
    (item : CartItem.t) :
  In item (Cart.items cart0) ->
  contains (cart_line_controls (CartItem.product_id item) (CartItem.quantity item))
    (renderCartItems formatPrice storeData cart0)
  /\ (CartItem.quantity item <= 1 ->
      forall reply s,
        let s' := updateCartQuantity formatPrice (CartItem.product_id item)
                    (CartItem.quantity item - 1) reply s in
        cart s' = cart s /\ dom s' = dom s /\ api_calls (trace s') = api_calls (trace s)).
Proof.
  intro I. split.
  - unfold renderCartItems. destruct (Cart.items cart0) as [|i0 l] eqn:E; [contradiction|].
    apply (contains_join _ _ _ item I).
    unfold cart_line_controls. do 6 apply contains_skip. apply contains_self.
  - intros H reply s s'. subst s'. unfold updateCartQuantity.
    assert (L : (CartItem.quantity item - 1 <=? 0) = true) by (apply Z.leb_le; lia).
    rewrite L. destruct (api s); cbn; rewrite ?api_calls_app; cbn;
      rewrite ?app_nil_r; repeat split; reflexivity.
Qed.

End CartHandlers.

Lemma addToCart_success_witness :
  cart (addToCart sample_formatPrice "p1" (Resolved emptyCart) shopping) = emptyCart
  /\ Dom.cart_total (dom (addToCart sample_formatPrice "p1" (Resolved emptyCart) shopping))
     = Some "USD 0/1"
  /\ cart (addToCart sample_formatPrice "p1" (Resolved emptyCart)
             (mkSession false None [] [] [] sample_cart "all" emptyDomWithoutCart []))
     = sample_cart.
Proof.
  pose proof (addToCart_success sample_formatPrice "p1" emptyCart shopping) as T.
  cbv zeta in T. destruct T as [T _]. destruct (T eq_refl) as [C [_ [_ [_ [P _]]]]].
  split; [exact C|]. split; [exact P|].
  exact (proj1 (proj2 (addToCart_success sample_formatPrice "p1" emptyCart
                         (mkSession false None [] [] [] sample_cart "all"
                            emptyDomWithoutCart [])) eq_refl)).
Defined.

Lemma cart_line_minus_is_noop_witness :
  contains (cart_line_controls "p1" 1)
    (renderCartItems sample_formatPrice None
       (Cart.mk [CartItem.mk "p1" "Margherita" 1 (17 # 2)] 0 0 0))
  /\ cart (updateCartQuantity sample_formatPrice "p1" 0 (Resolved emptyCart) shopping)
     = sample_cart.
Proof.
  pose proof (cart_line_minus_is_noop sample_formatPrice None
                (Cart.mk [CartItem.mk "p1" "Margherita" 1 (17 # 2)] 0 0 0)
                (CartItem.mk "p1" "Margherita" 1 (17 # 2)) (or_introl eq_refl)) as [C N].
  split; [exact C|].
  assert (H : CartItem.quantity (CartItem.mk "p1" "Margherita" 1 (17 # 2)) <= 1)
    by (simpl; lia).
  exact (proj1 (N H (Resolved emptyCart) shopping)).
Defined.

(** ** The checkout form *)

Lemma html_checkoutModal (storeData : option Store.t) :
  html (checkoutModal storeData)
  = (before_delivery_select
     ++ delivery_select (store_enables Configuration.delivery_enabled storeData)
          (store_enables Configuration.pickup_enabled storeData)
     ++ after_delivery_select)%string.
Proof.
  unfold checkoutModal, store_enables.
  destruct storeData as [sd|]; [destruct (Store.configuration sd) as [c|]|];
    try (destruct (Configuration.delivery_enabled c), (Configuration.pickup_enabled c));
    reflexivity.
Qed.

(** X10.  With an API client and a cart that has a line, handleCheckout
    opens one more checkout form and does nothing else: no call, no alert,
    the cart as it was.  The form offers delivery exactly when the store
    enables delivery and pickup exactly when the store enables pickup; for
    a store without configuration (or before the store is loaded) the
    required choice of the delivery method has no option at all. *)
Theorem handleCheckout_opens_form (s : session) :
  api s = true -> Cart.items (cart s) <> [] ->
  let s' := handleCheckout s in
  Dom.overlays (dom s')
  = Dom.overlays (dom s) ++ [(checkoutModal (storeData s), Button.mk "" false "Place Order")]
  /\ trace s' = trace s
  /\ cart s' = cart s
  /\ html (checkoutModal (storeData s))
     = (before_delivery_select
        ++ delivery_select (store_enables Configuration.delivery_enabled (storeData s))
             (store_enables Configuration.pickup_enabled (storeData s))
        ++ after_delivery_select)%string
  /\ ((storeData s = None
       \/ exists sd, storeData s = Some sd /\ Store.configuration sd = None) ->
      html (checkoutModal (storeData s))
      = (before_delivery_select ++ delivery_select false false
         ++ after_delivery_select)%string).
Proof.
  intros Hapi Hne s'. subst s'. unfold handleCheckout. rewrite Hapi. cbn [negb].
  destruct (Cart.items (cart s)) as [|i l]; [congruence|].
  split; [reflexivity|]. split; [reflexivity|]. split; [reflexivity|].
  split; [apply html_checkoutModal|].
  intro H. rewrite html_checkoutModal. unfold store_enables.
  destruct H as [-> | [sd [-> ->]]]; reflexivity.
Qed.

Lemma handleCheckout_opens_form_witness :
  Dom.overlays (dom (handleCheckout shopping))
  = [(checkoutModal (storeData shopping), Button.mk "" false "Place Order")]
  /\ html (checkoutModal (storeData shopping))
     = (before_delivery_select ++ delivery_select false false ++ after_delivery_select)%string.
Proof.
  pose proof (handleCheckout_opens_form shopping eq_refl) as T.
  assert (N : Cart.items (cart shopping) <> []) by discriminate.
  specialize (T N). cbv zeta in T. destruct T as [O [_ [_ [_ M]]]].
  split; [exact O|]. apply M. right. eexists. split; reflexivity.
Defined.

Section Submission.

Variable formatPrice : Q -> string -> string.

Lemma submitCheckout_order (formData : FormData.t) (reply : result Order.t) (s : session) :
  api s = true ->
  exists orderData,
    match reply with
    | Resolved order =>
        if truthy (Order.tracking_url order) then
          trace (submitCheckout formatPrice formData reply s)
          = trace s ++ [ApiCheckout orderData;
                        Alert ("Order placed successfully! Order number: "
                               ++ Order.order_number order)%string;
                        Navigate (or_default (Order.tracking_url order) "")]
        else
          trace (submitCheckout formatPrice formData reply s)
          = trace s ++ [ApiCheckout orderData;
                        Alert ("Order placed successfully! Order number: "
                               ++ Order.order_number order)%string]
    | Rejected message =>
        trace (submitCheckout formatPrice formData reply s)
        = trace s ++ [ApiCheckout orderData;
                      ConsoleError "Error during checkout:";
                      Alert ("Checkout failed: "
                             ++ (if nonempty message then message
                                 else "Please try again."))%string]
    end
    /\ OrderData.cart_items orderData
       = map (fun item => OrderItem.mk (CartItem.product_id item) (CartItem.quantity item)
                            (CartItem.unit_price item))
             (Cart.items (cart s))
    /\ OrderData.customer_name orderData = FormData.customer_name formData
    /\ OrderData.customer_email orderData = FormData.customer_email formData
    /\ OrderData.delivery_address orderData
       = or_default (FormData.delivery_address formData) ""
    /\ OrderData.promotion_code orderData
       = or_default (FormData.promotion_code formData) "".
Proof.
  intro Hapi. unfold submitCheckout. rewrite Hapi. cbn [negb].
  eexists. split.
  - destruct reply as [order|message];
      [destruct (truthy (Order.tracking_url order))|];
      rewrite ?trace_toggleCart, ?trace_updateCartDisplay, ?trace_set_cart,
        ?trace_set_overlays, ?trace_submit_button, ?trace_log, ?trace_submit_button;
      rewrite <- ?app_assoc; reflexivity.
  - repeat split.
Qed.

(** The first overlay with its submit button set. *)
Lemma overlays_submit_button (disabled : bool) (textContent : string) (s : session) :
  Dom.overlays (dom (submit_button disabled textContent s))
  = match Dom.overlays (dom s) with
    | (m, b) :: rest => (m, Button.mk (Button.data_product_id b) disabled textContent) :: rest
    | [] => []
    end.
Proof.
  unfold submit_button.
  destruct (Dom.overlays (dom s)) as [|[m b] rest] eqn:E; [exact E | reflexivity].
Qed.

Lemma panel_submit_button (disabled : bool) (textContent : string) (s : session) :
  Dom.cart_panel (dom (submit_button disabled textContent s)) = Dom.cart_panel (dom s)
  /\ Dom.checkout_btn (dom (submit_button disabled textContent s))
     = Dom.checkout_btn (dom s)
  /\ Dom.cart (dom (submit_button disabled textContent s)) = Dom.cart (dom s)
  /\ Dom.cart_count (dom (submit_button disabled textContent s)) = Dom.cart_count (dom s).
Proof.
  unfold submit_button.
  destruct (Dom.overlays (dom s)) as [|[m b] rest]; repeat split.
Qed.

(** X11.  An order that the server accepts is announced with its number.
    When the answer carries no tracking address, the cart becomes the
    empty cart, the first checkout form is taken away, the cart panel is
    toggled, the count badge goes and the checkout button is disabled.
    When it carries one, the page is sent there and the cart is left as it
    was.  Either way one checkout call was made, with the lines of the cart
    as they were at the submission. *)
Theorem submitCheckout_accepted (formData : FormData.t) (order : Order.t) (s : session) :
  api s = true ->
  let s' := submitCheckout formatPrice formData (Resolved order) s in
  (truthy (Order.tracking_url order) = false ->
   cart s' = emptyCart
   /\ Dom.overlays (dom s') = tl (Dom.overlays (dom s))
   /\ Dom.cart_panel (dom s') = option_map negb (Dom.cart_panel (dom s))
   /\ Dom.cart_count (dom s') = None
   /\ Dom.checkout_btn (dom s') = option_map (fun _ => true) (Dom.checkout_btn (dom s))
   /\ alerts (trace s')
      = alerts (trace s)
        ++ [("Order placed successfully! Order number: " ++ Order.order_number order)%string])
  /\ (truthy (Order.tracking_url order) = true ->
      cart s' = cart s
      /\ In (Navigate (or_default (Order.tracking_url order) "")) (trace s')
      /\ alerts (trace s')
         = alerts (trace s)
           ++ [("Order placed successfully! Order number: "
                ++ Order.order_number order)%string])
  /\ exists orderData,
       api_calls (trace s') = api_calls (trace s) ++ [ApiCheckout orderData]
       /\ OrderData.cart_items orderData
          = map (fun item => OrderItem.mk (CartItem.product_id item) (CartItem.quantity item)
                               (CartItem.unit_price item))
                (Cart.items (cart s)).
Proof.
  intros Hapi s'.
  destruct (submitCheckout_order formData (Resolved order) s Hapi)
    as [orderData [Ht [Hitems _]]].
  fold s' in Ht. split; [|split].
  - intro Hu. rewrite Hu in Ht. subst s'. unfold submitCheckout. rewrite Hapi, Hu.
    cbn [negb]. split; [reflexivity|]. split.
    { cbn. rewrite overlays_submit_button.
      now destruct (Dom.overlays (dom s)) as [|[m b] rest]. }
    pose proof (panel_submit_button true "Processing..." s) as [Hp [Hc _]].
    split; [cbn; now rewrite Hp|]. split; [reflexivity|].
    split; [cbn; rewrite Hc; now destruct (Dom.checkout_btn (dom s))|].
    unfold submitCheckout in Ht. rewrite Hapi, Hu in Ht. cbn [negb] in Ht.
    rewrite Ht, alerts_app. cbn. rewrite ?app_nil_r. reflexivity.
  - intro Hu. rewrite Hu in Ht. split.
    { subst s'. unfold submitCheckout. rewrite Hapi, Hu. cbn [negb]. cbn.
      apply cart_submit_button. }
    split.
    { rewrite Ht. apply in_or_app. right. cbn. auto. }
    rewrite Ht, alerts_app. cbn. rewrite ?app_nil_r. reflexivity.
  - exists orderData. split; [|exact Hitems].
    destruct (truthy (Order.tracking_url order)); rewrite Ht, api_calls_app; cbn;
      reflexivity.
Qed.

(** X12.  A checkout that fails leaves the cart and the number of forms as
    they were, gives the submit button of the form back, enabled and
    labelled Place Order, and alerts with the message of the error, or
    with the words Please try again when the error has none. *)
Theorem submitCheckout_refused (formData : FormData.t) (message : string) (s : session) :
  api s = true ->
  let s' := submitCheckout formatPrice formData (Rejected message) s in
  cart s' = cart s
  /\ Dom.overlays (dom s')
     = match Dom.overlays (dom s) with
       | (m, b) :: rest => (m, Button.mk (Button.data_product_id b) false "Place Order") :: rest
       | [] => []
       end
  /\ Dom.cart_panel (dom s') = Dom.cart_panel (dom s)
  /\ alerts (trace s')
     = alerts (trace s)
       ++ [("Checkout failed: "
            ++ (if nonempty message then message else "Please try again."))%string]
  /\ exists orderData,
       api_calls (trace s') = api_calls (trace s) ++ [ApiCheckout orderData].
Proof.
  intros Hapi s'.
  destruct (submitCheckout_order formData (Rejected message) s Hapi) as [orderData [Ht _]].
  fold s' in Ht. subst s'. unfold submitCheckout in *. rewrite Hapi in *. cbn [negb] in *.
  split.
  { rewrite cart_submit_button. cbn. apply cart_submit_button. }
  split.
  { rewrite overlays_submit_button. cbn. rewrite overlays_submit_button.
    now destruct (Dom.overlays (dom s)) as [|[m b] rest]. }
  split.
  { rewrite (proj1 (panel_submit_button _ _ _)). cbn.
    apply (proj1 (panel_submit_button _ _ _)). }
  split.
  { rewrite Ht, alerts_app. cbn. reflexivity. }
  exists orderData. rewrite Ht, api_calls_app. cbn. reflexivity.
Qed.

End Submission.

Lemma submitCheckout_accepted_witness :
  cart (submitCheckout sample_formatPrice sample_form (Resolved (Order.mk "ORD-1" None))
          (handleCheckout shopping)) = emptyCart
  /\ Dom.overlays (dom (submitCheckout sample_formatPrice sample_form
                          (Resolved (Order.mk "ORD-1" None)) (handleCheckout shopping))) = []
  /\ cart (submitCheckout sample_formatPrice sample_form
             (Resolved (Order.mk "ORD-1" (Some "/track/ORD-1"))) (handleCheckout shopping))
     = sample_cart.
Proof.
  pose proof (submitCheckout_accepted sample_formatPrice sample_form (Order.mk "ORD-1" None)
                (handleCheckout shopping) eq_refl) as T.
  cbv zeta in T. destruct T as [T _]. destruct (T eq_refl) as [C [O _]].
  split; [exact C|]. split; [exact O|].
  exact (proj1 (proj1 (proj2 (submitCheckout_accepted sample_formatPrice sample_form
                                (Order.mk "ORD-1" (Some "/track/ORD-1"))
                                (handleCheckout shopping) eq_refl)) eq_refl)).
Defined.

Lemma submitCheckout_refused_witness :
  cart (submitCheckout sample_formatPrice sample_form (Rejected "") (handleCheckout shopping))
  = sample_cart
  /\ alerts (trace (submitCheckout sample_formatPrice sample_form (Rejected "")
                      (handleCheckout shopping)))
     = ["Checkout failed: Please try again."].
Proof.
  pose proof (submitCheckout_refused sample_formatPrice sample_form ""
                (handleCheckout shopping) eq_refl) as T.
  cbv zeta in T. destruct T as [C [_ [_ [A _]]]].
  split; [exact C | exact A].
Defined.

(** ** The start of the theme *)

Section Start.

Variable formatPrice : Q -> string -> string.
Variable Date_now : Product.t -> Z.

(** X13.  Started without an API client, the theme asks the server
    nothing, loads nothing and alerts nobody; it writes the configuration
    error into the container when there is one.  Started with a client but
    without a container, it asks nothing either and leaves the document as
    it is.  With both, it goes on to the first load. *)
Theorem initTheme_guards (store : result Store.t) (productsData : result (list Product.t))
    (categoriesData : result (list Category.t)) (promotionsData : result (list Promotion.t))
    (hook : custom_api) (s : session) :
  let start (apiClient : bool) :=
    initTheme formatPrice Date_now apiClient store productsData categoriesData
      promotionsData hook s in
  (api_calls (trace (start false)) = api_calls (trace s)
   /\ alerts (trace (start false)) = alerts (trace s)
   /\ storeData (start false) = storeData s
   /\ Dom.container (dom (start false))
      = option_map
          (fun _ => lit "<div class=`error`>API client not available. Please check your theme configuration.</div>")
          (Dom.container (dom s)))
  /\ (Dom.container (dom s) = None ->
      trace (start true) = trace s ++ [ConsoleError "Theme container not found"]
      /\ dom (start true) = dom s
      /\ storeData (start true) = storeData s)
  /\ (Dom.container (dom s) <> None ->
      start true
      = loadStoreData formatPrice Date_now store productsData categoriesData promotionsData
          hook (set_api true s)).
Proof.
  intro start. subst start. unfold initTheme. cbn [api set_api negb log dom].
  split; [|split].
  - destruct (Dom.container (dom s)) as [m|] eqn:E;
      cbn [trace set_page set_dom log set_api dom Dom.container storeData option_map];
      rewrite ?api_calls_app, ?alerts_app; cbn; rewrite ?app_nil_r, ?E; repeat split.
  - intros ->. repeat split.
  - intro E. destruct (Dom.container (dom s)); [reflexivity | congruence].
Qed.

(** X14.  The first load asks for the store, the products, the categories
    and the promotions, once each and in this order, whatever the answers
    are and whatever the custom hook does: an answer that is refused is not
    asked for again. *)
Theorem loadStoreData_requests (store : result Store.t)
    (productsData : result (list Product.t)) (categoriesData : result (list Category.t))
    (promotionsData : result (list Promotion.t)) (hook : custom_api) (s : session) :
  api s = true ->
  api_calls (trace (loadStoreData formatPrice Date_now store productsData categoriesData
                      promotionsData hook s))
  = api_calls (trace s) ++ first_load_requests.
Proof.
  intro Hapi. unfold loadStoreData. cbn [api set_page set_dom]. rewrite Hapi. cbn [negb].
  destruct store as [st|], productsData as [ps|], categoriesData as [cs|];
    try destruct hook;
    try (destruct (Store.name st) as [n|]; [destruct (nonempty n)|]);
    cbn; rewrite !api_calls_app; cbn; rewrite ?app_nil_r, <- ?app_assoc; reflexivity.
Qed.

(** X15.  When the store, the products and the categories arrive, they are
    stored in the session, with the promotions that arrived or the empty
    list, and the title of the document becomes the name of the store if it
    has one.  This holds also when the custom hook throws; the container
    then shows the error view and none of the theme. *)
Theorem loadStoreData_stores (store : Store.t) (productsData : list Product.t)
    (categoriesData : list Category.t) (promotionsData : result (list Promotion.t))
    (hook : custom_api) (s : session) :
  api s = true ->
  let s' := loadStoreData formatPrice Date_now (Resolved store) (Resolved productsData)
              (Resolved categoriesData) promotionsData hook s in
  storeData s' = Some store
  /\ products s' = productsData
  /\ categories s' = categoriesData
  /\ promotions s' = match promotionsData with Resolved l => l | Rejected _ => [] end
  /\ Dom.title (dom s') = title_after store (Dom.title (dom s))
  /\ cart s' = cart s
  /\ (hook = HookThrows ->
      Dom.container (dom s')
      = Some (showError "Failed to load store data. Please try again later.")
      /\ Dom.main (dom s') = None
      /\ Dom.buttons (dom s') = []
      /\ In InitializeCustomFeatures (trace s')
      /\ In (ConsoleError "Error loading store data:") (trace s')).
Proof.
  intros Hapi s'. subst s'. unfold loadStoreData, title_after.
  cbn [api set_page set_dom]. rewrite Hapi. cbn [negb].
  destruct hook; (destruct (Store.name store) as [n|]; [destruct (nonempty n)|]);
    cbn; (do 6 (split; [reflexivity|])); intro H; try discriminate H;
    repeat split; rewrite ?in_app_iff; cbn; auto 10.
Qed.

(** X16.  A click on a category selects it and touches neither the cart
    nor the server nor the user: of two clicks the later one decides what
    is selected and what the product grid shows. *)
Theorem selectCategory_last_wins (first second : string) (s : session) :
  selectCategory formatPrice Date_now second (selectCategory formatPrice Date_now first s)
  = selectCategory formatPrice Date_now second s
  /\ currentCategory (selectCategory formatPrice Date_now second s) = second
  /\ cart (selectCategory formatPrice Date_now second s) = cart s
  /\ trace (selectCategory formatPrice Date_now second s) = trace s
  /\ Dom.container (dom (selectCategory formatPrice Date_now second s))
     = Dom.container (dom s).
Proof.
  destruct s as [a sd ps cs pr c cc [ti co ma bu ci cb cn ct ch cp ov] t].
  unfold selectCategory. cbn -[renderProducts renderPromotions filterProducts].
  destruct ma as [m|], sd as [st|];
    cbn -[renderProducts renderPromotions filterProducts]; repeat split.
Qed.

End Start.

(** ** The fallback of an image *)

(** X17.  The image handler acts once: on an image whose flag is not set
    it sets the flag, takes the error handler away and puts the placeholder
    in, or hides the image and keeps its source when the assignment throws;
    an image whose flag is set is left as it is.  However often the handler
    runs and with whatever placeholders, the image ends as after the first
    run. *)
Theorem handleImageError_once (img : Image.t) (placeholder : string) (throws : bool)
    (later : list (string * bool)) :
  handleImageErrors img ((placeholder, throws) :: later)
  = handleImageError img placeholder throws
  /\ Image.fallbackSet (handleImageError img placeholder throws) = true
  /\ (Image.fallbackSet img = false ->
      Image.onerror (handleImageError img placeholder throws) = false
      /\ Image.src (handleImageError img placeholder throws)
         = (if throws then Image.src img else placeholder)
      /\ Image.hidden (handleImageError img placeholder throws)
         = (throws || Image.hidden img))
  /\ (Image.fallbackSet img = true -> handleImageError img placeholder throws = img).
Proof.
  assert (F : forall l i, Image.fallbackSet i = true -> handleImageErrors i l = i).
  { induction l as [|p l IH]; intros i H; [reflexivity|].
    unfold handleImageErrors. simpl. unfold handleImageError at 2. rewrite H. now apply IH. }
  assert (S : Image.fallbackSet (handleImageError img placeholder throws) = true).
  { unfold handleImageError.
    destruct (Image.fallbackSet img) eqn:E; [exact E | now destruct throws]. }
  split; [now apply (F later)|]. split; [exact S|].
  split; intro H; unfold handleImageError; rewrite H; [|reflexivity].
  destruct throws; repeat split.
Qed.

Lemma handleImageError_once_witness :
  Image.src (handleImageError (Image.mk "https://cdn.example/p1.png" false true false)
               placeholderImage false) = placeholderImage
  /\ handleImageError (Image.mk placeholderImage true false false) "other" false
     = Image.mk placeholderImage true false false.
Proof.
  split.
  - exact (proj1 (proj2 (proj1 (proj2 (proj2
             (handleImageError_once (Image.mk "https://cdn.example/p1.png" false true false)
                placeholderImage false []))) eq_refl))).
  - exact (proj2 (proj2 (proj2
             (handleImageError_once (Image.mk placeholderImage true false false)
                "other" false []))) eq_refl).
Defined.

Lemma initTheme_guards_witness :
  trace (initTheme sample_formatPrice sample_Date_now true
           (Resolved (sample_store "Pizza Palace")) (Resolved []) (Resolved []) (Resolved [])
           NoCustomAPI (initial false))
  = [ConsoleError "Theme container not found"]
  /\ initTheme sample_formatPrice sample_Date_now true
       (Resolved (sample_store "Pizza Palace")) (Resolved []) (Resolved []) (Resolved [])
       NoCustomAPI (initial true)
     = loadStoreData sample_formatPrice sample_Date_now
         (Resolved (sample_store "Pizza Palace")) (Resolved []) (Resolved []) (Resolved [])
         NoCustomAPI (set_api true (initial true)).
Proof.
  split.
  - exact (proj1 (proj1 (proj2 (initTheme_guards sample_formatPrice sample_Date_now
                                  (Resolved (sample_store "Pizza Palace")) (Resolved [])
                                  (Resolved []) (Resolved []) NoCustomAPI (initial false)))
                   eq_refl)).
  - refine (proj2 (proj2 (initTheme_guards sample_formatPrice sample_Date_now
                            (Resolved (sample_store "Pizza Palace")) (Resolved [])
                            (Resolved []) (Resolved []) NoCustomAPI (initial true))) _).
    discriminate.
Defined.

Lemma loadStoreData_requests_witness :
  api_calls (trace (loadStoreData sample_formatPrice sample_Date_now
                      (Rejected "HTTP 503: Service Unavailable") (Resolved []) (Resolved [])
                      (Rejected "HTTP 503: Service Unavailable") HookThrows started))
  = first_load_requests.
Proof.
  exact (loadStoreData_requests sample_formatPrice sample_Date_now
           (Rejected "HTTP 503: Service Unavailable") (Resolved []) (Resolved [])
           (Rejected "HTTP 503: Service Unavailable") HookThrows started eq_refl).
Defined.

Lemma loadStoreData_stores_witness :
  storeData (loadStoreData sample_formatPrice sample_Date_now
               (Resolved (sample_store "Pizza Palace")) (Resolved []) (Resolved [])
               (Resolved []) HookThrows started)
  = Some (sample_store "Pizza Palace")
  /\ Dom.container (dom (loadStoreData sample_formatPrice sample_Date_now
                           (Resolved (sample_store "Pizza Palace")) (Resolved [])
                           (Resolved []) (Resolved []) HookThrows started))
     = Some (showError "Failed to load store data. Please try again later.").
Proof.
  pose proof (loadStoreData_stores sample_formatPrice sample_Date_now
                (sample_store "Pizza Palace") [] [] (Resolved []) HookThrows started eq_refl)
    as T.
  cbv zeta in T. destruct T as [S [_ [_ [_ [_ [_ H]]]]]].
  split; [exact S|]. exact (proj1 (H eq_refl)).
Defined.

(** ** The query string *)

Lemma urldecode_char (c : ascii) (r : string) :
  urldecode_from 0 (urlencode_char c ++ r) = String c (urldecode_from 0 r).
Proof. destruct c as [[] [] [] [] [] [] [] []]; reflexivity. Qed.

Lemma urldecode_urlencode (s : string) : urldecode (urlencode s) = s.
Proof.
  unfold urldecode. induction s as [|c r IH]; [reflexivity|].
  simpl urlencode. now rewrite urldecode_char, IH.
Qed.

Lemma no_char_app (bad : ascii -> bool) (a b : string) :
  no_char bad (a ++ b) = no_char bad a && no_char bad b.
Proof.
  induction a as [|c r IH]; [reflexivity|].
  simpl. now rewrite IH, andb_assoc.
Qed.

Lemma urlencode_char_clean (c : ascii) : no_char is_separator (urlencode_char c) = true.
Proof. destruct c as [[] [] [] [] [] [] [] []]; reflexivity. Qed.

Lemma urlencode_clean (s : string) : no_char is_separator (urlencode s) = true.
Proof.
  induction s as [|c r IH]; [reflexivity|].
  simpl urlencode. now rewrite no_char_app, urlencode_char_clean, IH.
Qed.

Lemma split_from_clean (sep : ascii) (a : string) :
  no_char (Ascii.eqb sep) a = true ->
  forall cur rest,
    split_from sep cur (a ++ String sep rest) = (cur ++ a)%string :: split_from sep "" rest
    /\ split_from sep cur a = [(cur ++ a)%string].
Proof.
  induction a as [|c r IH]; intros H cur rest.
  - simpl. rewrite Ascii.eqb_refl, append_nil_r. now split.
  - simpl in H. apply andb_true_iff in H as [Hc Hr]. apply negb_true_iff in Hc.
    rewrite Ascii.eqb_sym in Hc. simpl. rewrite Hc.
    destruct (IH Hr (cur ++ str1 c)%string rest) as [E1 E2].
    rewrite E1, E2, !append_assoc. now split.
Qed.

Lemma cut_at_clean (sep : ascii) (a : string) :
  no_char (Ascii.eqb sep) a = true ->
  forall cur rest, cut_at sep cur (a ++ String sep rest) = ((cur ++ a)%string, rest).
Proof.
  induction a as [|c r IH]; intros H cur rest.
  - simpl. now rewrite Ascii.eqb_refl, append_nil_r.
  - simpl in H. apply andb_true_iff in H as [Hc Hr]. apply negb_true_iff in Hc.
    rewrite Ascii.eqb_sym in Hc. simpl. rewrite Hc.
    now rewrite (IH Hr), append_assoc.
Qed.

Lemma no_char_weaken (bad worse : ascii -> bool) (s : string) :
  (forall c, bad c = true -> worse c = true) ->
  no_char worse s = true -> no_char bad s = true.
Proof.
  intro W. induction s as [|c r IH]; intro H; [reflexivity|].
  simpl in *. apply andb_true_iff in H as [Hc Hr]. rewrite (IH Hr), andb_true_r.
  apply negb_true_iff in Hc. apply negb_true_iff.
  destruct (bad c) eqn:E; [|reflexivity]. apply W in E. congruence.
Qed.

Lemma urlencode_no (sep : ascii) (s : string) :
  is_separator sep = true -> no_char (Ascii.eqb sep) (urlencode s) = true.
Proof.
  intro H. apply (no_char_weaken _ is_separator); [|apply urlencode_clean].
  intros c E. apply Ascii.eqb_eq in E. now subst c.
Qed.

Lemma split_concat (l : list string) :
  l <> [] ->
  (forall x, In x l -> no_char (Ascii.eqb "&") x = true) ->
  split_from "&" "" (String.concat "&" l) = l.
Proof.
  induction l as [|x l IH]; intros Hne H; [congruence|].
  destruct l as [|y t].
  - simpl. rewrite (proj2 (split_from_clean "&" x (H x (or_introl eq_refl)) "" "")).
    reflexivity.
  - change (String.concat "&" (x :: y :: t))
      with (x ++ String "&" (String.concat "&" (y :: t)))%string.
    rewrite (proj1 (split_from_clean "&" x (H x (or_introl eq_refl)) "" _)).
    rewrite IH; [reflexivity | discriminate | ].
    intros z I. apply H. now right.
Qed.

Lemma parse_pair (k v : string) :
  (let kv := cut_at "=" "" (urlencode k ++ "=" ++ urlencode v) in
   (urldecode (fst kv), urldecode (snd kv))) = (k, v).
Proof.
  cbv zeta.
  change (urlencode k ++ "=" ++ urlencode v)%string
    with (urlencode k ++ String "=" (urlencode v))%string.
  rewrite (cut_at_clean "=" (urlencode k) (urlencode_no "=" k eq_refl)).
  simpl. now rewrite !urldecode_urlencode.
Qed.

(** X18.  The query that the client writes can be read back: splitting it
    at the ampersands and each part at its first equals sign, and decoding
    the pieces, gives the parameters that were appended, names and values,
    in their order.  No name or value, once encoded, holds an ampersand, an
    equals sign, a question mark, a hash, a slash or a space; and two texts
    with the same encoding are the same text. *)
Theorem query_round_trip :
  (forall params, parse_query (serialize_params params) = params)
  /\ (forall Number_toString filters,
        parse_query
          (serialize_params (StoreAPIClient.getProducts_params Number_toString filters))
        = StoreAPIClient.getProducts_params Number_toString filters)
  /\ (forall s, urldecode (urlencode s) = s)
  /\ (forall s, no_char is_separator (urlencode s) = true)
  /\ (forall a b, urlencode a = urlencode b -> a = b).
Proof.
  assert (R : forall params, parse_query (serialize_params params) = params).
  { intro params. destruct params as [|kv0 rest]; [reflexivity|].
    pose proof (serialize_params_nonempty (kv0 :: rest)) as N.
    unfold parse_query.
    destruct (serialize_params (kv0 :: rest)) as [|c r] eqn:E.
    { exfalso. assert (D : kv0 :: rest <> []) by discriminate.
      apply N in D. discriminate D. }
    rewrite <- E. unfold serialize_params.
    rewrite split_concat.
    - rewrite map_map. rewrite <- (map_id (kv0 :: rest)) at 2.
      apply map_ext. intros [k v]. apply parse_pair.
    - discriminate.
    - intros x I. apply in_map_iff in I as [[k v] [<- _]].
      change (no_char (Ascii.eqb "&") (urlencode k ++ String "=" (urlencode v)) = true).
      rewrite no_char_app, (urlencode_no "&" k eq_refl). simpl.
      apply (urlencode_no "&" v eq_refl). }
  split; [exact R|]. split; [intros; apply R|].
  split; [exact urldecode_urlencode|]. split; [exact urlencode_clean|].
  intros a b H. rewrite <- (urldecode_urlencode a), <- (urldecode_urlencode b).
  now rewrite H.
Qed.

(** X28.  The banner of the promotions is empty when there is no
    promotion.  Otherwise it interpolates, for each promotion in order,
    the name, the description (the empty text when there is none) and the
    code when there is one, each of them escaped and in element content;
    a promotion without a code leaves no line for a code, and nothing is
    interpolated into an attribute. *)
Theorem renderPromotions_interpolations (promotions : list Promotion.t) :
  (renderPromotions promotions = [] <-> promotions = [])
  /\ text_pieces (renderPromotions promotions)
     = flat_map (fun promo =>
                   [escapeHtml (Promotion.name promo);
                    escapeHtml (or_default (Promotion.description promo) "")]
                   ++ map escapeHtml (truthy_list (Promotion.code promo)))
         promotions
  /\ attr_pieces (renderPromotions promotions) = [].
Proof.
  destruct promotions as [|p ps]; [repeat split|].
  unfold renderPromotions. set (l := p :: ps). split; [|split].
  - split; [|discriminate]. unfold lit at 1. cbn [app]. discriminate.
  - rewrite !text_pieces_app, text_pieces_join.
    change (text_pieces (lit ?x)) with (@nil string). cbn [app]. rewrite app_nil_r.
    apply flat_map_ext. intro promo.
    rewrite !text_pieces_app, text_pieces_when.
    cbn [text_pieces lit text flat_map app].
    rewrite flat_map_singleton, app_nil_r. reflexivity.
  - rewrite !attr_pieces_app, attr_pieces_join.
    change (attr_pieces (lit ?x)) with (@nil string). cbn [app]. rewrite app_nil_r.
    rewrite <- (flat_map_none (Y := string) l) at 1.
    apply flat_map_ext. intro promo.
    rewrite !attr_pieces_app, attr_pieces_when.
    cbn [attr_pieces lit text flat_map app].
    now rewrite flat_map_none.
Qed.

(** ** The operations of the store API client *)

Section ClientOutcomes.

Variable A : Type.

Lemma read_outcomes (label : string) (reply : result (Response.t A)) :
  let out := StoreAPIClient.read label reply in
  (forall v,
     snd out = Resolved v
     <-> exists response body,
           reply = Resolved response /\ Response.ok response = true
           /\ Response.json response = Resolved body /\ Json.value body = v)
  /\ (fst out = [] <-> exists v, snd out = Resolved v)
  /\ (fst out = [] \/ fst out = [ConsoleError label])
  /\ (forall response,
        reply = Resolved response -> Response.ok response = false ->
        snd out = Rejected (http_error response))
  /\ (forall response m,
        reply = Resolved response -> Response.ok response = true ->
        Response.json response = Rejected m -> snd out = Rejected m)
  /\ (forall m, reply = Rejected m -> snd out = Rejected m).
Proof.
  intro out. subst out. unfold StoreAPIClient.read.
  destruct reply as [response|m]; cbn.
  2: { split; [intro v; split; [discriminate | intros [r [b [H _]]]; discriminate]|].
       split; [split; [discriminate | intros [v H]; discriminate]|].
       split; [now right|]. split; [discriminate|]. split; [discriminate|].
       intros m' H. now inversion H. }
  destruct (Response.ok response) eqn:Hok; cbn.
  - destruct (Response.json response) as [body|m] eqn:Hj; cbn.
    + split.
      { intro v. split.
        - intro H. inversion H. now exists response, body.
        - intros [r [b [Hr [_ [Hb Hv]]]]]. inversion Hr; subst r.
          rewrite Hj in Hb. inversion Hb; subst b. now rewrite Hv. }
      split; [split; [eauto | reflexivity]|].
      split; [now left|].
      split; [intros r Hr Hf; inversion Hr; subst r; congruence|].
      split; [|discriminate].
      intros r m Hr _ Hm. inversion Hr; subst r. congruence.
    + split.
      { intro v. split; [discriminate|].
        intros [r [b [Hr [_ [Hb _]]]]]. inversion Hr; subst r. congruence. }
      split; [split; [discriminate | intros [v H]; discriminate]|].
      split; [now right|].
      split; [intros r Hr Hf; inversion Hr; subst r; congruence|].
      split; [|discriminate].
      intros r m' Hr _ Hm. inversion Hr; subst r. congruence.
  - split.
    { intro v. split; [discriminate|].
      intros [r [b [Hr [Ho _]]]]. inversion Hr; subst r. congruence. }
    split; [split; [discriminate | intros [v H]; discriminate]|].
    split; [now right|].
    split; [intros r Hr _; now inversion Hr|].
    split; [|discriminate].
    intros r m Hr Ho. inversion Hr; subst r. congruence.
Qed.

(** X19.  A reading operation of the client (store, products, categories,
    promotions, order status) resolves exactly when the reply has a status
    from 200 to 299 and a body that is JSON, and then gives the body and
    logs nothing.  In every other case it rejects after logging one error
    under the label of the operation: with the status line for a status
    outside 2xx, whatever the body says, with the message of the parser
    for a status from 200 to 299 and a body that is not JSON, and with the
    message of the network when there is no reply. *)
Theorem client_read_outcomes (Number_toString : Q -> string) (this : StoreAPIClient.t)
    (filters : Filters.t) (orderNumber : string)
    (fetch : string -> result (Response.t A)) :
  let outcome (out : list event * result A) (label : string)
              (reply : result (Response.t A)) :=
    (forall v,
       snd out = Resolved v
       <-> exists response body,
             reply = Resolved response /\ Response.ok response = true
             /\ Response.json response = Resolved body /\ Json.value body = v)
    /\ (fst out = [] <-> exists v, snd out = Resolved v)
    /\ (fst out = [] \/ fst out = [ConsoleError label])
    /\ (forall response,
          reply = Resolved response -> Response.ok response = false ->
          snd out = Rejected (http_error response))
    /\ (forall response m,
          reply = Resolved response -> Response.ok response = true ->
          Response.json response = Rejected m -> snd out = Rejected m)
    /\ (forall m, reply = Rejected m -> snd out = Rejected m) in
  let path (rest : string) :=
    (StoreAPIClient.baseUrl this ++ "/api/store/" ++ StoreAPIClient.storeSlug this
     ++ rest)%string in
  outcome (StoreAPIClient.getStore this fetch) "Error fetching store:"
    (fetch (path "/settings"))
  /\ outcome (StoreAPIClient.getProducts Number_toString this filters fetch)
       "Error fetching products:"
       (fetch (StoreAPIClient.getProducts_url Number_toString this filters))
  /\ outcome (StoreAPIClient.getCategories this fetch) "Error fetching categories:"
       (fetch (path "/categories"))
  /\ outcome (StoreAPIClient.getPromotions this fetch) "Error fetching promotions:"
       (fetch (path "/promotions"))
  /\ outcome (StoreAPIClient.getOrderStatus this orderNumber fetch)
       "Error fetching order status:" (fetch (path ("/order/" ++ orderNumber)%string)).
Proof.
  intros outcome path. subst outcome path. cbv beta.
  split; [apply read_outcomes|].
  split; [apply read_outcomes|].
  split; [apply read_outcomes|].
  split; [apply read_outcomes|].
  apply read_outcomes.
Qed.

End ClientOutcomes.

Section ClientWrites.

Variable Variants : Type.
Variable no_variants : Variants.
Variable JSON_stringify_cart : string -> Z -> Variants -> string.
Variable JSON_stringify_order : OrderData.t -> string.
Variable TypeError_message : string.
Variable Number_toString : Q -> string.
Variable A : Type.

Lemma write_outcomes (label : string) (reply : result (Response.t (ErrorView.t A))) :
  let out := StoreAPIClientPost.write TypeError_message Number_toString A label reply in
  (forall v,
     snd out = Resolved v
     <-> exists response body,
           reply = Resolved response /\ Response.ok response = true
           /\ Response.json response = Resolved body
           /\ ErrorView.value (Json.value body) = v)
  /\ (fst out = [] <-> exists v, snd out = Resolved v)
  /\ (fst out = [] \/ fst out = [ConsoleError label])
  /\ (forall response body error,
        reply = Resolved response -> Response.ok response = false ->
        Response.json response = Resolved body ->
        ErrorView.error (Json.value body) = Some error ->
        snd out = Rejected (if truthy_val error then to_string Number_toString error
                            else http_error response))
  /\ (forall response m,
        reply = Resolved response -> Response.json response = Rejected m ->
        snd out = Rejected m)
  /\ (forall m, reply = Rejected m -> snd out = Rejected m).
Proof.
  intro out. subst out. unfold StoreAPIClientPost.write, StoreAPIClientPost.error_message.
  destruct reply as [response|m]; cbn.
  2: { split; [intro v; split; [discriminate | intros [r [b [H _]]]; discriminate]|].
       split; [split; [discriminate | intros [v H]; discriminate]|].
       split; [now right|]. split; [discriminate|]. split; [discriminate|].
       intros m' H. now inversion H. }
  destruct (Response.ok response) eqn:Hok; cbn.
  - destruct (Response.json response) as [body|m] eqn:Hj; cbn.
    + split.
      { intro v. split.
        - intro H. inversion H. now exists response, body.
        - intros [r [b [Hr [_ [Hb Hv]]]]]. inversion Hr; subst r.
          rewrite Hj in Hb. inversion Hb; subst b. now rewrite Hv. }
      split; [split; [eauto | reflexivity]|].
      split; [now left|].
      split; [intros r b e Hr Hf; inversion Hr; subst r; congruence|].
      split; [|discriminate].
      intros r m Hr Hm. inversion Hr; subst r. congruence.
    + split.
      { intro v. split; [discriminate|].
        intros [r [b [Hr [_ [Hb _]]]]]. inversion Hr; subst r. congruence. }
      split; [split; [discriminate | intros [v H]; discriminate]|].
      split; [now right|].
      split; [intros r b e Hr Hf; inversion Hr; subst r; congruence|].
      split; [|discriminate].
      intros r m' Hr Hm. inversion Hr; subst r. congruence.
  - assert (N : forall v,
              ~ exists (r : Response.t (ErrorView.t A)) (b : Json.t (ErrorView.t A)),
                  Resolved response = Resolved r /\ Response.ok r = true
                  /\ Response.json r = Resolved b /\ ErrorView.value (Json.value b) = v).
    { intros v [r [b [Hr [Ho _]]]]. inversion Hr; subst r. congruence. }
    destruct (Response.json response) as [body|m] eqn:Hj; cbn.
    + destruct (ErrorView.error (Json.value body)) as [e|] eqn:He; cbn.
      * split; [intro v; split; [discriminate | intro H; destruct (N v H)]|].
        split; [split; [discriminate | intros [v H]; discriminate]|].
        split; [now right|].
        split.
        { intros r b e' Hr _ Hb He'. inversion Hr; subst r.
          rewrite Hj in Hb. inversion Hb; subst b. rewrite He in He'.
          now inversion He'. }
        split; [|discriminate].
        intros r m Hr Hm. inversion Hr; subst r. congruence.
      * split; [intro v; split; [discriminate | intro H; destruct (N v H)]|].
        split; [split; [discriminate | intros [v H]; discriminate]|].
        split; [now right|].
        split.
        { intros r b e' Hr _ Hb He'. inversion Hr; subst r.
          rewrite Hj in Hb. inversion Hb; subst b. congruence. }
        split; [|discriminate].
        intros r m Hr Hm. inversion Hr; subst r. congruence.
    + split; [intro v; split; [discriminate | intro H; destruct (N v H)]|].
      split; [split; [discriminate | intros [v H]; discriminate]|].
      split; [now right|].
      split; [intros r b e Hr Hf; inversion Hr; subst r; congruence|].
      split; [|discriminate].
      intros r m' Hr Hm. inversion Hr; subst r. congruence.
Qed.

(** X20.  The two writing operations of the client send one POST with a
    JSON content type, [addToCart] with quantity 1 and no variants when
    these are left out.  They resolve exactly when the reply has a status
    from 200 to 299 and a body that is JSON.  For another status the
    message thrown is the [error] of the body when that is truthy and the
    status line otherwise; a body that is not JSON gives the parser's error
    whatever the status.  Every failure logs one error under the label of
    the operation. *)
Theorem client_write_outcomes (this : StoreAPIClient.t) (productId : string)
    (quantity : option Z) (variants : option Variants) (orderData : OrderData.t)
    (fetch : Request.t -> result (Response.t (ErrorView.t A))) :
  let outcome (out : list event * result A) (label : string)
              (reply : result (Response.t (ErrorView.t A))) :=
    (forall v,
       snd out = Resolved v
       <-> exists response body,
             reply = Resolved response /\ Response.ok response = true
             /\ Response.json response = Resolved body
             /\ ErrorView.value (Json.value body) = v)
    /\ (fst out = [] <-> exists v, snd out = Resolved v)
    /\ (fst out = [] \/ fst out = [ConsoleError label])
    /\ (forall response body error,
          reply = Resolved response -> Response.ok response = false ->
          Response.json response = Resolved body ->
          ErrorView.error (Json.value body) = Some error ->
          snd out = Rejected (if truthy_val error then to_string Number_toString error
                              else http_error response))
    /\ (forall response m,
          reply = Resolved response -> Response.json response = Rejected m ->
          snd out = Rejected m)
    /\ (forall m, reply = Rejected m -> snd out = Rejected m) in
  let request (rest body : string) :=
    Request.mk
      (StoreAPIClient.baseUrl this ++ "/api/store/" ++ StoreAPIClient.storeSlug this
       ++ rest)%string
      "POST" [("Content-Type", "application/json")] (Some body) in
  outcome
    (StoreAPIClientPost.addToCart Variants no_variants JSON_stringify_cart
       TypeError_message Number_toString A this productId quantity variants fetch)
    "Error adding to cart:"
    (fetch (request "/cart"
              (JSON_stringify_cart productId
                 (match quantity with Some n => n | None => 1 end)
                 (match variants with Some v => v | None => no_variants end))))
  /\ outcome
       (StoreAPIClientPost.checkout JSON_stringify_order TypeError_message
          Number_toString A this orderData fetch)
       "Error during checkout:"
       (fetch (request "/checkout" (JSON_stringify_order orderData))).
Proof.
  intros outcome request. subst outcome request. cbv beta.
  split; apply write_outcomes.
Qed.

End ClientWrites.

(** ** The custom API request and the helpers built on it *)

Section CustomOutcomes.

Variable Body : Type.
Variable JSON_stringify : Body -> string.
Variable A : Type.

Lemma customAPIRequest_outcomes (cfg : CustomAPIConfig.t) (endpoint : string)
    (o : options Body) (fetch : Request.t -> network A) (fetch_first : bool) :
  let request := request_config Body JSON_stringify cfg endpoint o in
  let out := customAPIRequest Body JSON_stringify A cfg endpoint o fetch fetch_first in
  (forall v,
     snd out = Resolved v
     <-> exists at_ms response body,
           fetch request = Settles at_ms (Resolved response)
           /\ in_time cfg fetch_first at_ms = true
           /\ Response.ok response = true
           /\ Response.json response = Resolved body /\ Json.value body = v)
  /\ (fst out = [] <-> exists v, snd out = Resolved v)
  /\ (fst out = [] \/ fst out = [ConsoleError "Custom API request failed:"])
  /\ (forall at_ms m,
        fetch request = Settles at_ms (Rejected m) ->
        in_time cfg fetch_first at_ms = true -> snd out = Rejected m).
Proof.
  intros request out. subst request out.
  unfold customAPIRequest, race, in_time.
  destruct (fetch (request_config Body JSON_stringify cfg endpoint o))
    as [at_ms outcome|] eqn:Hf.
  2: { cbn. split; [intro v; split; [discriminate | intros [a [r [b [H _]]]]; discriminate]|].
       split; [split; [discriminate | intros [v H]; discriminate]|].
       split; [now right | discriminate]. }
  destruct ((at_ms <? CustomAPIConfig.timeout cfg)
            || (at_ms =? CustomAPIConfig.timeout cfg) && fetch_first) eqn:Ht.
  2: { cbn. split.
       { intro v; split; [discriminate|].
         intros [a [r [b [H [Ha _]]]]]. inversion H; subst a. congruence. }
       split; [split; [discriminate | intros [v H]; discriminate]|].
       split; [now right|]. intros a m H Ha. inversion H; subst a. congruence. }
  destruct outcome as [response|m]; cbn.
  2: { split.
       { intro v; split; [discriminate|].
         intros [a [r [b [H _]]]]. discriminate. }
       split; [split; [discriminate | intros [v H]; discriminate]|].
       split; [now right|]. intros a m' H _. now inversion H. }
  destruct (Response.ok response) eqn:Hok; cbn.
  - destruct (Response.json response) as [body|m] eqn:Hj; cbn.
    + split.
      { intro v. split.
        - intro H. inversion H. now exists at_ms, response, body.
        - intros [a [r [b [Hr [_ [_ [Hb Hv]]]]]]]. inversion Hr; subst a r.
          rewrite Hj in Hb. inversion Hb; subst b. now rewrite Hv. }
      split; [split; [eauto | reflexivity]|].
      split; [now left | discriminate].
    + split.
      { intro v. split; [discriminate|].
        intros [a [r [b [Hr [_ [_ [Hb _]]]]]]]. inversion Hr; subst a r. congruence. }
      split; [split; [discriminate | intros [v H]; discriminate]|].
      split; [now right | discriminate].
  - split.
    { intro v. split; [discriminate|].
      intros [a [r [b [Hr [_ [Ho _]]]]]]. inversion Hr; subst a r. congruence. }
    split; [split; [discriminate | intros [v H]; discriminate]|].
    split; [now right | discriminate].
Qed.

End CustomOutcomes.

(** X21.  A custom API request resolves exactly when the reply of [fetch]
    wins the race against the timer, has a status from 200 to 299 and a
    body that is JSON; it then gives the body and logs nothing.  Every
    other case logs one error and rejects, a failure of the network that
    comes in time with the message of the network. *)
Theorem customAPIRequest_resolves (Body : Type) (JSON_stringify : Body -> string)
    (A : Type) (cfg : CustomAPIConfig.t) (endpoint : string)
    (o : options Body) (fetch : Request.t -> network A) (fetch_first : bool) :
  let request := request_config Body JSON_stringify cfg endpoint o in
  let out := customAPIRequest Body JSON_stringify A cfg endpoint o fetch fetch_first in
  (forall v,
     snd out = Resolved v
     <-> exists at_ms response body,
           fetch request = Settles at_ms (Resolved response)
           /\ in_time cfg fetch_first at_ms = true
           /\ Response.ok response = true
           /\ Response.json response = Resolved body /\ Json.value body = v)
  /\ (fst out = [] <-> exists v, snd out = Resolved v)
  /\ (fst out = [] \/ fst out = [ConsoleError "Custom API request failed:"])
  /\ (forall at_ms m,
        fetch request = Settles at_ms (Rejected m) ->
        in_time cfg fetch_first at_ms = true -> snd out = Rejected m).
Proof. apply customAPIRequest_outcomes. Qed.

Lemma encodeURIComponent_char_clean (c : ascii) :
  no_char is_separator (encodeURIComponent_char c) = true.
Proof. destruct c as [[] [] [] [] [] [] [] []]; reflexivity. Qed.

Lemma encodeURIComponent_clean (s : string) :
  no_char is_separator (encodeURIComponent s) = true.
Proof.
  induction s as [|c r IH]; [reflexivity|].
  simpl encodeURIComponent. now rewrite no_char_app, encodeURIComponent_char_clean, IH.
Qed.

Section HelperOutcomes.

Variable V : Type.
Variable JSON_stringify : ReviewBody.t V -> string.
Variable Review : Type.
Variable Submitted : Type.

(** What a helper gets from the request it makes: the value and no event
    when the request succeeds, one logged error and no value otherwise. *)
Lemma customAPIRequest_cases (A : Type) (cfg : CustomAPIConfig.t) (endpoint : string)
    (o : options (ReviewBody.t V)) (fetch : Request.t -> network A) (fetch_first : bool) :
  let request := request_config (ReviewBody.t V) JSON_stringify cfg endpoint o in
  let out := customAPIRequest (ReviewBody.t V) JSON_stringify A cfg endpoint o
               fetch fetch_first in
  let succeeds (v : A) :=
    exists at_ms response body,
      fetch request = Settles at_ms (Resolved response)
      /\ in_time cfg fetch_first at_ms = true
      /\ Response.ok response = true
      /\ Response.json response = Resolved body /\ Json.value body = v in
  (forall v, succeeds v -> out = ([], Resolved v))
  /\ ((forall v, ~ succeeds v) ->
      exists m, out = ([ConsoleError "Custom API request failed:"], Rejected m)).
Proof.
  intros request out succeeds.
  destruct (customAPIRequest_outcomes (ReviewBody.t V) JSON_stringify A cfg endpoint o
              fetch fetch_first) as [H1 [H2 [H3 _]]].
  fold request in H1. fold out in H1, H2, H3. split.
  - intros v Hv. apply H1 in Hv.
    assert (E : fst out = []) by (apply H2; eauto).
    destruct out as [l r]. cbn in *. now subst.
  - intro Hn. destruct out as [l [v|m]]; cbn in *.
    + destruct (Hn v). now apply H1.
    + exists m. destruct H3 as [E|E]; [|now subst].
      apply H2 in E. destruct E as [v E]. discriminate.
Qed.

(** X22.  The two reading helpers of the custom API never reject.
    [getProductReviews] asks for the reviews with a GET on
    /reviews/product/ followed by the product id as it stands, and
    [getLoyaltyPoints] with a GET on /loyalty/ followed by the address
    encoded so that it stays one segment of the path.  Each gives the body
    of the reply when the request succeeds, and logs nothing; in every
    other case, a network that never answers included, it logs two errors
    and gives the empty list, or zero points in the bronze tier. *)
Theorem custom_reads_fall_back (cfg : CustomAPIConfig.t)
    (productId customerEmail : string)
    (fetch_reviews : Request.t -> network (list Review))
    (fetch_loyalty : Request.t -> network Loyalty.t) (fetch_first : bool) :
  let get (endpoint : string) :=
    Request.mk (CustomAPIConfig.baseUrl cfg ++ endpoint)%string "GET"
      (default_headers cfg) None in
  let succeeds {A : Type} (fetch : Request.t -> network A) (endpoint : string) (v : A) :=
    exists at_ms response body,
      fetch (get endpoint) = Settles at_ms (Resolved response)
      /\ in_time cfg fetch_first at_ms = true
      /\ Response.ok response = true
      /\ Response.json response = Resolved body /\ Json.value body = v in
  let reviews :=
    getProductReviews V JSON_stringify Review cfg productId fetch_reviews fetch_first in
  let loyalty :=
    getLoyaltyPoints V JSON_stringify cfg customerEmail fetch_loyalty fetch_first in
  let segment := encodeURIComponent customerEmail in
  (forall v,
     succeeds fetch_reviews ("/reviews/product/" ++ productId)%string v ->
     reviews = ([], v))
  /\ ((forall v, ~ succeeds fetch_reviews ("/reviews/product/" ++ productId)%string v) ->
      reviews = ([ConsoleError "Custom API request failed:";
                  ConsoleError "Failed to fetch reviews:"], []))
  /\ (forall v,
        succeeds fetch_loyalty ("/loyalty/" ++ segment)%string v -> loyalty = ([], v))
  /\ ((forall v, ~ succeeds fetch_loyalty ("/loyalty/" ++ segment)%string v) ->
      loyalty = ([ConsoleError "Custom API request failed:";
                  ConsoleError "Failed to fetch loyalty points:"],
                 Loyalty.mk 0 "bronze"))
  /\ no_char is_separator segment = true.
Proof.
  intros get succeeds reviews loyalty segment.
  subst get succeeds reviews loyalty segment. cbv beta.
  unfold getProductReviews, getLoyaltyPoints.
  destruct (customAPIRequest_cases (list Review) cfg
              ("/reviews/product/" ++ productId)%string (get_options V)
              fetch_reviews fetch_first) as [R1 R2].
  destruct (customAPIRequest_cases Loyalty.t cfg
              ("/loyalty/" ++ encodeURIComponent customerEmail)%string (get_options V)
              fetch_loyalty fetch_first) as [L1 L2].
  split; [intros v Hv; now rewrite (R1 v Hv)|].
  split; [intro Hn; destruct (R2 Hn) as [m E]; now rewrite E|].
  split; [intros v Hv; now rewrite (L1 v Hv)|].
  split; [intro Hn; destruct (L2 Hn) as [m E]; now rewrite E|].
  apply encodeURIComponent_clean.
Qed.

Lemma submitReview_messages (cfg : CustomAPIConfig.t) (productId : string)
    (reviewData : ReviewData.t V)
    (fetch : Request.t -> network Submitted) (fetch_first : bool) :
  let request :=
    Request.mk (CustomAPIConfig.baseUrl cfg ++ "/reviews")%string "POST"
      (default_headers cfg)
      (Some (JSON_stringify
               (ReviewBody.mk productId
                  (ReviewData.rating reviewData) (ReviewData.comment reviewData)
                  (ReviewData.customerName reviewData)
                  (ReviewData.customerEmail reviewData)))) in
  let out := submitReview V JSON_stringify Submitted cfg productId reviewData
               fetch fetch_first in
  (forall at_ms outcome,
     fetch request = Settles at_ms outcome -> in_time cfg fetch_first at_ms = false ->
     snd out = Rejected "Request timeout")
  /\ (forall at_ms m,
        fetch request = Settles at_ms (Rejected m) ->
        in_time cfg fetch_first at_ms = true -> snd out = Rejected m)
  /\ (forall at_ms response,
        fetch request = Settles at_ms (Resolved response) ->
        in_time cfg fetch_first at_ms = true -> Response.ok response = false ->
        snd out
        = Rejected (or_default
                      match Response.json response with
                      | Resolved body => Json.message body
                      | Rejected _ => Some (Response.statusText response)
                      end
                      (http_error response)))
  /\ (forall at_ms response m,
        fetch request = Settles at_ms (Resolved response) ->
        in_time cfg fetch_first at_ms = true -> Response.ok response = true ->
        Response.json response = Rejected m -> snd out = Rejected m).
Proof.
  intros request out. subst out. unfold submitReview, customAPIRequest, race.
  set (o := mkOptions (ReviewBody.t V) (Some "POST") None _).
  change (request_config (ReviewBody.t V) JSON_stringify cfg "/reviews" o) with request.
  unfold in_time. repeat split.
  - intros at_ms outcome Hf Ht. rewrite Hf, Ht. reflexivity.
  - intros at_ms m Hf Ht. rewrite Hf, Ht. reflexivity.
  - intros at_ms response Hf Ht Hok. rewrite Hf, Ht, Hok. reflexivity.
  - intros at_ms response m Hf Ht Hok Hj. rewrite Hf, Ht, Hok, Hj. reflexivity.
Qed.


End HelperOutcomes.

(** ** The validation script *)

Import Validate.

Lemma adds_ret {A : Type} (a : A) : adds (ret a) [] [] (Normal a).
Proof. intro s. exists []. unfold ret. rewrite !app_nil_r. now destruct s. Qed.

Lemma adds_throw {A : Type} (m : string) : adds (@throw A m) [] [] (Throw m).
Proof. intro s. exists []. unfold throw. rewrite !app_nil_r. now destruct s. Qed.

Lemma adds_log (line : string) : adds (console_log line) [] [] (Normal tt).
Proof. intro s. exists [line]. unfold console_log. now rewrite !app_nil_r. Qed.

Lemma adds_error (e : string) : adds (errors_push e) [e] [] (Normal tt).
Proof. intro s. exists []. unfold errors_push. now rewrite !app_nil_r. Qed.

Lemma adds_warning (w : string) : adds (warnings_push w) [] [w] (Normal tt).
Proof. intro s. exists []. unfold warnings_push. now rewrite !app_nil_r. Qed.

Lemma adds_bind {A B : Type} (m : M A) (f : A -> M B) (E1 W1 E2 W2 : list string)
    (a : A) (c : completion B) :
  adds m E1 W1 (Normal a) -> adds (f a) E2 W2 c ->
  adds (bind m f) (E1 ++ E2) (W1 ++ W2) c.
Proof.
  intros H1 H2 s. destruct (H1 s) as [l1 R1].
  destruct (H2 (mkState (errors s ++ E1) (warnings s ++ W1) (console s ++ l1))) as [l2 R2].
  exists (l1 ++ l2). unfold bind. rewrite R1, R2. cbn. now rewrite !app_assoc.
Qed.

Lemma adds_bind_throw {A B : Type} (m : M A) (f : A -> M B) (E W : list string)
    (x : string) :
  adds m E W (Throw x) -> adds (bind m f) E W (Throw x).
Proof.
  intros H s. destruct (H s) as [l R]. exists l. unfold bind. now rewrite R.
Qed.

Lemma adds_try_normal (m : M unit) (h : string -> M unit) (E W : list string) :
  adds m E W (Normal tt) -> adds (try_catch m h) E W (Normal tt).
Proof.
  intros H s. destruct (H s) as [l R]. exists l. unfold try_catch. now rewrite R.
Qed.

Lemma adds_try_throw (m : M unit) (h : string -> M unit) (E1 W1 E2 W2 : list string)
    (x : string) (c : completion unit) :
  adds m E1 W1 (Throw x) -> adds (h x) E2 W2 c ->
  adds (try_catch m h) (E1 ++ E2) (W1 ++ W2) c.
Proof.
  intros H1 H2 s. destruct (H1 s) as [l1 R1].
  destruct (H2 (mkState (errors s ++ E1) (warnings s ++ W1) (console s ++ l1))) as [l2 R2].
  exists (l1 ++ l2). unfold try_catch. rewrite R1, R2. cbn. now rewrite !app_assoc.
Qed.

Lemma adds_forEach_push {A : Type} (test : A -> bool) (msg yes no : A -> string)
    (l : list A) :
  adds (forEach l (fun x =>
          if test x then errors_push (msg x) ;; console_log (yes x)
          else console_log (no x)))
    (flat_map (fun x => if test x then [msg x] else []) l) [] (Normal tt).
Proof.
  induction l as [|x l IH]; [apply adds_ret|].
  cbn [forEach flat_map].
  apply (adds_bind _ _ _ [] _ [] tt); [|exact IH].
  destruct (test x).
  - apply (adds_bind _ _ [msg x] [] [] [] tt); [apply adds_error | apply adds_log].
  - apply adds_log.
Qed.

Lemma flat_map_nil_iff {A B : Type} (test : A -> bool) (msg : A -> B) (l : list A) :
  flat_map (fun x => if test x then [msg x] else []) l = []
  <-> forallb (fun x => negb (test x)) l = true.
Proof.
  induction l as [|x l IH]; [now split|].
  cbn. destruct (test x); cbn; [split; discriminate | exact IH].
Qed.

Lemma forallb_negb_negb {A : Type} (f : A -> bool) (l : list A) :
  forallb (fun x => negb (negb (f x))) l = forallb f l.
Proof. induction l as [|x l IH]; [reflexivity|]. cbn. now rewrite IH, negb_involutive. Qed.

Lemma flat_map_in {A B : Type} (test : A -> bool) (msg : A -> B) (l : list A) (x : A) :
  In x l -> test x = true ->
  In (msg x) (flat_map (fun x => if test x then [msg x] else []) l).
Proof.
  intros Hin Ht. apply in_flat_map. exists x. split; [exact Hin|].
  rewrite Ht. now left.
Qed.


Lemma forEach_log {A : Type} (f : A -> string) (l : list A) (s : state) :
  forEach l (fun x => console_log (f x)) s
  = (mkState (errors s) (warnings s) (console s ++ map f l), Normal tt).
Proof.
  revert s. induction l as [|x l IH]; intro s.
  - cbn. rewrite app_nil_r. now destruct s.
  - cbn [forEach map]. unfold bind at 1. unfold console_log at 1.
    rewrite IH. cbn. now rewrite <- app_assoc.
Qed.

Lemma summary_run (s : state) :
  exists lines,
    summary s
    = (mkState (errors s) (warnings s)
         (console s ++ lines
          ++ [if (length (errors s) =? 0)%nat && (length (warnings s) =? 0)%nat
              then "✅ Validation passed! Theme is ready for submission."
              else "
Please fix the errors before submitting your theme."]),
       Normal (if (0 <? length (errors s))%nat then 1 else 0)).
Proof.
  unfold summary. unfold bind at 1, console_log at 1.
  unfold bind at 1, get_errors. unfold bind at 1, get_warnings.
  cbn [errors warnings console].
  destruct (errors s) as [|e es] eqn:He; destruct (warnings s) as [|w ws] eqn:Hw;
    cbn [length Nat.eqb Nat.ltb Nat.leb andb].
  all: try set (P := fun error : string => console_log _).
  all: unfold bind, ret, console_log; cbn [errors warnings console].
  all: try (subst P; rewrite !(forEach_log (fun x => ("   - " ++ x)%string));
            cbn [errors warnings console]).
  - exists [("
" ++ repeat_string "=" 50)%string]. now rewrite <- !app_assoc.
  - eexists ([_; _] ++ map _ (w :: ws)). rewrite <- !app_assoc. reflexivity.
  - eexists ([_; _] ++ map _ (e :: es)). rewrite <- !app_assoc. reflexivity.
  - eexists ([_; _] ++ map _ (e :: es) ++ [_] ++ map _ (w :: ws)).
    rewrite <- !app_assoc. reflexivity.
Qed.

Section ValidateRun.

Variable fs : string -> option (completion string).
Variable JSON_parse : string -> completion (option (string -> Field.t)).
Variable TypeError_message : string -> string.

Lemma required_files_adds :
  exists E,
    adds (check_required_files fs) E [] (Normal tt)
    /\ (E = [] <-> forallb (existsSync fs) REQUIRED_FILES = true)
    /\ (forall file,
          In file REQUIRED_FILES -> fs file = None ->
          In ("Missing required file: " ++ file)%string E).
Proof.
  eexists. split; [|split].
  - unfold check_required_files.
    eapply (adds_bind _ _ [] [] _ [] tt); [apply adds_log|].
    apply (adds_forEach_push (fun file => negb (existsSync fs file))
             (fun file => ("Missing required file: " ++ file)%string)).
  - cbn [app]. rewrite flat_map_nil_iff.
    assert (X : forallb (fun x => negb (negb (existsSync fs x))) REQUIRED_FILES
                = forallb (existsSync fs) REQUIRED_FILES).
    { unfold REQUIRED_FILES. cbn [forallb]. now rewrite !negb_involutive. }
    now rewrite X.
  - intros file Hin Hf. cbn [app].
    apply (flat_map_in (fun file => negb (existsSync fs file))
             (fun file => ("Missing required file: " ++ file)%string)); [exact Hin|].
    unfold existsSync. now rewrite Hf.
Qed.

Lemma adds_as {A : Type} (m : M A) (E W E' W' : list string) (c : completion A) :
  adds m E W c -> E = E' -> W = W' -> adds m E' W' c.
Proof. intros H <- <-. exact H. Qed.

Ltac run :=
  first
    [ apply adds_ret | apply adds_throw | apply adds_log | apply adds_error
    | apply adds_warning
    | eapply adds_bind; [run | run]
    | eapply adds_bind_throw; run ].

Ltac run_as := eapply adds_as; [run | reflexivity | reflexivity].

Lemma manifest_adds :
  exists E W,
    adds (check_manifest fs JSON_parse TypeError_message) E W (Normal tt)
    /\ (E = [] <-> manifest_ok fs JSON_parse = true)
    /\ (W = [] <-> version_ok fs JSON_parse = true)
    /\ (fs manifestPath = None -> E = ["manifest.json not found"]).
Proof.
  unfold check_manifest, manifest_ok, version_ok, existsSync, readFileSync.
  destruct (fs manifestPath) as [[content|m]|] eqn:Hf; cbn [is_some].
  - match goal with
    | |- context [bind (ret content) ?f] =>
        change (bind (ret content) f) with (f content)
    end.
    cbv beta.
    destruct (JSON_parse content) as [[manifest|]|m] eqn:Hp.
    + destruct (Field.truthy (manifest "version")) eqn:Hv1;
      destruct (semver_test (Field.text (manifest "version"))) eqn:Hv2;
      destruct (Field.array_length (manifest "requiredApis")) as [n|];
      destruct (Field.truthy (manifest "requiredApis")) eqn:Ha;
      cbn [andb negb orb];
      (do 2 eexists; split;
       [ eapply adds_bind; [apply adds_log|]; apply adds_try_normal;
         eapply adds_bind;
         [ apply (adds_forEach_push (fun field => negb (Field.truthy (manifest field)))
                    (fun field => ("manifest.json missing required field: " ++ field)%string))
         | run ]
       | ]).
      all: cbn [app]; rewrite ?app_nil_r.
      all: split; [rewrite flat_map_nil_iff, forallb_negb_negb; reflexivity|].
      all: split; [first [now split | split; discriminate] | discriminate].
    + do 2 eexists. split.
      { eapply adds_bind; [apply adds_log|].
        eapply adds_try_throw; [apply adds_throw | run]. }
      cbn [app]. split; [split; discriminate|]. split; [now split | discriminate].
    + do 2 eexists. split.
      { eapply adds_bind; [apply adds_log|].
        eapply adds_try_throw; [apply adds_throw | run]. }
      cbn [app]. split; [split; discriminate|]. split; [now split | discriminate].
  - do 2 eexists. split.
    { eapply adds_bind; [apply adds_log|].
      eapply adds_try_throw; [eapply adds_bind_throw; apply adds_throw | run]. }
    cbn [app]. split; [split; discriminate|]. split; [now split | discriminate].
  - do 2 eexists. split.
    { eapply adds_bind; [apply adds_log | apply adds_error]. }
    cbn [app]. split; [split; discriminate|]. split; [now split | reflexivity].
Qed.

Lemma main_js_adds :
  exists E c,
    adds (check_main_js fs) E [] c
    /\ (E = [] /\ c = Normal tt <-> main_js_ok fs = true)
    /\ (c = Normal tt \/ exists m, fs mainJsPath = Some (Throw m) /\ c = Throw m)
    /\ (fs mainJsPath = None -> E = ["main.js not found"]).
Proof.
  unfold check_main_js, main_js_ok, existsSync, readFileSync.
  destruct (fs mainJsPath) as [[mainJs|m]|] eqn:Hf; cbn [is_some].
  - match goal with
    | |- context [bind (ret mainJs) ?f] => change (bind (ret mainJs) f) with (f mainJs)
    end.
    cbv beta.
    destruct (includes mainJs "function initTheme") eqn:Hi;
      (do 2 eexists; split; [run_as|]); cbn [app].
    + split; [now split|]. split; [now left | discriminate].
    + split; [split; [intros [H _]; discriminate | discriminate]|].
      split; [now left | discriminate].
  - do 2 eexists. split; [run_as|]. cbn [app].
    split; [split; [intros [_ H]; discriminate | discriminate]|].
    split; [right; now exists m | discriminate].
  - do 2 eexists. split; [run_as|]. cbn [app].
    split; [split; [intros [H _]; discriminate | discriminate]|].
    split; [now left | reflexivity].
Qed.

Lemma index_html_adds :
  exists W c,
    adds (check_index_html fs) [] W c
    /\ (c = Normal tt \/ exists m, fs indexHtmlPath = Some (Throw m) /\ c = Throw m)
    /\ (c = Normal tt -> fs indexHtmlPath <> None -> readable fs indexHtmlPath = true)
    /\ (c = Normal tt -> (W = [] <-> index_html_ok fs = true)).
Proof.
  unfold check_index_html, index_html_ok, readable, existsSync, readFileSync.
  destruct (fs indexHtmlPath) as [[html|m]|] eqn:Hf; cbn [is_some].
  - match goal with
    | |- context [bind (ret html) ?f] => change (bind (ret html) f) with (f html)
    end.
    cbv beta.
    destruct (includes html "theme-container") eqn:H1;
      destruct (includes html "main.js") eqn:H2;
      (do 2 eexists; split; [run_as|]); cbn [app andb].
    all: split; [now left|]; split; [reflexivity|]; intros _.
    all: first [now split | split; discriminate].
  - do 2 eexists. split; [run_as|]. cbn [app].
    split; [right; now exists m|]. split; discriminate.
  - do 2 eexists. split; [run_as|]. cbn [app].
    split; [now left|]. split; [intros _ H; now destruct H | now split].
Qed.

Lemma validate_run :
  exists Ef Em Wm Ea Wi lines c,
    validate fs JSON_parse TypeError_message
    = (mkState (Ef ++ Em ++ Ea) (Wm ++ Wi) lines, c)
    /\ (Ef = [] <-> forallb (existsSync fs) REQUIRED_FILES = true)
    /\ (forall file,
          In file REQUIRED_FILES -> fs file = None ->
          In ("Missing required file: " ++ file)%string Ef)
    /\ (Em = [] <-> manifest_ok fs JSON_parse = true)
    /\ (Wm = [] <-> version_ok fs JSON_parse = true)
    /\ (fs manifestPath = None -> Em = ["manifest.json not found"])
    /\ (fs mainJsPath = None -> Ea = ["main.js not found"])
    /\ ((exists m,
           c = Throw m
           /\ (fs mainJsPath = Some (Throw m) \/ fs indexHtmlPath = Some (Throw m)))
        \/ (c = Normal (if (0 <? length (Ef ++ Em ++ Ea))%nat then 1 else 0)
            /\ (Ea = [] <-> main_js_ok fs = true)
            /\ (fs indexHtmlPath <> None -> readable fs indexHtmlPath = true)
            /\ (Wi = [] <-> index_html_ok fs = true)
            /\ last lines EmptyString
               = (if (length (Ef ++ Em ++ Ea) =? 0)%nat && (length (Wm ++ Wi) =? 0)%nat
                  then "✅ Validation passed! Theme is ready for submission."
                  else "
Please fix the errors before submitting your theme."))).
Proof.
  destruct required_files_adds as [Ef [Hf1 [Hf2 Hf3]]].
  destruct manifest_adds as [Em [Wm [Hm1 [Hm2 [Hm3 Hm4]]]]].
  destruct main_js_adds as [Ea [ca [Ha1 [Ha2 [Ha3 Ha4]]]]].
  destruct index_html_adds as [Wi [ci [Hi1 [Hi2 [Hi3 Hi4]]]]].
  unfold validate, script.
  unfold bind at 1. unfold console_log at 1. cbv beta iota. cbn [errors warnings console app].
  unfold bind at 1.
  match goal with
  | |- context [check_required_files fs ?s] => destruct (Hf1 s) as [l1 R1]; rewrite R1
  end.
  cbv beta iota. cbn [errors warnings console app]. unfold bind at 1.
  match goal with
  | |- context [check_manifest fs JSON_parse TypeError_message ?s] =>
      destruct (Hm1 s) as [l2 R2]; rewrite R2
  end.
  cbv beta iota. cbn [errors warnings console app]. unfold bind at 1.
  match goal with
  | |- context [check_main_js fs ?s] => destruct (Ha1 s) as [l3 R3]; rewrite R3
  end.
  cbv beta iota. cbn [errors warnings console app].
  destruct ca as [[]|m].
  2: { exists Ef, Em, Wm, Ea, [], (("🔍 Validating theme structure...
" :: l1) ++ l2 ++ l3), (Throw m).
       rewrite !app_nil_r, <- !app_assoc.
       split; [reflexivity|]. do 6 (split; [assumption|]).
       left. exists m. split; [reflexivity|]. left.
       destruct Ha3 as [H|[m' [H1 H2]]]; [discriminate|]. now inversion H2. }
  unfold bind at 1.
  match goal with
  | |- context [check_index_html fs ?s] => destruct (Hi1 s) as [l4 R4]; rewrite R4
  end.
  cbv beta iota. cbn [errors warnings console app].
  destruct ci as [[]|m].
  2: { exists Ef, Em, Wm, Ea, Wi, ((("🔍 Validating theme structure...
" :: l1) ++ l2 ++ l3) ++ l4), (Throw m).
       rewrite ?app_nil_r, <- !app_assoc.
       split; [reflexivity|]. do 6 (split; [assumption|]).
       left. exists m. split; [reflexivity|]. right.
       destruct Hi2 as [H|[m' [H1 H2]]]; [discriminate|]. now inversion H2. }
  match goal with
  | |- context [summary ?s] => destruct (summary_run s) as [l5 R5]; rewrite R5
  end.
  cbn [errors warnings console].
  exists Ef, Em, Wm, Ea, Wi. do 2 eexists. rewrite ?app_nil_r, <- !app_assoc.
  split; [reflexivity|]. do 6 (split; [assumption|]).
  right. split; [reflexivity|].
  split; [rewrite <- Ha2; split; [intro H; now split | now intros [H _]]|].
  split; [now apply Hi3|]. split; [now apply Hi4|].
  rewrite !app_assoc. apply last_last.
Qed.

Lemma required_file_exists (file : string) :
  forallb (existsSync fs) REQUIRED_FILES = true -> In file REQUIRED_FILES ->
  fs file <> None.
Proof.
  intros H Hin. rewrite forallb_forall in H. specialize (H file Hin).
  unfold existsSync in H. now destruct (fs file).
Qed.

Lemma validate_passes_iff :
  exit_code fs JSON_parse TypeError_message = 0 <-> theme_ok fs JSON_parse = true.
Proof.
  destruct validate_run
    as [Ef [Em [Wm [Ea [Wi [lines [c [R [Hf [_ [Hm [_ [_ [_ H]]]]]]]]]]]]]].
  unfold exit_code, theme_ok. rewrite R. cbn [snd].
  destruct H as [[m [-> Hm']] | [-> [Ha [Hr _]]]].
  - split; [discriminate|]. intro H.
    apply andb_true_iff in H as [H H4]. apply andb_true_iff in H as [_ H3].
    unfold main_js_ok in H3. unfold readable in H4.
    destruct Hm' as [E|E]; rewrite E in *; discriminate.
  - split.
    + intro H.
      assert (E : Ef ++ Em ++ Ea = []) by now destruct (Ef ++ Em ++ Ea).
      apply app_eq_nil in E as [E1 E]. apply app_eq_nil in E as [E2 E3].
      apply Hf in E1. apply Hm in E2. apply Ha in E3.
      rewrite E1, E2, E3. cbn [andb]. apply Hr.
      apply (required_file_exists indexHtmlPath E1). now left.
    + intro H.
      apply andb_true_iff in H as [H H4]. apply andb_true_iff in H as [H H3].
      apply andb_true_iff in H as [H1 H2].
      apply Hf in H1. apply Hm in H2. apply Ha in H3. now subst.
Qed.

End ValidateRun.

(** X24.  The validation script exits with 0 exactly when the four
    required files exist, the manifest can be read and is a JSON value
    other than null in which the seven required fields are truthy, main.js
    can be read and contains the text function initTheme, and index.html
    can be read; the errors are then none.  In every other case it exits
    with 1, also when reading main.js or index.html throws, which nothing
    catches.  The three tests that warn have no part in the exit code. *)
Theorem validate_exit_code (fs : string -> option (completion string))
    (JSON_parse : string -> completion (option (string -> Field.t)))
    (TypeError_message : string -> string) :
  let run := validate fs JSON_parse TypeError_message in
  let code := exit_code fs JSON_parse TypeError_message in
  (code = 0 <-> theme_ok fs JSON_parse = true)
  /\ (code = 0 \/ code = 1)
  /\ (theme_ok fs JSON_parse = true -> errors (fst run) = [] /\ snd run = Normal 0).
Proof.
  intros run code. subst run code.
  split; [apply validate_passes_iff|].
  pose proof (validate_passes_iff fs JSON_parse TypeError_message) as P.
  destruct (validate_run fs JSON_parse TypeError_message)
    as [Ef [Em [Wm [Ea [Wi [lines [c [R [_ [_ [_ [_ [_ [_ H]]]]]]]]]]]]]].
  unfold exit_code in *. rewrite R in *. cbn [snd fst errors] in *.
  destruct H as [[m [-> _]] | [-> _]].
  - split; [now right|]. intro T. apply P in T. discriminate.
  - destruct (Ef ++ Em ++ Ea) as [|e es]; cbn [length Nat.ltb Nat.leb] in *.
    + split; [now left|]. now split.
    + split; [now right|]. intro T. apply P in T. discriminate.
Qed.

Lemma length_zero_iff_nil {A : Type} (l : list A) : (length l =? 0)%nat = true <-> l = [].
Proof. destruct l; cbn; split; intro H; try reflexivity; discriminate. Qed.

Lemma bool_eq_iff (a b : bool) : (a = true <-> b = true) -> a = b.
Proof.
  destruct a, b; intros [H1 H2]; try reflexivity.
  - symmetry. now apply H1.
  - now apply H2.
Qed.

(** X25.  When the validation script runs to its end, the warnings are
    none exactly when the version of a manifest that was parsed is falsy or
    starts with three numbers separated by dots, and an index.html that is
    there contains the texts theme-container and main.js.  The last line on
    the console is the one that says the validation passed when there is
    neither an error nor a warning; otherwise it asks to fix the errors,
    also for a theme that has warnings only, whose exit code is 0 all the
    same. *)
Theorem validate_verdict (fs : string -> option (completion string))
    (JSON_parse : string -> completion (option (string -> Field.t)))
    (TypeError_message : string -> string) (code : Z) :
  snd (validate fs JSON_parse TypeError_message) = Normal code ->
  let run := validate fs JSON_parse TypeError_message in
  (warnings (fst run) = [] <-> no_warning fs JSON_parse = true)
  /\ last (console (fst run)) EmptyString
     = (if theme_ok fs JSON_parse && no_warning fs JSON_parse
        then passed_line else fix_line)
  /\ code = (if theme_ok fs JSON_parse then 0 else 1).
Proof.
  intros Hc run. subst run.
  pose proof (validate_passes_iff fs JSON_parse TypeError_message) as P.
  destruct (validate_run fs JSON_parse TypeError_message)
    as [Ef [Em [Wm [Ea [Wi [lines [c [R [_ [_ [_ [Hw [_ [_ H]]]]]]]]]]]]]].
  unfold exit_code in P. rewrite R in *. cbn [snd fst warnings console] in *.
  destruct H as [[m [-> _]] | [-> [_ [_ [Hi L]]]]]; [discriminate|].
  assert (W : (length (Wm ++ Wi) =? 0)%nat = no_warning fs JSON_parse).
  { apply bool_eq_iff. rewrite length_zero_iff_nil. unfold no_warning.
    rewrite andb_true_iff, <- Hw, <- Hi. split.
    - intro E. now apply app_eq_nil in E.
    - intros [-> ->]. reflexivity. }
  assert (T : (length (Ef ++ Em ++ Ea) =? 0)%nat = theme_ok fs JSON_parse).
  { apply bool_eq_iff. rewrite <- P.
    destruct (Ef ++ Em ++ Ea); cbn; split; intro; try reflexivity; discriminate. }
  split.
  - rewrite <- W. symmetry. apply length_zero_iff_nil.
  - split.
    + rewrite L, T, W. reflexivity.
    + inversion Hc. rewrite <- T. now destruct (Ef ++ Em ++ Ea).
Qed.

Lemma validate_verdict_witness :
  snd (validate sample_fs (sample_parse "1.0") sample_TypeError) = Normal 0
  /\ warnings (fst (validate sample_fs (sample_parse "1.0") sample_TypeError))
     = ["Version should follow semantic versioning (e.g., 1.0.0)"]
  /\ last (console (fst (validate sample_fs (sample_parse "1.0") sample_TypeError)))
       EmptyString = fix_line.
Proof.
  destruct (validate_verdict sample_fs (sample_parse "1.0") sample_TypeError 0 eq_refl)
    as [_ [L _]].
  split; [reflexivity|]. split; [reflexivity|]. rewrite L. reflexivity.
Defined.

(** X26.  A manifest.json that is not there is reported twice, once as a
    missing required file and once as not found, and so is a main.js that
    is not there: one missing file counts as two errors. *)
Theorem missing_file_counts_twice (fs : string -> option (completion string))
    (JSON_parse : string -> completion (option (string -> Field.t)))
    (TypeError_message : string -> string) :
  let reported := errors (fst (validate fs JSON_parse TypeError_message)) in
  (fs manifestPath = None ->
   In "Missing required file: theme-template/manifest.json" reported
   /\ In "manifest.json not found" reported)
  /\ (fs mainJsPath = None ->
      In "Missing required file: theme-template/scripts/main.js" reported
      /\ In "main.js not found" reported).
Proof.
  intro reported. subst reported.
  destruct (validate_run fs JSON_parse TypeError_message)
    as [Ef [Em [Wm [Ea [Wi [lines [c [R [_ [Hf [_ [_ [Hm [Ha _]]]]]]]]]]]]]].
  rewrite R. cbn [fst errors]. split; intro H.
  - split.
    + apply in_or_app. left. apply (Hf manifestPath); [cbn; auto | exact H].
    + apply in_or_app. right. apply in_or_app. left. rewrite (Hm H). now left.
  - split.
    + apply in_or_app. left. apply (Hf mainJsPath); [cbn; auto | exact H].
    + apply in_or_app. right. apply in_or_app. right. rewrite (Ha H). now left.
Qed.

Lemma only_digits_skip (s : string) :
  only_digits s = true <-> skip_digits s = EmptyString.
Proof.
  induction s as [|c r IH]; [now split|].
  cbn [only_digits skip_digits]. destruct (is_digit c); cbn [andb]; [exact IH|].
  split; discriminate.
Qed.

Lemma skip_digits_split (s : string) :
  exists d, s = (d ++ skip_digits s)%string /\ skip_digits d = EmptyString.
Proof.
  induction s as [|c r [d [E D]]]; [now exists EmptyString|].
  cbn [skip_digits]. destruct (is_digit c) eqn:Hc.
  - exists (String c d). cbn [append skip_digits]. rewrite Hc, <- E. now split.
  - now exists EmptyString.
Qed.

Lemma digits_some (s r : string) :
  digits s = Some r -> exists d, all_digits d /\ s = (d ++ r)%string.
Proof.
  destruct s as [|c s]; [discriminate|]. cbn [digits].
  destruct (is_digit c) eqn:Hc; [|discriminate]. intro H. inversion H; subst r.
  destruct (skip_digits_split s) as [d [E D]].
  exists (String c d). split.
  - split; [discriminate|]. apply only_digits_skip. cbn [skip_digits]. now rewrite Hc.
  - cbn [append]. now rewrite <- E.
Qed.

Lemma dot_some (s r : string) : dot s = Some r -> s = String "." r.
Proof.
  destruct s as [|c s]; [discriminate|]. cbn [dot].
  destruct (Ascii.eqb c ".") eqn:Hc; [|discriminate].
  apply Ascii.eqb_eq in Hc. intro H. inversion H. now subst.
Qed.

Lemma skip_digits_app (a r : string) :
  skip_digits a = EmptyString -> skip_digits (a ++ r) = skip_digits r.
Proof.
  induction a as [|c a IH]; [reflexivity|].
  cbn [skip_digits append]. destruct (is_digit c); [exact IH | discriminate].
Qed.

Lemma digits_app_dot (a r : string) :
  all_digits a -> digits (a ++ String "." r) = Some (String "." r).
Proof.
  intros [Hn Hd]. apply only_digits_skip in Hd. destruct a as [|c a]; [congruence|].
  cbn [skip_digits] in Hd. cbn [append digits].
  destruct (is_digit c); [|discriminate].
  now rewrite (skip_digits_app a (String "." r) Hd).
Qed.

Lemma digits_app_any (a r : string) : all_digits a -> is_some (digits (a ++ r)) = true.
Proof.
  intros [Hn Hd]. apply only_digits_skip in Hd. destruct a as [|c a]; [congruence|].
  cbn [skip_digits] in Hd. cbn [append digits].
  destruct (is_digit c); [reflexivity | discriminate].
Qed.

(** X27.  The test of the version accepts exactly the texts that start
    with three runs of one or more digits separated by two dots; what
    comes after the third run is free, so that 1.0.0 passes with any
    suffix, and a text that starts with a letter does not pass. *)
Theorem semver_test_language (version : string) :
  semver_test version = true
  <-> exists major minor patch rest,
        all_digits major /\ all_digits minor /\ all_digits patch
        /\ version = (major ++ "." ++ minor ++ "." ++ patch ++ rest)%string.
Proof.
  unfold semver_test. split.
  - destruct (digits version) as [r1|] eqn:H1; [|discriminate].
    destruct (dot r1) as [r2|] eqn:H2; [|discriminate].
    destruct (digits r2) as [r3|] eqn:H3; [|discriminate].
    destruct (dot r3) as [r4|] eqn:H4; [|discriminate].
    destruct (digits r4) as [r5|] eqn:H5; [|discriminate].
    intros _.
    apply digits_some in H1 as [a [Ha E1]]. apply dot_some in H2.
    apply digits_some in H3 as [b [Hb E3]]. apply dot_some in H4.
    apply digits_some in H5 as [c [Hc E5]].
    exists a, b, c, r5. repeat split; try apply Ha; try apply Hb; try apply Hc.
    subst. reflexivity.
  - intros [a [b [c [rest [Ha [Hb [Hc ->]]]]]]].
    change (a ++ "." ++ b ++ "." ++ c ++ rest)%string
      with (a ++ String "." (b ++ String "." (c ++ rest)))%string.
    rewrite (digits_app_dot a _ Ha). cbn [dot]. rewrite Ascii.eqb_refl.
    rewrite (digits_app_dot b _ Hb). cbn [dot]. rewrite Ascii.eqb_refl.
    now apply digits_app_any.
Qed.
